(* ===== verification/_CoqProject ===== *)
-Q . S2P
Prelude.v
JsBuiltins.v
Regex.v
Dotenv.v
Utf8.v
Json.v
JsonRoundtrip.v
Sha256.v
StripeWebhook.v
Hono.v
Url.v
App.v
WebhookProps.v
ServerProps.v
Concurrency.v
ServerSpec.v
