(* ===== verification/Prelude.v ===== *)
(** * A verification development of payment-with-stripe

    The repository is one TypeScript file, [src/src/index.ts]: a Hono HTTP
    server with five routes that creates Stripe checkout sessions and
    receives Stripe webhooks.  Its parts and how they interact:

    - the route layer (Hono): [app.get]/[app.post] register handlers,
      [app.fetch] dispatches a request to the first matching route, and
      an [HTTPException] thrown by a handler becomes the response with its
      status and message (Hono's default error handler); any other thrown
      error becomes [500 Internal Server Error];
    - [GET /] renders an HTML page that embeds
      [process.env.STRIPE_PUBLISHABLE_KEY] (index.ts 12-45);
    - [POST /webhook] reads the raw body and the [stripe-signature]
      header, logs the signing secret and the signature, calls
      [stripe.webhooks.constructEvent] (signature check, freshness check,
      JSON parse), answers [400] on any failure, then tests [event.type]
      against three tags, logging [event.data.object] for each, and
      answers [success] (index.ts 47-76);
    - [POST /checkout] calls [stripe.checkout.sessions.create] with a fixed
      line item and answers the session as JSON, or [500] with the
      processor's message (index.ts 78-97);
    - [GET /success], [GET /cancel]: fixed text (index.ts 99-105);
    - [serve] starts the server on port 3000 (index.ts 107-115).

    The library, in dependency order ([_CoqProject]):

    - [Prelude] (this file): the [js_scope] notations, the outcome type
      ([Normal]/[Thrown]) and the state and exception monad [prog S E A
      := S -> S * outcome E A] in which handlers are written, with
      [throw], [try_catch] (JS [try]/[catch]) and their run lemmas; the
      postconditions [post P Q m] with one rule per combinator and the
      [post] hint database; the [jsdb] hint and rewrite databases and
      the tactics [unfold_prog], [js_simp]; lemmas on strings.
    - [JsBuiltins]: [String.prototype.split] ([split_on]) and its inverse
      [join_with]; the Numbers [parseInt] returns ([jsnum]: integer-valued
      doubles, [±Infinity], [NaN]); [parseInt(s, 10)] ([parseInt10]:
      white space with U+00A0, sign, digits, the value rounded to a
      double by [round_double], ties to even); [Number::toString]
      ([num_to_string]: the fewest digits that round back, found by
      [shortest], exponent form from [1e21]); the exact decimal
      [Z_to_dec] Stripe writes; both conversions are the exact decimal
      below [2^53] ([num_to_string_safe], [parseInt10_Z_to_dec]); and how
      [dotenv/config] fills [process.env] ([dotenv_populate]).
    - [Utf8]: what [await c.req.text()] does to the body: the WHATWG
      UTF-8 decoder as a state machine ([dec_state], [dec_byte],
      [dec_run]: a BOM is dropped, each ill-formed sequence becomes
      U+FFFD) and the encoder ([utf8_encode_cp], by shifts and masks);
      [body_text] is the string of bytes the library then hashes, the
      re-encoding of the decoded body.  Decoding inverts encoding on
      scalar values ([utf8_decode_encode]), so a body that is UTF-8
      without BOM is unchanged, and ASCII always is.
    - [Json]: JSON values, [JSON.parse] ([JSON_parse], a fuelled
      recursive-descent parser), [JSON.stringify] ([stringify]), and
      property access on JS values ([get_prop], [None] for the
      [TypeError] on [null]/[undefined]).
    - [JsonRoundtrip]: [JSON_parse (stringify j) = Some j] for every
      value with grammatical number lexemes and distinct object keys
      ([wf_json]), with the fuel [JSON_parse] gives: one lemma per
      lexical class, then an induction on values ([json_nested_ind]).
    - [Sha256]: [Module Sha256] (FIPS 180-4 on 32-bit words as [Z] with
      explicit wrap-around) and [Module Hmac] (RFC 2104, lower-case hex
      digest), the [crypto.createHmac] the Stripe library calls.
    - [StripeWebhook]: [stripe.webhooks.constructEvent] as the library
      runs it: [parseHeader], [parseEventDetails], [makeHMACContent]
      (over [`${parseInt(t)}`]), [node_secureCompare]
      (NodePlatformFunctions.secureCompare: [TextEncoder] and
      [crypto.timingSafeEqual], which throws on a byte-length mismatch),
      [validateComputedSignature] with the 300 s tolerance, [verifyHeader]
      and [constructEvent]; the HMAC is the interface [CryptoProvider]
      (a [Class] with the laws the proofs use), implemented by
      [node_crypto] from [Sha256]; [signed_fresh] is the contract of
      section 4.1 of the spec, stated on the header's [key=value] entries
      ([header_item]) rather than with the library's helpers.
    - [Hono]: requests, responses, the console as the interface [Console]
      the application state provides, [HTTPException], the context
      helpers [c.text]/[c.html]/[c.json], route registration, [app.fetch]
      ([dispatch], [HEAD] served as [GET] without body, [404]) and the
      default error handler ([500] and [console.error]); [wf_response]
      and [post_app_fetch]: if every handler returns a well-formed
      response or throws what the error handler makes into one, so does
      [app.fetch].
    - [Url]: how [app.fetch] reads the path it routes on from the
      request's URL: Hono's [getPath] (from the first [/] at or after
      index 8 to the [?], or, when a [%] comes first, the path up to the
      query through [tryDecodeURI]), [tryDecodeURI] with its guard for
      [%25] and its run-by-run fallback when [decodeURI] throws, and
      ECMA-262's [decodeURI] ([decode_go]: reserved characters kept
      escaped, UTF-8 sequences validated, [None] for the [URIError]).
      Proved: the query never matters ([getPath_path]), a
      percent-encoded path decodes to what it encodes
      ([tryDecodeURI_encode_all]), a path whose [%] start no escape is
      kept as written ([tryDecodeURI_no_escape]).
    - [App]: index.ts itself.  The state is a [world] (console log,
      [process.env], clock in ms, the Stripe API as an oracle: a fixed
      function of the client and the call, so the same call always gets
      the same answer); each
      handler is a [prog world thrown response] written in the source's
      order (index_handler, webhook_handler, checkout_handler,
      success_handler, cancel_handler); [app_routes] registers them in
      order; [boot] is module start-up ([load_env]: [dotenv/config] on
      the [.env] text, if any; [new Stripe]; [serve] and its log line); [handle] is one request and
      [handle_seq] a sequence of them.
    - [WebhookProps]: the theorems on [POST /webhook], each with its
      witness on the concrete world [demo_world] of [App].
    - [ServerProps]: the theorems on the other routes, start-up from a
      [.env] file and a sequence of requests.
    - [Concurrency]: requests in flight as processes ([proc]) that yield
      at the handlers' awaits (index.ts 48 and 80), and the event loop
      as a step relation on a pool of processes ([step]) with the clock
      advancing between segments ([step_clock]).
    - [ServerSpec]: the contract of the whole server, section 6 of the
      spec as a function [server_response] of the request and the world
      (the webhook's verification and event shape, the Stripe API's
      answer, the publishable key), and the refinement theorem
      [app_fetch_refines]: [app.fetch] answers exactly that.

    Theorems, by group (the claims of the manifest are in [WebhookProps],
    [ServerProps], [Concurrency] and [ServerSpec]):
    - the server as a whole refines its contract: every response of
      [app.fetch] is the one [server_response] gives
      ([app_fetch_refines]);
    - webhook delivery end to end: an event Stripe serializes and signs
      with the server's secret is verified, logged and acknowledged; a
      correctly signed, fresh JSON payload is accepted and becomes the
      event, also under several keys and with non-ASCII UTF-8 text; a
      request that fails verification gets [400] and logs only the
      failure; other secrets, stale timestamps and tampered bodies are
      rejected.  These hold for timestamps below [2^53] in magnitude
      (every Unix time in seconds): above, the library hashes the
      rounded [parseInt] of [t], printed in exponent form from [1e21],
      not the decimal Stripe signed;
    - verification against the spec: what the handler takes as an event
      meets the contract [signed_fresh] ([verified_event_spec], from
      [verifyHeader_signed_fresh]); the verification is equivalent,
      error for error, to a reference that takes the error of the first
      candidate [secureCompare] throws on and otherwise tests membership
      ([verified_event_equiv], from [verifyHeader_equiv] and
      [node_secureCompare_ascii]); a request answered [200] carries a
      64-digit hex candidate and a timestamp at most 300 s old, or read
      as [+Infinity] or [NaN] ([webhook_success_bounds]); a signed body
      that is not clean UTF-8 is verified against its decoding and
      rejected ([webhook_rejects_reencoded_body]);
    - event dispatch: handled types log [data.object], other types are
      acknowledged (twice alike), a [null] payload or a handled type
      without [data] gives [500];
    - checkout: the session parses back unchanged in the page's
      script, an API failure gives [500] with the processor's message;
      the page embeds the publishable key;
    - state: handling a request only appends to the log (a compositional
      invariant, [log_oblivious], proved per combinator with the
      [oblivious] hint database), so a sequence of requests gets the
      answers each gets alone ([handle_seq_stateless]); a replay once
      stale stays rejected for the rest of a run (rule induction on
      [reachable]); start-up from a file of [KEY=VALUE] lines sets
      exactly its entries ([boot_reads_env_file]);
    - concurrency: whatever the interleaving of requests at their awaits
      and however the clock advances meanwhile, each finished request has
      the outcome it has alone at some time between the start and now
      ([concurrent_outcomes_clock], by an invariant [behaves_c] of each
      process preserved by every step of [step_clock]);
    - the deviations the manifest lists: the signing secret is logged,
      missing configuration is not detected at start-up, a [NaN] or
      [+Infinity] timestamp is never stale;
    - library lemmas: the header format round-trips through
      [parseHeader], decimals below [2^53] through [parseInt] and the
      template literal, [JSON.parse] inverts [JSON.stringify], decoding
      inverts UTF-8 encoding, SHA-256 and HMAC meet their test vectors
      (FIPS 180-2, RFC 4231) and give 64 lower-case hex characters; on
      URLs, the query never matters to [getPath] and a percent-encoded
      path decodes to what it encodes.

    Bounds and fuel: [digits_of] runs on [N.size n + 1] steps, enough for
    every digit of [n]; [dec_digits] counts digits on [log2 x + 1] steps,
    and [shortest] tries digit counts [1] to that count, the last of
    which always has a candidate for a double ([shortest_go_complete]); [JSON_parse] gives its parser [2 * length + 1]
    units, and [jfuel_le_length] shows that the text of a value is at
    least as long as the fuel its parse needs; [decodeURI] runs on
    [S (length l)] steps, one more than the characters, since each step
    consumes one ([decode_go_fuel]: more fuel changes nothing); the regex matcher runs a
    star on [S (length s - i)] iterations, enough since each iteration
    but the last consumes a character, and [exec] tries the
    [S (length s - i)] start positions from [i]; dotenv's loop runs on
    [S (length s)] matches, enough since each ends after the previous
    ([parse_loop_serialize] uses exactly this); [Sha256.hash_blocks]
    runs on the length of the padded message, more than its block count;
    the SHA-256 constants are computed from the primes by bisection with
    200 steps, more than the 35 bits of each cube root.  The UTF-8
    decoder is structural on the bytes; code points are [Z], bytes are
    [Z] in [0, 256) taken from the characters of the body string.  32-bit words
    wrap by [mod 2^32] after every addition, as the standard requires.

    Not modelled: the Stripe API over the network (an oracle in the
    world), the browser script and the Stripe.js redirect (only the page
    text is modelled), reading the [.env] file from disk (its text is
    an input of [boot]) and dotenv's encrypted [DOTENV_KEY] vault,
    non-ASCII characters in [.env] (the text is a list of ASCII
    characters; [\s] is the ASCII blanks), socket I/O of [@hono/node-server] (a request's body
    arrives as a whole, at the end of its [await]) and the
    normalisation [new URL(...)] applies to the request target before
    Hono sees it (the URL is an input of [serve_request]: dot segments,
    backslashes and characters the WHATWG parser escapes are not
    modelled), JSON numbers as
    doubles, and a Stripe API whose answers change over time (the
    oracle is a function of the call; the theorems on sequences and
    interleavings of requests rest on it).  Log texts of verification
    errors abbreviate the library's longer messages.  A request body is a string of bytes: the
    bytes on the wire, from which [c.req.text()] decodes; UTF-16 code
    units of JS strings are not modelled, only their UTF-8 bytes, which
    is all the library hashes.
*)

From stdpp Require Export base list strings.
From Stdlib Require Export Ascii ZArith Lia.

Declare Scope js_scope.
Delimit Scope js_scope with js.
Open Scope js_scope.

Create HintDb jsdb discriminated.
Create Rewrite HintDb jsdb.

(** ** Outcomes of JavaScript code: a value or a thrown exception *)

Inductive outcome (E A : Type) : Type :=
| Normal (a : A)
| Thrown (e : E).
Arguments Normal {E A} a.
Arguments Thrown {E A} e.

(** Pure code that may throw is written in the [outcome] monad. *)
#[export] Instance outcome_ret {E} : MRet (outcome E) := fun A a => Normal a.

#[export] Instance outcome_bind {E} : MBind (outcome E) :=
  fun A B k m => match m with Normal a => k a | Thrown e => Thrown e end.

Lemma outcome_bind_normal {E A B} (a : A) (k : A -> outcome E B) :
  (Normal a ≫= k) = k a.
Proof. reflexivity. Qed.

Lemma outcome_bind_thrown {E A B} (e : E) (k : A -> outcome E B) :
  (Thrown e ≫= k) = Thrown e.
Proof. reflexivity. Qed.

Lemma outcome_bind_normal_inv {E A B} (m : outcome E A) (k : A -> outcome E B) b :
  (m ≫= k) = Normal b -> exists a, m = Normal a /\ k a = Normal b.
Proof. destruct m; cbn; [eauto | discriminate]. Qed.

(** ** A state and exception monad

    [prog S E A] runs on a state [S] (the console log, the process
    environment) and either returns an [A] or throws an [E]; a thrown
    exception keeps the state reached so far, as in JavaScript. *)

Definition prog (S E A : Type) : Type := S -> S * outcome E A.

#[export] Instance prog_ret {S E} : MRet (prog S E) :=
  fun A a s => (s, Normal a).

#[export] Instance prog_bind {S E} : MBind (prog S E) :=
  fun A B k m s =>
    match m s with
    | (s', Normal a) => k a s'
    | (s', Thrown e) => (s', Thrown e)
    end.

Definition throw {S E A} (e : E) : prog S E A := fun s => (s, Thrown e).

(** [try { m } catch (e) { h e }] *)
Definition try_catch {S E E' A} (m : prog S E A) (h : E -> prog S E' A)
  : prog S E' A :=
  fun s =>
    match m s with
    | (s', Normal a) => (s', Normal a)
    | (s', Thrown e) => h e s'
    end.

Definition modify {S E} (f : S -> S) : prog S E unit := fun s => (f s, Normal tt).

Definition gets {S E A} (f : S -> A) : prog S E A := fun s => (s, Normal (f s)).

Definition of_outcome {S E A} (o : outcome E A) : prog S E A :=
  fun s => (s, o).

(** ** Laws of the monad, pointwise *)

Section ProgLaws.
Context {S E A B : Type}.

Lemma run_ret (a : A) (s : S) : (mret a : prog S E A) s = (s, Normal a).
Proof. reflexivity. Qed.

Lemma run_bind (m : prog S E A) (k : A -> prog S E B) (s : S) :
  (m ≫= k) s =
  match m s with
  | (s', Normal a) => k a s'
  | (s', Thrown e) => (s', Thrown e)
  end.
Proof. reflexivity. Qed.

Lemma run_throw (e : E) (s : S) : (throw e : prog S E A) s = (s, Thrown e).
Proof. reflexivity. Qed.

Lemma run_bind_normal (m : prog S E A) (k : A -> prog S E B) s s' a :
  m s = (s', Normal a) -> (m ≫= k) s = k a s'.
Proof. intros H. rewrite run_bind, H. reflexivity. Qed.

Lemma run_bind_thrown (m : prog S E A) (k : A -> prog S E B) s s' e :
  m s = (s', Thrown e) -> (m ≫= k) s = (s', Thrown e).
Proof. intros H. rewrite run_bind, H. reflexivity. Qed.

Lemma run_try_normal {E'} (m : prog S E A) (h : E -> prog S E' A) s s' a :
  m s = (s', Normal a) -> try_catch m h s = (s', Normal a).
Proof. intros H. unfold try_catch. rewrite H. reflexivity. Qed.

Lemma run_try_thrown {E'} (m : prog S E A) (h : E -> prog S E' A) s s' e :
  m s = (s', Thrown e) -> try_catch m h s = h e s'.
Proof. intros H. unfold try_catch. rewrite H. reflexivity. Qed.
End ProgLaws.

#[export] Hint Rewrite @run_ret @run_throw @outcome_bind_normal @outcome_bind_thrown : jsdb.

(** ** Postconditions

    [post P Q m]: from every state, [m] returns a value satisfying [P]
    or throws one satisfying [Q].  The rules follow the combinators of
    the monad, so that the postcondition of a handler is derived from
    those of its parts by [eauto with post]. *)

Definition post {S E A} (P : A -> Prop) (Q : E -> Prop) (m : prog S E A) : Prop :=
  forall s, match snd (m s) with Normal a => P a | Thrown e => Q e end.

Section Post.
Context {S E A B : Type}.
Implicit Types (P : A -> Prop) (Q : E -> Prop).

Lemma post_ret P Q a : P a -> post (S:=S) P Q (mret a).
Proof. intros H s. exact H. Qed.

Lemma post_throw P Q e : Q e -> post (S:=S) P Q (throw e).
Proof. intros H s. exact H. Qed.

Lemma post_of_outcome P Q (o : outcome E A) :
  match o with Normal a => P a | Thrown e => Q e end -> post (S:=S) P Q (of_outcome o).
Proof. intros H s. exact H. Qed.

Lemma post_modify Q (f : S -> S) : post (fun _ => True) Q (modify f).
Proof. intros s. exact I. Qed.

Lemma post_gets P Q (f : S -> A) : (forall s, P (f s)) -> post P Q (gets f).
Proof. intros H s. apply H. Qed.

Lemma post_bind (P' : A -> Prop) (P : B -> Prop) Q (m : prog S E A) k :
  post P' Q m -> (forall a, P' a -> post P Q (k a)) -> post P Q (m ≫= k).
Proof.
  intros Hm Hk s. specialize (Hm s). rewrite run_bind.
  destruct (m s) as [s' [a|e]]; cbn in *; [apply Hk|]; done.
Qed.

Lemma post_try {E'} P (Q' : E -> Prop) (Q : E' -> Prop) (m : prog S E A) h :
  post P Q' m -> (forall e, Q' e -> post P Q (h e)) -> post P Q (try_catch m h).
Proof.
  intros Hm Hh s. specialize (Hm s). unfold try_catch.
  destruct (m s) as [s' [a|e]]; cbn in *; [|apply Hh]; done.
Qed.

Lemma post_if P Q (b : bool) (m1 m2 : prog S E A) :
  post P Q m1 -> post P Q m2 -> post P Q (if b then m1 else m2).
Proof. by destruct b. Qed.
End Post.

(** Intermediate results need no postcondition of their own in the
    handlers of this program: binds and [try] blocks are split with
    [True] in between. *)
Create HintDb post discriminated.
#[export] Hint Resolve post_modify post_if : post.
#[export] Hint Extern 1 (post _ _ (mret _)) => apply post_ret; cbv beta : post.
#[export] Hint Extern 1 (post _ _ (throw _)) => apply post_throw; cbv beta : post.
#[export] Hint Extern 1 (post _ _ (gets _)) => apply post_gets; intros : post.
#[export] Hint Extern 1 (post _ _ (of_outcome ?o)) => apply post_of_outcome; destruct o : post.
#[export] Hint Extern 2 (post _ _ (_ ≫= _)) => apply (post_bind (fun _ => True)); [|intros ? _] : post.
#[export] Hint Extern 2 (post _ _ (try_catch _ _)) => apply (post_try _ (fun _ => True)); [|intros ? _] : post.

(** ** Strings *)

(** stdpp makes [String.append] [simpl never]; these equations are how
    proofs unfold it. *)
Lemma string_app_cons (c : Ascii.ascii) (a b : string) :
  String c a +:+ b = String c (a +:+ b).
Proof. reflexivity. Qed.

Lemma string_app_nil_l (a : string) : "" +:+ a = a.
Proof. reflexivity. Qed.

Lemma string_app_assoc (a b c : string) : (a +:+ b) +:+ c = a +:+ (b +:+ c).
Proof. induction a as [|x a IH]; [done|]. by rewrite !string_app_cons, IH. Qed.

Lemma string_app_nil_r (a : string) : a +:+ "" = a.
Proof. induction a as [|x a IH]; [done|]. by rewrite string_app_cons, IH. Qed.

Lemma string_app_inj_l (a b c : string) : a +:+ b = a +:+ c -> b = c.
Proof.
  induction a as [|x a IH]; [done|]. rewrite !string_app_cons.
  intros H. apply IH. congruence.
Qed.

Lemma string_length_app (a b : string) :
  String.length (a +:+ b) = String.length a + String.length b.
Proof. induction a as [|x a IH]; [done|]. rewrite string_app_cons. cbn. by rewrite IH. Qed.

#[export] Hint Rewrite string_app_assoc string_app_nil_r string_app_nil_l string_app_cons : jsdb.

Lemma string_eqb_refl (a : string) : String.eqb a a = true.
Proof. apply String.eqb_refl. Qed.

Lemma string_eqb_neq (a b : string) : a <> b -> String.eqb a b = false.
Proof. apply String.eqb_neq. Qed.

#[export] Hint Rewrite string_eqb_refl : jsdb.
#[export] Hint Resolve string_eqb_neq : jsdb.

(** ** Tactics *)

(** Evaluate a program run as far as its definitions and the rewrite
    database allow. *)
Ltac js_simp :=
  repeat (progress (cbn -[String.eqb String.append] in *; autorewrite with jsdb in *)).

(** Case on every [String.eqb] test in the goal, turning it into a
    propositional (in)equality. *)
Ltac case_streq :=
  repeat match goal with
  | |- context [String.eqb ?a ?b] =>
      let E := fresh "Eq" in
      destruct (String.eqb_spec a b) as [E|E]; [subst|]
  end.

(** Expose the monadic plumbing of a program so that [cbn] can run it;
    stdpp keeps [mbind] and [mret] folded otherwise. *)
Ltac unfold_prog :=
  unfold mbind, mret, prog_bind, prog_ret, outcome_bind, outcome_ret,
    gets, modify, throw, try_catch, of_outcome in *.

(** Close [a <> b] between closed terms by computing both sides. *)
Ltac eval_neq := let Hc := fresh in intros Hc; vm_compute in Hc; discriminate.
