(* ===== verification/JsBuiltins.v ===== *)
(** * JavaScript built-ins used by the server and by the Stripe library

    - [split_on]: [String.prototype.split] with a one-character separator,
      as [parseHeader] uses it ([header.split(',')], [item.split('=')]);
    - [jsnum], [parseInt10], [num_to_string]: the Numbers that
      [parseInt(s, 10)] produces (integer-valued doubles, the digits'
      value rounded to nearest, ties to even, [±Infinity] and [NaN]), and
      their conversion back to a string in a template literal
      ([Number::toString]: the shortest digits that round back, in
      exponent form from [1e21]); [Z_to_dec] is the exact decimal, which
      both agree with below [2^53];
    - [dotenv_populate]: how [import "dotenv/config"] fills [process.env]
      ([gmap string string]) from the parsed [.env] file without
      overriding variables that are already set.

    Strings are byte strings ([string] of [ascii]), read as latin1
    characters.  A double is kept as the integer it denotes ([Z]); the
    rounding of [parseInt] and the digit search of [Number::toString]
    are written out on it. *)

From S2P Require Import Prelude.
From stdpp Require Import gmap.

(** ** [String.prototype.split] with a one-character separator *)

Fixpoint split_on (sep : Ascii.ascii) (s : string) : list string :=
  match s with
  | EmptyString => [""]
  | String c s' =>
      let rest := split_on sep s' in
      if Ascii.eqb c sep then "" :: rest
      else match rest with
           | r :: rs => String c r :: rs
           | [] => [String c ""]
           end
  end.

(** [Array.prototype.join] with a one-character separator *)
Fixpoint join_with (sep : Ascii.ascii) (l : list string) : string :=
  match l with
  | [] => ""
  | [x] => x
  | x :: l' => x +:+ String sep (join_with sep l')
  end.

(** Does [c] occur in [s]? ([s.includes(c)]) *)
Fixpoint has_char (c : Ascii.ascii) (s : string) : bool :=
  match s with
  | EmptyString => false
  | String c' s' => Ascii.eqb c' c || has_char c s'
  end.

(** ** Decimal digits *)

Definition is_digit (c : Ascii.ascii) : bool :=
  let n := Ascii.N_of_ascii c in (48 <=? n)%N && (n <=? 57)%N.

Definition digit_value (c : Ascii.ascii) : Z := Z.of_N (Ascii.N_of_ascii c - 48).

Definition digit_char (d : N) : Ascii.ascii := Ascii.ascii_of_N (48 + d).

(** The loop of [parseInt]: accumulate the longest prefix of digits. *)
Fixpoint parse_digits (acc : Z) (s : string) : Z :=
  match s with
  | EmptyString => acc
  | String c s' => if is_digit c then parse_digits (10 * acc + digit_value c) s' else acc
  end.

(** Digits of [n] in front of [acc], most significant first; [fuel]
    bounds the number of digits. *)
Fixpoint digits_of (fuel : nat) (n : N) (acc : string) : string :=
  match fuel with
  | O => acc
  | S f =>
      if (n <? 10)%N then String (digit_char n) acc
      else digits_of f (n / 10) (String (digit_char (n mod 10)) acc)
  end.

(** [N.size n] binary digits are always enough decimal digits. *)
Definition N_to_dec (n : N) : string := digits_of (S (N.to_nat (N.size n))) n "".

(** Lower-case hexadecimal digits, as [digest('hex')] prints them. *)
Definition is_lower_hex (c : Ascii.ascii) : bool :=
  is_digit c || let n := Ascii.N_of_ascii c in (97 <=? n)%N && (n <=? 102)%N.

Fixpoint all_lower_hex (s : string) : bool :=
  match s with
  | EmptyString => true
  | String c s' => is_lower_hex c && all_lower_hex s'
  end.

(** ** JavaScript numbers as [parseInt] produces them *)

(** A Number [parseInt] can return: an integer-valued double ([JNum]),
    an infinity ([JInf true] is [-Infinity]), or [NaN].  [-0] is [JNum 0]:
    it prints as ["0"] and compares as [0]. *)
Inductive jsnum : Type :=
| JNum (z : Z)
| JInf (neg : bool)
| JNaN.

#[export] Instance jsnum_eq_dec : EqDecision jsnum.
Proof. solve_decision. Defined.

(** The exact decimal of an integer, as Stripe's servers write the
    timestamp they sign. *)
Definition Z_to_dec (z : Z) : string :=
  if (z <? 0)%Z then String "-"%char (N_to_dec (Z.to_N (- z))) else N_to_dec (Z.to_N z).

(** The Number value of an integer [z >= 0] (ECMA-262 6.1.6.1): the
    nearest double, ties to the even significand; [None] when that is
    [2^1024] or more, i.e. [Infinity]. *)
Definition round_double (z : Z) : option Z :=
  let r :=
    if (z <? 2 ^ 53)%Z then z
    else
      let e := (Z.log2 z - 52)%Z in
      let q := (z / 2 ^ e)%Z in
      let rem := (z mod 2 ^ e)%Z in
      let half := (2 ^ (e - 1))%Z in
      ((if (half <? rem)%Z || ((rem =? half)%Z && Z.odd q) then q + 1 else q) * 2 ^ e)%Z in
  if (r <? 2 ^ 1024)%Z then Some r else None.

(** The number of decimal digits of [x >= 1]: the least [d] from [d0]
    on with [x < 10^d]. *)
Fixpoint dec_digits_go (fuel : nat) (x d : Z) : Z :=
  match fuel with
  | O => d
  | S f => if (x <? 10 ^ d)%Z then d else dec_digits_go f x (d + 1)
  end.

Definition dec_digits (x : Z) : Z := dec_digits_go (Z.to_nat (Z.log2 x + 1)) x 1.

(** The candidates with [k] digits for [Number::toString(x)]: the
    multiples of [10^(n-k)] just below and just above [x], for [n] the
    number of digits of [x] or one more, that have [k] digits and whose
    Number value is [x]. *)
Definition candidates (x k : Z) : list (Z * Z) :=
  let D := dec_digits x in
  let around n := [((x / 10 ^ (n - k))%Z, n); ((x / 10 ^ (n - k) + 1)%Z, n)] in
  List.filter (fun c => (10 ^ (k - 1) <=? c.1)%Z && (c.1 <? 10 ^ k)%Z &&
                        bool_decide (round_double (c.1 * 10 ^ (c.2 - k))%Z = Some x))
    (around D ++ around (D + 1)%Z).

(** Of two candidates, the one closer to [x]; on a tie the even [s]. *)
Definition better (x k : Z) (a b : Z * Z) : Z * Z :=
  let da := Z.abs (a.1 * 10 ^ (a.2 - k) - x) in
  let db := Z.abs (b.1 * 10 ^ (b.2 - k) - x) in
  if (db <? da)%Z || ((db =? da)%Z && Z.even b.1 && negb (Z.even a.1)) then b else a.

Definition pick (x k : Z) (cs : list (Z * Z)) : option (Z * Z) :=
  match cs with
  | [] => None
  | c :: cs' => Some (fold_left (better x k) cs' c)
  end.

(** The least [k] with a candidate, from [k] on: [(s, k, n)]. *)
Fixpoint shortest_go (x : Z) (fuel : nat) (k : Z) : option (Z * Z * Z) :=
  match fuel with
  | O => None
  | S f =>
      match pick x k (candidates x k) with
      | Some (s, n) => Some (s, k, n)
      | None => shortest_go x f (k + 1)
      end
  end.

Definition shortest (x : Z) : option (Z * Z * Z) := shortest_go x (Z.to_nat (dec_digits x)) 1.

Fixpoint zeros (n : nat) : string :=
  match n with
  | O => ""
  | S n' => String "0"%char (zeros n')
  end.

(** [Number::toString(x)] for a positive integer-valued double
    (ECMA-262 6.1.6.1.20, radix 10): the [k] digits of [s], then [n - k]
    zeros up to 21 digits, in exponent form beyond.  A value that is not
    a double has no candidate; [parseInt] never produces one. *)
Definition pos_to_string (x : Z) : string :=
  match shortest x with
  | Some (s, k, n) =>
      let ds := N_to_dec (Z.to_N s) in
      if (n <=? 21)%Z then
        if (k <=? n)%Z then ds +:+ zeros (Z.to_nat (n - k))
        else String.substring 0 (Z.to_nat n) ds +:+ "." +:+ String.substring (Z.to_nat n) (Z.to_nat (k - n)) ds
      else
        let e := "e+" +:+ N_to_dec (Z.to_N (n - 1)) in
        if (k =? 1)%Z then ds +:+ e
        else String.substring 0 1 ds +:+ "." +:+ String.substring 1 (Z.to_nat (k - 1)) ds +:+ e
  | None => N_to_dec (Z.to_N x)
  end.

(** [`${n}`] *)
Definition num_to_string (n : jsnum) : string :=
  match n with
  | JNum z =>
      if (z =? 0)%Z then "0"
      else if (z <? 0)%Z then String "-"%char (pos_to_string (- z)) else pos_to_string z
  | JInf neg => if neg then "-Infinity" else "Infinity"
  | JNaN => "NaN"
  end.

(** [StrWhiteSpaceChar] on single characters: TAB, LF, VT, FF, CR,
    space and U+00A0 (the header byte [0xA0], which Node reads as
    latin1).  The other white space and line terminators are above
    U+00FF. *)
Definition is_js_space (c : Ascii.ascii) : bool :=
  let n := Ascii.N_of_ascii c in ((9 <=? n)%N && (n <=? 13)%N) || (n =? 32)%N || (n =? 160)%N.

Fixpoint trim_start (s : string) : string :=
  match s with
  | String c s' => if is_js_space c then trim_start s' else s
  | EmptyString => EmptyString
  end.

(** The digits after an optional sign: [NaN] when there is none. *)
Definition parse_unsigned (s : string) : option Z :=
  match s with
  | String c _ => if is_digit c then Some (parse_digits 0 s) else None
  | EmptyString => None
  end.

(** [parseInt(x, 10)] where [x] is a string or [undefined] ([None]);
    [undefined] converts to the string ["undefined"], which has no
    digits. *)
Definition sign_split (s : string) : bool * string :=
  match s with
  | String c r =>
      if Ascii.eqb c "-" then (true, r) else if Ascii.eqb c "+" then (false, r) else (false, s)
  | EmptyString => (false, s)
  end.

(** The Number of a sign and a magnitude: [±Infinity] on overflow. *)
Definition jsnum_of (neg : bool) (r : option Z) : jsnum :=
  match r with
  | Some m => JNum (if neg then - m else m)%Z
  | None => JInf neg
  end.

(** [sign × 𝔽(mathInt)]: the digits' value rounded to a double. *)
Definition parseInt10 (x : option string) : jsnum :=
  let '(neg, body) := sign_split (trim_start (default "undefined" x)) in
  match parse_unsigned body with
  | Some z => jsnum_of neg (round_double z)
  | None => JNaN
  end.

(** ** [process.env] and [dotenv/config]

    [populate(process.env, parsed)] sets each parsed key that is not
    already present; present keys are kept ([override] is false). *)
Definition dotenv_populate (env parsed : gmap string string) : gmap string string :=
  map_fold (fun k v acc => if decide (is_Some (env !! k)) then acc else <[k:=v]> acc)
           env parsed.

Example split_header_ex : split_on ","%char "t=12,v1=ab,,x" = ["t=12"; "v1=ab"; ""; "x"].
Proof. reflexivity. Qed.
Example parseInt_ex1 : parseInt10 (Some " -0017abc") = JNum (-17).
Proof. reflexivity. Qed.
Example parseInt_ex2 : parseInt10 None = JNaN.
Proof. reflexivity. Qed.
Example num_ex : num_to_string (JNum (-1700000000)) = "-1700000000".
Proof. vm_compute. reflexivity. Qed.
(** Above [2^53] [parseInt] rounds, and [`${n}`] prints the fewest
    digits that round back, in exponent form from [1e21] on. *)
Example num_ex_large :
  parseInt10 (Some "9007199254740993") = JNum 9007199254740992 /\
  num_to_string (JNum (2 ^ 60)) = "1152921504606847000" /\
  num_to_string (parseInt10 (Some "1000000000000000000000")) = "1e+21" /\
  parseInt10 (Some "1e+21") = JNum 1 /\
  parseInt10 (Some (String (Ascii.ascii_of_N 160) "5")) = JNum 5.
Proof. vm_compute. repeat split. Qed.

(** ** Lemmas: splitting *)

Lemma split_on_cons_ne sep c s r rs :
  c <> sep -> split_on sep s = r :: rs -> split_on sep (String c s) = String c r :: rs.
Proof. intros Hne Hs. cbn. destruct (Ascii.eqb_spec c sep); [done|]. by rewrite Hs. Qed.

Lemma split_on_nonempty sep s : exists r rs, split_on sep s = r :: rs.
Proof.
  induction s as [|c s (r & rs & IH)]; cbn; [by eexists _, _|].
  rewrite IH. destruct (Ascii.eqb c sep); by eexists _, _.
Qed.

(** A separator-free [x] followed by the separator is one field. *)
Lemma split_on_field sep x y :
  has_char sep x = false -> split_on sep (x +:+ String sep y) = x :: split_on sep y.
Proof.
  induction x as [|c x IH]; intros Hx.
  - rewrite string_app_nil_l. cbn. by rewrite Ascii.eqb_refl.
  - cbn in Hx. apply orb_false_iff in Hx as [Hc Hx]. rewrite string_app_cons; cbn.
    rewrite Hc, (IH Hx). reflexivity.
Qed.

Lemma split_on_free sep x : has_char sep x = false -> split_on sep x = [x].
Proof.
  induction x as [|c x IH]; cbn; intros Hx; [done|].
  apply orb_false_iff in Hx as [Hc Hx]. by rewrite Hc, (IH Hx).
Qed.

(** Splitting a joined list gives the list back. *)
Lemma split_on_join sep l :
  l <> [] -> Forall (fun x => has_char sep x = false) l -> split_on sep (join_with sep l) = l.
Proof.
  induction l as [|x [|y l] IH]; intros Hne Hall; [done| |].
  - inversion Hall; subst. by apply split_on_free.
  - inversion Hall; subst. change (join_with sep (x :: y :: l)) with
      (x +:+ String sep (join_with sep (y :: l))).
    rewrite split_on_field by done. f_equal. by apply IH.
Qed.

(** ** Lemmas: decimal digits *)

Fixpoint all_digits (s : string) : bool :=
  match s with
  | EmptyString => true
  | String c s' => is_digit c && all_digits s'
  end.

Lemma all_digits_app x y : all_digits (x +:+ y) = all_digits x && all_digits y.
Proof.
  induction x as [|c x IH]; [done|].
  rewrite string_app_cons. cbn. rewrite IH. apply andb_assoc.
Qed.

Lemma digit_char_digit d : (d < 10)%N -> is_digit (digit_char d) = true.
Proof.
  intros Hd. unfold is_digit, digit_char. rewrite Ascii.N_ascii_embedding by lia.
  apply andb_true_iff; split; apply N.leb_le; lia.
Qed.

Lemma digit_value_char d : (d < 10)%N -> digit_value (digit_char d) = Z.of_N d.
Proof.
  intros Hd. unfold digit_value, digit_char. rewrite Ascii.N_ascii_embedding by lia.
  f_equal. lia.
Qed.

Lemma parse_digits_app acc x y :
  all_digits x = true -> parse_digits acc (x +:+ y) = parse_digits (parse_digits acc x) y.
Proof.
  revert acc. induction x as [|c x IH]; intros acc Hx; [done|].
  cbn in Hx. apply andb_true_iff in Hx as [Hc Hx].
  rewrite string_app_cons. cbn. rewrite Hc. by apply IH.
Qed.

Lemma digits_of_acc f n acc : digits_of f n acc = digits_of f n "" +:+ acc.
Proof.
  revert n acc. induction f as [|f IH]; intros n acc; cbn; [done|].
  destruct (n <? 10)%N; [done|].
  rewrite (IH _ (String _ acc)), (IH _ (String _ "")), string_app_assoc. done.
Qed.

Lemma digits_of_all f n : all_digits (digits_of f n "") = true.
Proof.
  revert n. induction f as [|f IH]; intros n; cbn; [done|].
  destruct (N.ltb_spec n 10).
  - cbn. by rewrite digit_char_digit.
  - rewrite digits_of_acc, all_digits_app, IH. cbn.
    rewrite digit_char_digit; [done|]. apply N.mod_lt. lia.
Qed.

Lemma parse_digits_of f n :
  (n < 10 ^ N.of_nat f)%N -> parse_digits 0 (digits_of f n "") = Z.of_N n.
Proof.
  revert n. induction f as [|f IH]; intros n Hn; cbn [digits_of].
  - cbn in Hn. assert (n = 0%N) as -> by lia. done.
  - destruct (N.ltb_spec n 10).
    + cbn [parse_digits]. rewrite digit_char_digit, digit_value_char by done. lia.
    + rewrite digits_of_acc, parse_digits_app by apply digits_of_all.
      rewrite IH.
      * cbn [parse_digits].
        rewrite digit_char_digit, digit_value_char by (apply N.mod_lt; lia).
        pose proof (N.div_mod n 10). lia.
      * rewrite Nat2N.inj_succ, N.pow_succ_r' in Hn.
        apply N.Div0.div_lt_upper_bound. lia.
Qed.

Lemma N_to_dec_fuel n : (n < 10 ^ N.of_nat (S (N.to_nat (N.size n))))%N.
Proof.
  rewrite Nat2N.inj_succ, N2Nat.id, N.pow_succ_r'.
  pose proof (N.size_gt n).
  assert (2 ^ N.size n <= 10 ^ N.size n)%N by (apply N.pow_le_mono_l; lia).
  lia.
Qed.

Lemma N_to_dec_all n : all_digits (N_to_dec n) = true.
Proof. apply digits_of_all. Qed.

Lemma N_to_dec_value n : parse_digits 0 (N_to_dec n) = Z.of_N n.
Proof. apply parse_digits_of, N_to_dec_fuel. Qed.

Lemma N_to_dec_cons n : exists c r, N_to_dec n = String c r /\ is_digit c = true.
Proof.
  pose proof (N_to_dec_all n) as Hall.
  assert (String.length (N_to_dec n) <> 0) as Hlen.
  { unfold N_to_dec. cbn [digits_of]. destruct (n <? 10)%N; [done|].
    rewrite digits_of_acc, string_length_app. cbn. lia. }
  remember (N_to_dec n) as s eqn:Hs. destruct s as [|c r]; [done|].
  exists c, r. cbn [all_digits] in Hall. apply andb_true_iff in Hall as [Hc _]. by split.
Qed.

Lemma digit_not_space c : is_digit c = true -> is_js_space c = false.
Proof.
  unfold is_digit, is_js_space. intros H.
  destruct (N.leb_spec 48 (Ascii.N_of_ascii c)), (N.leb_spec (Ascii.N_of_ascii c) 57);
    try discriminate.
  destruct (N.leb_spec 9 (Ascii.N_of_ascii c)), (N.leb_spec (Ascii.N_of_ascii c) 13),
    (N.eqb_spec (Ascii.N_of_ascii c) 32), (N.eqb_spec (Ascii.N_of_ascii c) 160); cbn; lia.
Qed.

Lemma parse_unsigned_N_to_dec n : parse_unsigned (N_to_dec n) = Some (Z.of_N n).
Proof.
  destruct (N_to_dec_cons n) as (c & r & Hcr & Hc).
  pose proof (N_to_dec_value n) as Hv. rewrite Hcr in Hv |- *.
  cbn [parse_unsigned]. by rewrite Hc, Hv.
Qed.

Lemma sign_split_digit c r : is_digit c = true -> sign_split (String c r) = (false, String c r).
Proof.
  intros Hc. cbn [sign_split].
  destruct (Ascii.eqb_spec c "-"); [subst; discriminate|].
  destruct (Ascii.eqb_spec c "+"); [subst; discriminate|]. done.
Qed.

Lemma trim_start_digit c r : is_digit c = true -> trim_start (String c r) = String c r.
Proof. intros Hc. cbn. by rewrite digit_not_space. Qed.

(** ** Decimal printing of multiples of ten *)

Lemma digits_of_fuel f f' n acc :
  (n < 10 ^ N.of_nat (S f))%N -> (n < 10 ^ N.of_nat (S f'))%N ->
  digits_of (S f) n acc = digits_of (S f') n acc.
Proof.
  revert f' n acc. induction f as [|f IH]; intros f' n acc Hf Hf'; cbn [digits_of].
  - cbn in Hf. by replace (n <? 10)%N with true by (symmetry; apply N.ltb_lt; lia).
  - destruct (N.ltb_spec n 10); [done|].
    destruct f' as [|f']; [cbn in Hf'; lia|].
    rewrite Nat2N.inj_succ, N.pow_succ_r' in Hf, Hf'.
    apply IH; apply N.Div0.div_lt_upper_bound; lia.
Qed.

Lemma N_to_dec_mul10 m : (0 < m)%N -> N_to_dec (10 * m) = N_to_dec m +:+ "0".
Proof.
  intros Hm. pose proof (N_to_dec_fuel (10 * m)) as Hf.
  unfold N_to_dec at 1. revert Hf. generalize (N.to_nat (N.size (10 * m))).
  intros [|g] Hf; [cbn in Hf; lia|].
  change (digits_of (S (S g)) (10 * m) "") with
    (if (10 * m <? 10)%N then String (digit_char (10 * m)) ""
     else digits_of (S g) ((10 * m) / 10) (String (digit_char ((10 * m) mod 10)) "")).
  - replace (10 * m <? 10)%N with false by (symmetry; apply N.ltb_ge; lia).
    replace ((10 * m) / 10)%N with m by (rewrite N.mul_comm, N.div_mul; lia).
    replace ((10 * m) mod 10)%N with 0%N by (rewrite N.mul_comm, N.Div0.mod_mul; lia).
    rewrite digits_of_acc. f_equal. apply digits_of_fuel; [|apply N_to_dec_fuel].
    rewrite Nat2N.inj_succ, N.pow_succ_r' in Hf. lia.
Qed.

Lemma N_to_dec_pow10 s t :
  (0 < s)%N -> N_to_dec (s * 10 ^ N.of_nat t) = N_to_dec s +:+ zeros t.
Proof.
  revert s. induction t as [|t IH]; intros s Hs.
  - cbn. rewrite N.mul_1_r. symmetry. apply string_app_nil_r.
  - rewrite Nat2N.inj_succ, N.pow_succ_r', N.mul_assoc, (N.mul_comm s 10), IH by lia.
    rewrite N_to_dec_mul10, string_app_assoc by lia. done.
Qed.

Lemma N_to_dec_pow10_Z s e :
  (0 < s)%Z -> (0 <= e)%Z ->
  N_to_dec (Z.to_N (s * 10 ^ e)) = N_to_dec (Z.to_N s) +:+ zeros (Z.to_nat e).
Proof.
  intros Hs He. rewrite <- N_to_dec_pow10 by lia. f_equal.
  rewrite Z2N.inj_mul, Z2N.inj_pow by lia. f_equal. f_equal. lia.
Qed.

(** ** Doubles below [2^53] *)

Lemma round_double_id z : (0 <= z < 2 ^ 53)%Z -> round_double z = Some z.
Proof.
  intros Hz. unfold round_double.
  replace (z <? 2 ^ 53)%Z with true by (symmetry; apply Z.ltb_lt; lia).
  replace (z <? 2 ^ 1024)%Z with true by (symmetry; apply Z.ltb_lt; lia). done.
Qed.

(** Rounding never brings a value of [2^53] or more below [2^53]. *)
Lemma round_double_small y x :
  (0 <= y)%Z -> round_double y = Some x -> (x < 2 ^ 53)%Z -> y = x.
Proof.
  unfold round_double. intros Hy Hr Hx.
  destruct (Z.ltb_spec y (2 ^ 53)).
  - destruct (y <? 2 ^ 1024)%Z; congruence.
  - destruct (_ <? 2 ^ 1024)%Z; [|discriminate]. injection Hr as <-. exfalso.
    assert (53 <= Z.log2 y)%Z by (rewrite <- (Z.log2_pow2 53) by lia; by apply Z.log2_le_mono).
    pose proof (Z.log2_spec y ltac:(lia)) as [Hl _].
    replace (2 ^ Z.log2 y)%Z with (2 ^ 52 * 2 ^ (Z.log2 y - 52))%Z in Hl
      by (rewrite <- Z.pow_add_r by lia; f_equal; lia).
    assert (2 ^ 52 <= y / 2 ^ (Z.log2 y - 52))%Z
      by (apply Z.div_le_lower_bound; [apply Z.pow_pos_nonneg|]; lia).
    assert (2 ^ 53 <= 2 ^ 52 * 2 ^ (Z.log2 y - 52))%Z.
    { rewrite <- Z.pow_add_r by lia. apply Z.pow_le_mono_r; lia. }
    assert (0 < 2 ^ (Z.log2 y - 52))%Z by (apply Z.pow_pos_nonneg; lia).
    case_match; nia.
Qed.

Lemma pow10_lt_bound a b x : (0 <= a)%Z -> (0 <= b)%Z -> (10 ^ a <= x < 10 ^ b)%Z -> (a < b)%Z.
Proof.
  intros Ha Hb Hx. destruct (Z.ltb_spec a b); [done|].
  pose proof (Z.pow_le_mono_r 10 b a ltac:(lia) ltac:(lia)). lia.
Qed.

(** ** The digit count and the shortest-digit search *)

Lemma dec_digits_go_spec x f d :
  (1 <= d)%Z -> (10 ^ (d - 1) <= x < 10 ^ (d + Z.of_nat f))%Z ->
  (1 <= dec_digits_go f x d /\ 10 ^ (dec_digits_go f x d - 1) <= x < 10 ^ dec_digits_go f x d)%Z.
Proof.
  revert d. induction f as [|f IH]; intros d Hd Hx; cbn [dec_digits_go].
  - rewrite Z.add_0_r in Hx. lia.
  - destruct (Z.ltb_spec x (10 ^ d)); [lia|].
    apply IH; [lia|]. replace (d + 1 - 1)%Z with d by lia.
    replace (d + 1 + Z.of_nat f)%Z with (d + Z.of_nat (S f))%Z by lia. lia.
Qed.

Lemma dec_digits_spec x :
  (1 <= x)%Z -> (1 <= dec_digits x /\ 10 ^ (dec_digits x - 1) <= x < 10 ^ dec_digits x)%Z.
Proof.
  intros Hx. apply dec_digits_go_spec; [lia|]. split; [cbn; lia|].
  pose proof (Z.log2_spec x ltac:(lia)) as [_ Hl].
  pose proof (Z.log2_nonneg x).
  assert (2 ^ Z.succ (Z.log2 x) <= 10 ^ (1 + Z.of_nat (Z.to_nat (Z.log2 x + 1))))%Z.
  { transitivity (10 ^ Z.succ (Z.log2 x))%Z; [apply Z.pow_le_mono_l; lia|]. apply Z.pow_le_mono_r; lia. }
  lia.
Qed.

Lemma fold_better_in x k cs c : In (fold_left (better x k) cs c) (c :: cs).
Proof.
  revert c. induction cs as [|c' cs IH]; intros c; cbn [fold_left]; [by left|].
  unfold better at 2. case_match.
  - right. apply IH.
  - destruct (IH c) as [<-|Hin]; [by left|by right; right].
Qed.

Lemma pick_in x k cs c : pick x k cs = Some c -> In c cs.
Proof. destruct cs; cbn; [done|]. intros [= <-]. apply fold_better_in. Qed.

Lemma candidates_in x k s n :
  In (s, n) (candidates x k) ->
  (10 ^ (k - 1) <= s < 10 ^ k)%Z /\ round_double (s * 10 ^ (n - k))%Z = Some x /\
  (n = dec_digits x \/ n = dec_digits x + 1)%Z.
Proof.
  unfold candidates. intros [Hin Hp]%filter_In. cbn in Hp.
  apply andb_true_iff in Hp as [[H1 H2]%andb_true_iff H3].
  apply Z.leb_le in H1. apply Z.ltb_lt in H2. apply bool_decide_eq_true in H3.
  repeat split; try lia; [done|]. cbn in Hin. intuition congruence.
Qed.

Lemma shortest_go_sound x f k s k' n :
  shortest_go x f k = Some (s, k', n) ->
  (k <= k' < k + Z.of_nat f)%Z /\ In (s, n) (candidates x k').
Proof.
  revert k. induction f as [|f IH]; intros k; cbn [shortest_go]; [done|].
  destruct (pick x k (candidates x k)) as [[s' n']|] eqn:Hp.
  - intros [= <- <- <-]. split; [lia|]. by apply (pick_in x k).
  - intros (? & ?)%IH. split; [lia|done].
Qed.

Lemma shortest_go_complete x f k :
  (1 <= x)%Z -> round_double x = Some x -> (k <= dec_digits x < k + Z.of_nat f)%Z ->
  shortest_go x f k <> None.
Proof.
  intros Hx Hd. revert k. induction f as [|f IH]; intros k Hk; cbn [shortest_go]; [lia|].
  destruct (pick x k (candidates x k)) as [[s n]|] eqn:Hp; [done|].
  apply IH. split; [|lia].
  destruct (Z.eqb_spec k (dec_digits x)) as [->|]; [|lia]. exfalso.
  pose proof (dec_digits_spec x Hx) as HD.
  assert (In (x, dec_digits x) (candidates x (dec_digits x))) as Hin.
  { apply filter_In. split; [cbn; rewrite Z.sub_diag, Z.pow_0_r, Z.div_1_r; by left|].
    cbn. rewrite Z.sub_diag, Z.pow_0_r, Z.mul_1_r, Hd. apply andb_true_iff; split; [apply andb_true_iff; split|];
      [apply Z.leb_le; lia|apply Z.ltb_lt; lia|by apply bool_decide_eq_true]. }
  destruct (candidates x (dec_digits x)); [done|discriminate].
Qed.

(** [Number::toString] prints a positive integer below [2^53] as its
    exact decimal. *)
Lemma pos_to_string_safe x : (1 <= x < 2 ^ 53)%Z -> pos_to_string x = N_to_dec (Z.to_N x).
Proof.
  intros Hx. pose proof (round_double_id x ltac:(lia)) as Hr.
  pose proof (dec_digits_spec x ltac:(lia)) as HD.
  unfold pos_to_string, shortest.
  destruct (shortest_go x (Z.to_nat (dec_digits x)) 1) as [[[s k] n]|] eqn:Hs;
    [|exfalso; revert Hs; apply shortest_go_complete; [lia|done|lia]].
  apply shortest_go_sound in Hs as [Hk (Hsk & Hsr & Hn)%candidates_in].
  assert (k <= n)%Z by lia.
  assert (0 < 10 ^ (n - k))%Z by (apply Z.pow_pos_nonneg; lia).
  apply round_double_small in Hsr as <-; [|nia|lia].
  assert (10 ^ (n - 1) <= s * 10 ^ (n - k) < 10 ^ 16)%Z.
  { split; [|lia]. replace (n - 1)%Z with ((k - 1) + (n - k))%Z by lia.
    rewrite Z.pow_add_r by lia. nia. }
  pose proof (pow10_lt_bound (n - 1) 16 (s * 10 ^ (n - k)) ltac:(lia) ltac:(lia) ltac:(lia)).
  replace (n <=? 21)%Z with true by (symmetry; apply Z.leb_le; lia).
  replace (k <=? n)%Z with true by (symmetry; apply Z.leb_le; lia).
  rewrite N_to_dec_pow10_Z by lia. done.
Qed.

(** ** Round trip of integers through template literals and [parseInt] *)

(** Below [2^53] in magnitude [`${n}`] is the exact decimal. *)
Lemma num_to_string_safe z : (Z.abs z < 2 ^ 53)%Z -> num_to_string (JNum z) = Z_to_dec z.
Proof.
  intros Hz. unfold num_to_string, Z_to_dec.
  destruct (Z.eqb_spec z 0) as [->|]; [done|].
  destruct (Z.ltb_spec z 0); rewrite pos_to_string_safe by lia; done.
Qed.

(** [parseInt(_, 10)] reads the exact decimal of an integer below
    [2^53] in magnitude back as that integer, negative ones included. *)
Lemma parseInt10_Z_to_dec z : (Z.abs z < 2 ^ 53)%Z -> parseInt10 (Some (Z_to_dec z)) = JNum z.
Proof.
  intros Hz. unfold parseInt10, Z_to_dec. cbn [default].
  destruct (Z.ltb_spec z 0).
  - cbn -[N_to_dec parse_unsigned round_double].
    replace (is_js_space "-"%char) with false by (vm_compute; reflexivity).
    cbn -[N_to_dec parse_unsigned round_double].
    rewrite parse_unsigned_N_to_dec, round_double_id by lia. cbn. f_equal. lia.
  - destruct (N_to_dec_cons (Z.to_N z)) as (c & r & Hcr & Hc).
    pose proof (parse_unsigned_N_to_dec (Z.to_N z)) as Hp.
    cbn -[N_to_dec trim_start sign_split parse_unsigned round_double].
    rewrite Hcr in Hp |- *. rewrite trim_start_digit, sign_split_digit by done.
    rewrite Hp, round_double_id by lia. cbn. f_equal. lia.
Qed.

(** What stripe-node hashes, [`${parseInt(t, 10)}`], is the decimal
    Stripe signed, for every timestamp below [2^53] in magnitude. *)
Theorem parseInt10_print_roundtrip z :
  (Z.abs z < 2 ^ 53)%Z -> num_to_string (parseInt10 (Some (Z_to_dec z))) = Z_to_dec z.
Proof. intros Hz. by rewrite parseInt10_Z_to_dec, num_to_string_safe. Qed.

(** ** [dotenv/config] never overrides a variable already set *)

Theorem dotenv_populate_union (env parsed : gmap string string) :
  dotenv_populate env parsed = env ∪ parsed.
Proof.
  unfold dotenv_populate.
  apply (map_fold_weak_ind (fun r m => r = env ∪ m)).
  - by rewrite map_union_empty.
  - intros i x m r Hm ->. case_decide as Hi.
    + apply map_eq. intros j. rewrite !lookup_union, lookup_insert.
      case_decide; subst; [|done].
      destruct Hi as [v ->]. by rewrite Hm.
    + apply insert_union_r. by apply eq_None_not_Some.
Qed.

(** ** Characters occurring in printed numbers *)

Lemma has_char_app c x y : has_char c (x +:+ y) = has_char c x || has_char c y.
Proof.
  induction x as [|c' x IH]; [done|].
  rewrite string_app_cons. cbn. rewrite IH. apply orb_assoc.
Qed.

Lemma has_char_all_digits c s :
  is_digit c = false -> all_digits s = true -> has_char c s = false.
Proof.
  intros Hc. induction s as [|c' s IH]; cbn; [done|].
  intros [Hc' Hs]%andb_true_iff. rewrite IH by done.
  destruct (Ascii.eqb_spec c' c); subst; [congruence|done].
Qed.

Lemma has_char_Z_to_dec c z :
  is_digit c = false -> c <> "-"%char -> has_char c (Z_to_dec z) = false.
Proof.
  intros Hd Hm. unfold Z_to_dec. destruct (z <? 0)%Z.
  - cbn [has_char]. destruct (Ascii.eqb_spec "-" c); [congruence|].
    cbn. apply has_char_all_digits; [done|apply N_to_dec_all].
  - apply has_char_all_digits; [done|apply N_to_dec_all].
Qed.

(** A [key=value] item whose parts hold no separator splits in two. *)
Lemma split_on_pair sep k v :
  has_char sep k = false -> has_char sep v = false -> split_on sep (k +:+ String sep v) = [k; v].
Proof. intros Hk Hv. by rewrite split_on_field, split_on_free. Qed.

Lemma join_with_cons sep x l : l <> [] -> join_with sep (x :: l) = x +:+ String sep (join_with sep l).
Proof. destruct l; done. Qed.

Lemma join_with_app sep l1 l2 :
  l1 <> [] -> l2 <> [] -> join_with sep (l1 ++ l2) = join_with sep l1 +:+ String sep (join_with sep l2).
Proof.
  intros H1 H2. induction l1 as [|x [|y l1] IH]; [done| |].
  - cbn [app]. rewrite join_with_cons by done. reflexivity.
  - change ((x :: y :: l1) ++ l2) with (x :: ((y :: l1) ++ l2)).
    rewrite join_with_cons by (destruct l1; done).
    rewrite IH by done. rewrite (join_with_cons sep x (y :: l1)) by done.
    by rewrite string_app_assoc.
Qed.
