(* ===== verification/Regex.v ===== *)
(** * JavaScript regular expressions, the fragment dotenv uses

    The [LINE] expression of dotenv's parser (see [Dotenv]) uses
    character classes, [^] and [$] in multiline mode, sequence,
    alternation, the quantifiers [*], [+] and [?] greedy and lazy
    ([*?], [+?]), and capturing groups.  This file gives them:

    - [re], the syntax, with [RClass p] for a class given by its
      predicate on characters;
    - [mt], the backtracking matcher of ECMAScript (section 22.2.2 of
      ECMA-262) in continuation-passing style: alternatives are tried
      left to right, a greedy quantifier tries one more iteration before
      stopping and a lazy one the other way round, and an iteration that
      matches the empty string fails, as RepeatMatcher prescribes; the
      first success is the match;
    - [matches], the set of all matches of an expression as an
      inductive relation, and the two facts that relate them:
      [mt_sound] (the matcher's answer is a match) and [mt_complete]
      (when some match lets the continuation succeed, the matcher
      succeeds).

    Characters are the bytes of the subject ([ascii]); [\s] is its
    ASCII part (tab, line feed, vertical tab, form feed, carriage
    return, space).  A quantified group keeps its capture across
    iterations; ECMAScript resets it, which makes no difference for a
    group quantified once from a state where it is unset, the only
    quantified group of [LINE]. *)

From S2P Require Import Prelude.
From stdpp Require Import list.

(** ** Syntax *)

Inductive re : Type :=
| RClass (p : Ascii.ascii -> bool)
| REmpty
| RBol                          (* [^] with the [m] flag *)
| REol                          (* [$] with the [m] flag *)
| RSeq (r1 r2 : re)
| RAlt (r1 r2 : re)
| ROpt (greedy : bool) (r : re)  (* [r?], [r??] *)
| RStar (greedy : bool) (r : re) (* [r*], [r*?] *)
| RGroup (n : nat) (r : re).

Definition RPlus (greedy : bool) (r : re) : re := RSeq r (RStar greedy r).

Definition RChar (c : Ascii.ascii) : re := RClass (fun d => Ascii.eqb d c).

Fixpoint RLit (l : list Ascii.ascii) : re :=
  match l with
  | [] => REmpty
  | c :: l => RSeq (RChar c) (RLit l)
  end.

Definition code (c : Ascii.ascii) : N := Ascii.N_of_ascii c.

(** [\s] on ASCII *)
Definition is_space (c : Ascii.ascii) : bool :=
  ((9 <=? code c)%N && (code c <=? 13)%N) || (code c =? 32)%N.

(** [\w] *)
Definition is_word (c : Ascii.ascii) : bool :=
  ((48 <=? code c)%N && (code c <=? 57)%N) || ((65 <=? code c)%N && (code c <=? 90)%N) ||
  ((97 <=? code c)%N && (code c <=? 122)%N) || (code c =? 95)%N.

(** The line terminators of ASCII: line feed and carriage return. *)
Definition is_line_term (c : Ascii.ascii) : bool := (code c =? 10)%N || (code c =? 13)%N.

(** ** Captures *)

(** Group [n] captured the characters from [i] to [j]. *)
Definition caps : Type := nat -> option (nat * nat).

Definition no_caps : caps := fun _ => None.

Definition set_cap (c : caps) (n : nat) (v : nat * nat) : caps :=
  fun m => if Nat.eqb m n then Some v else c m.

Section Subject.
Context (s : list Ascii.ascii).

Definition at_bol (i : nat) : bool :=
  match i with
  | 0 => true
  | S i' => match s !! i' with Some c => is_line_term c | None => false end
  end.

Definition at_eol (i : nat) : bool :=
  match s !! i with Some c => is_line_term c | None => true end.

(** ** The backtracking matcher *)

Section Matcher.
Context {A : Type}.

(** The iterations of a quantifier [r*] whose body matcher is [m];
    [n] bounds the number of iterations, each of which moves forward. *)
Fixpoint star_loop (m : nat -> caps -> (nat -> caps -> option A) -> option A) (greedy : bool)
    (k : nat -> caps -> option A) (n i : nat) (c : caps) : option A :=
  match n with
  | 0 => None
  | S n' =>
      if greedy then
        match m i c (fun j c1 => if i <? j then star_loop m greedy k n' j c1 else None) with
        | Some x => Some x
        | None => k i c
        end
      else
        match k i c with
        | Some x => Some x
        | None => m i c (fun j c1 => if i <? j then star_loop m greedy k n' j c1 else None)
        end
  end.

Fixpoint mt (r : re) (i : nat) (c : caps) (k : nat -> caps -> option A) : option A :=
  match r with
  | RClass p => match s !! i with Some ch => if p ch then k (S i) c else None | None => None end
  | REmpty => k i c
  | RBol => if at_bol i then k i c else None
  | REol => if at_eol i then k i c else None
  | RSeq r1 r2 => mt r1 i c (fun j c1 => mt r2 j c1 k)
  | RAlt r1 r2 => match mt r1 i c k with Some x => Some x | None => mt r2 i c k end
  | ROpt greedy r1 =>
      if greedy then
        match mt r1 i c (fun j c1 => if i <? j then k j c1 else None) with
        | Some x => Some x
        | None => k i c
        end
      else
        match k i c with
        | Some x => Some x
        | None => mt r1 i c (fun j c1 => if i <? j then k j c1 else None)
        end
  | RStar greedy r1 => star_loop (mt r1) greedy k (S (length s - i)) i c
  | RGroup n r1 => mt r1 i c (fun j c1 => k j (set_cap c1 n (i, j)))
  end.
End Matcher.

(** [r.exec(s)] from [lastIndex = i]: the first position from [i] on
    where [r] matches, with the match's end and captures. *)
Fixpoint search (r : re) (fuel i : nat) : option (nat * nat * caps) :=
  match fuel with
  | 0 => None
  | S fuel' =>
      match mt r i no_caps (fun j c => Some (j, c)) with
      | Some (j, c) => Some (i, j, c)
      | None => search r fuel' (S i)
      end
  end.

Definition exec (r : re) (i : nat) : option (nat * nat * caps) := search r (S (length s - i)) i.

(** ** All the matches *)

(** [matches r i c j c']: [r] matches the characters from [i] to [j],
    turning the captures [c] into [c']. *)
Inductive matches : re -> nat -> caps -> nat -> caps -> Prop :=
| m_class p i c ch : s !! i = Some ch -> p ch = true -> matches (RClass p) i c (S i) c
| m_empty i c : matches REmpty i c i c
| m_bol i c : at_bol i = true -> matches RBol i c i c
| m_eol i c : at_eol i = true -> matches REol i c i c
| m_seq r1 r2 i c j c1 k c2 :
    matches r1 i c j c1 -> matches r2 j c1 k c2 -> matches (RSeq r1 r2) i c k c2
| m_alt_l r1 r2 i c j c' : matches r1 i c j c' -> matches (RAlt r1 r2) i c j c'
| m_alt_r r1 r2 i c j c' : matches r2 i c j c' -> matches (RAlt r1 r2) i c j c'
| m_opt_skip g r i c : matches (ROpt g r) i c i c
| m_opt_take g r i c j c' : i < j -> matches r i c j c' -> matches (ROpt g r) i c j c'
| m_star_nil g r i c : matches (RStar g r) i c i c
| m_star_cons g r i c j c1 k c2 :
    i < j -> matches r i c j c1 -> matches (RStar g r) j c1 k c2 -> matches (RStar g r) i c k c2
| m_group n r i c j c' : matches r i c j c' -> matches (RGroup n r) i c j (set_cap c' n (i, j)).

Lemma matches_le r i c j c' : matches r i c j c' -> i <= j /\ (i < j -> j <= length s).
Proof.
  induction 1; try lia; try done.
  - apply lookup_lt_Some in H. lia.
Qed.

(** ** Facts on matches *)

Fixpoint no_group (r : re) : bool :=
  match r with
  | RGroup _ _ => false
  | RSeq r1 r2 | RAlt r1 r2 => no_group r1 && no_group r2
  | ROpt _ r1 | RStar _ r1 => no_group r1
  | _ => true
  end.

Lemma matches_no_group r i c j c' : no_group r = true -> matches r i c j c' -> c' = c.
Proof.
  intros Hg H. induction H; cbn in Hg; try apply andb_prop in Hg as [? ?]; naive_solver.
Qed.

(** Whether [r] holds a group numbered [n]. *)
Fixpoint sets_group (n : nat) (r : re) : bool :=
  match r with
  | RGroup m r1 => Nat.eqb m n || sets_group n r1
  | RSeq r1 r2 | RAlt r1 r2 => sets_group n r1 || sets_group n r2
  | ROpt _ r1 | RStar _ r1 => sets_group n r1
  | _ => false
  end.

(** A match leaves the capture of a group the expression does not hold. *)
Lemma matches_keeps_cap n r i c j c' : sets_group n r = false -> matches r i c j c' -> c' n = c n.
Proof.
  intros Hg H. induction H; cbn in Hg; rewrite ?orb_false_iff in Hg; destruct_and?; try naive_solver.
  all: try (etransitivity; [apply IHmatches2|apply IHmatches1]; done).
  unfold set_cap. rewrite Nat.eqb_sym. destruct (Nat.eqb _ _); naive_solver.
Qed.

Lemma matches_seq_inv r1 r2 i c k c2 :
  matches (RSeq r1 r2) i c k c2 -> exists j c1, matches r1 i c j c1 /\ matches r2 j c1 k c2.
Proof. inversion 1; eauto. Qed.

Lemma matches_alt_inv r1 r2 i c j c' :
  matches (RAlt r1 r2) i c j c' -> matches r1 i c j c' \/ matches r2 i c j c'.
Proof. inversion 1; eauto. Qed.

Lemma matches_opt_inv g r i c j c' :
  matches (ROpt g r) i c j c' -> (j = i /\ c' = c) \/ (i < j /\ matches r i c j c').
Proof. inversion 1; eauto. Qed.

Lemma matches_group_inv n r i c j c' :
  matches (RGroup n r) i c j c' -> exists c1, matches r i c j c1 /\ c' = set_cap c1 n (i, j).
Proof. inversion 1; eauto. Qed.

Lemma matches_class_inv p i c j c' :
  matches (RClass p) i c j c' -> j = S i /\ c' = c /\ exists ch, s !! i = Some ch /\ p ch = true.
Proof. inversion 1; subst; eauto. Qed.

(** A run of a class: every character in it is of the class. *)
Lemma matches_star_class g p i c j c' :
  matches (RStar g (RClass p)) i c j c' ->
  c' = c /\ i <= j /\ forall t, i <= t < j -> exists ch, s !! t = Some ch /\ p ch = true.
Proof.
  remember (RStar g (RClass p)) as r eqn:Er. induction 1; inversion Er; subst; [split; [done|split; [lia|lia]]|].
  apply matches_class_inv in H0 as (-> & -> & ch & Hch & Hp).
  destruct (IHmatches2 eq_refl) as (-> & Hle & Hall). split; [done|]. split; [lia|].
  intros t Ht. destruct (decide (t = i)) as [->|]; [eauto|]. apply Hall. lia.
Qed.

(** A run of a class stops before a character that is not of it. *)
Lemma matches_star_class_stop g p i c j c' :
  (forall ch, s !! i = Some ch -> p ch = false) ->
  matches (RStar g (RClass p)) i c j c' -> j = i /\ c' = c.
Proof.
  intros Hn (-> & Hle & Hall)%matches_star_class. split; [|done].
  destruct (decide (i < j)) as [Hlt|]; [|lia].
  destruct (Hall i ltac:(lia)) as (ch & Hch & Hp). by rewrite (Hn ch Hch) in Hp.
Qed.

Lemma matches_plus_class g p i c j c' :
  matches (RPlus g (RClass p)) i c j c' ->
  c' = c /\ i < j /\ forall t, i <= t < j -> exists ch, s !! t = Some ch /\ p ch = true.
Proof.
  intros (j1 & c1 & H1 & H2)%matches_seq_inv.
  apply matches_class_inv in H1 as (-> & -> & ch & Hch & Hp).
  apply matches_star_class in H2 as (-> & Hle & Hall). split; [done|]. split; [lia|].
  intros t Ht. destruct (decide (t = i)) as [->|]; [eauto|]. apply Hall. lia.
Qed.

Lemma matches_char_inv ch0 i c j c' :
  matches (RChar ch0) i c j c' -> j = S i /\ c' = c /\ s !! i = Some ch0.
Proof.
  intros (-> & -> & ch & Hch & Hp)%matches_class_inv. apply Ascii.eqb_eq in Hp as ->. done.
Qed.

Lemma matches_lit l i c j c' :
  matches (RLit l) i c j c' -> j = i + length l /\ c' = c /\ forall t, t < length l -> s !! (i + t) = l !! t.
Proof.
  revert i c. induction l as [|ch l IH]; intros i c; cbn.
  - inversion 1; subst. split; [lia|]. split; [done|]. intros; lia.
  - intros (j1 & c1 & (-> & -> & Hch)%matches_char_inv & H2)%matches_seq_inv.
    destruct (IH _ _ H2) as (-> & -> & Hall). split; [lia|]. split; [done|].
    intros [|t] Ht; [by rewrite Nat.add_0_r|]. change ((ch :: l) !! S t) with (l !! t).
    rewrite <- Hall by (cbn in Ht; lia). f_equal. lia.
Qed.

(** Building a run of a class. *)
Lemma star_class_intro g p i j c :
  i <= j -> (forall t, i <= t < j -> exists ch, s !! t = Some ch /\ p ch = true) ->
  matches (RStar g (RClass p)) i c j c.
Proof.
  intros Hle. remember (j - i) as n eqn:En. revert i Hle En. induction n as [|n IH]; intros i Hle En Hall.
  - replace j with i by lia. constructor.
  - destruct (Hall i ltac:(lia)) as (ch & Hch & Hp).
    eapply (m_star_cons _ _ _ _ (S i)); [lia|by econstructor|]. apply IH; [lia|lia|]. intros t Ht. apply Hall. lia.
Qed.

Lemma plus_class_intro g p i j c :
  i < j -> (forall t, i <= t < j -> exists ch, s !! t = Some ch /\ p ch = true) ->
  matches (RPlus g (RClass p)) i c j c.
Proof.
  intros Hlt Hall. destruct (Hall i ltac:(lia)) as (ch & Hch & Hp).
  econstructor; [by econstructor|]. apply star_class_intro; [lia|]. intros t Ht. apply Hall. lia.
Qed.

(** ** The matcher against the matches *)

Section Sound.
Context {A : Type}.

Lemma star_loop_sound g r (m : nat -> caps -> (nat -> caps -> option A) -> option A) k n :
  (forall i c k x, m i c k = Some x -> exists j c', matches r i c j c' /\ k j c' = Some x) ->
  forall i c x, star_loop m g k n i c = Some x ->
  exists j c', matches (RStar g r) i c j c' /\ k j c' = Some x.
Proof.
  intros Hm. induction n as [|n IH]; intros i c x; cbn; [discriminate|].
  assert (Hit : forall x, m i c (fun j c1 => if i <? j then star_loop m g k n j c1 else None) = Some x ->
                exists j c', matches (RStar g r) i c j c' /\ k j c' = Some x).
  { intros y Hy. destruct (Hm _ _ _ _ Hy) as (j & c1 & Hr & Hk).
    destruct (Nat.ltb_spec i j); [|discriminate].
    destruct (IH _ _ _ Hk) as (j' & c' & Hs & Hk'). exists j', c'. split; [|done].
    by eapply m_star_cons. }
  destruct g.
  - destruct (m i c _) eqn:E; [intros [= <-]; by apply Hit|]. intros Hk. exists i, c. split; [constructor|done].
  - destruct (k i c) eqn:E; [intros [= <-]; exists i, c; split; [constructor|done]|]. apply Hit.
Qed.

(** The matcher's answer comes from a match of [r] that the
    continuation accepts. *)
Theorem mt_sound r : forall i c (k : nat -> caps -> option A) x,
  mt r i c k = Some x -> exists j c', matches r i c j c' /\ k j c' = Some x.
Proof.
  induction r as [p| | | |r1 IH1 r2 IH2|r1 IH1 r2 IH2|g r IH|g r IH|n r IH]; intros i c k x; cbn -[star_loop].
  - destruct (s !! i) as [ch|] eqn:E; [|discriminate].
    destruct (p ch) eqn:Hp; [|discriminate]. intros Hk. eexists _, _. split; [by econstructor|done].
  - intros Hk. eexists _, _. split; [constructor|done].
  - destruct (at_bol i) eqn:E; [|discriminate]. intros Hk. eexists _, _. split; [by constructor|done].
  - destruct (at_eol i) eqn:E; [|discriminate]. intros Hk. eexists _, _. split; [by constructor|done].
  - intros (j & c1 & H1 & H2)%IH1. destruct (IH2 _ _ _ _ H2) as (j' & c' & H3 & Hk).
    exists j', c'. split; [by econstructor|done].
  - destruct (mt r1 i c k) eqn:E.
    + intros [= <-]. destruct (IH1 _ _ _ _ E) as (j & c' & H & Hk). exists j, c'. split; [by constructor|done].
    + intros (j & c' & H & Hk)%IH2. exists j, c'. split; [by apply m_alt_r|done].
  - assert (Hit : forall y, mt r i c (fun j c1 => if i <? j then k j c1 else None) = Some y ->
                  exists j c', matches (ROpt g r) i c j c' /\ k j c' = Some y).
    { intros y (j & c' & H & Hk)%IH. destruct (Nat.ltb_spec i j); [|discriminate].
      exists j, c'. split; [by constructor|done]. }
    destruct g.
    + destruct (mt r i c _) eqn:E; [intros [= <-]; by apply Hit|].
      intros Hk. exists i, c. split; [constructor|done].
    + destruct (k i c) eqn:E; [intros [= <-]; exists i, c; split; [constructor|done]|]. apply Hit.
  - apply star_loop_sound. apply IH.
  - intros (j & c' & H & Hk)%IH. eexists _, _. split; [by constructor|exact Hk].
Qed.
End Sound.

Section Complete.
Context {A : Type}.

(** What completeness asks of a match: whatever continuation accepts
    its end, the matcher succeeds; and for a match of [r*], so does
    every run of the loop with enough iterations left. *)
Definition succeeds (r : re) (i : nat) (c : caps) (j : nat) (c' : caps) : Prop :=
  forall (k : nat -> caps -> option A) x, k j c' = Some x ->
  (exists y, mt r i c k = Some y) /\
  (forall g r1 n, r = RStar g r1 -> length s - i < n -> exists y, star_loop (mt r1) g k n i c = Some y).

Lemma succeeds_star g r i c j c' :
  (forall (k : nat -> caps -> option A) x n, k j c' = Some x -> length s - i < n ->
     exists y, star_loop (mt r) g k n i c = Some y) ->
  succeeds (RStar g r) i c j c'.
Proof.
  intros H k x Hk. split; [cbn -[star_loop]; eapply H; [exact Hk|lia]|].
  intros g' r1 n [= <- <-] Hn. eauto.
Qed.

Lemma mt_complete_aux r i c j c' : matches r i c j c' -> succeeds r i c j c'.
Proof.
  induction 1 as [p i c ch Hs Hp|i c|i c Hb|i c He|r1 r2 i c j c1 k' c2 _ IH1 _ IH2
                 |r1 r2 i c j c' _ IH|r1 r2 i c j c' _ IH|g r i c|g r i c j c' Hij _ IH
                 |g r i c|g r i c j c1 k' c2 Hij Hr IH1 _ IH2|n r i c j c' _ IH];
    try (intros k x Hk; split; [|by intros ??? [=]]).
  - cbn -[Nat.ltb star_loop]. rewrite Hs, Hp. eauto.
  - cbn -[Nat.ltb star_loop]. eauto.
  - cbn -[Nat.ltb star_loop]. rewrite Hb. eauto.
  - cbn -[Nat.ltb star_loop]. rewrite He. eauto.
  - cbn -[Nat.ltb star_loop]. destruct (IH2 k x Hk) as [[y Hy] _]. apply (IH1 _ _ Hy).
  - cbn -[Nat.ltb star_loop]. destruct (IH k x Hk) as [[y ->] _]. eauto.
  - cbn -[Nat.ltb star_loop]. destruct (mt r1 i c k); [eauto|]. apply (IH k x Hk).
  - cbn -[Nat.ltb star_loop]. destruct g; [case_match; eauto|rewrite Hk; eauto].
  - cbn -[Nat.ltb star_loop]. assert (Hit : exists y, mt r i c (fun j0 c0 => if i <? j0 then k j0 c0 else None) = Some y).
    { apply (IH _ x). by rewrite (proj2 (Nat.ltb_lt _ _) Hij). }
    destruct Hit as [y Hy]. destruct g; [rewrite Hy; eauto|destruct (k i c); eauto].
  - apply succeeds_star. intros k x n Hk Hn. destruct n as [|n]; [lia|]. cbn [star_loop].
    destruct g; [case_match; eauto|rewrite Hk; eauto].
  - apply succeeds_star. intros k x n Hk Hn. destruct n as [|n]; [lia|].
    destruct (matches_le _ _ _ _ _ Hr) as [_ Hle]. specialize (Hle Hij).
    destruct (IH2 k x Hk) as [_ Htail].
    destruct (Htail g r n eq_refl) as [y Hy]; [lia|].
    assert (Hit : exists y, mt r i c (fun j0 c0 => if i <? j0 then star_loop (mt r) g k n j0 c0 else None) = Some y).
    { apply (IH1 _ y). by rewrite (proj2 (Nat.ltb_lt _ _) Hij). }
    destruct Hit as [z Hz]. cbn [star_loop]. destruct g; [rewrite Hz; eauto|destruct (k i c); eauto].
  - cbn -[Nat.ltb star_loop]. apply (IH _ x Hk).
Qed.

(** If some match of [r] ends where the continuation succeeds, the
    matcher succeeds (with the first such match in its order). *)
Theorem mt_complete r i c j c' (k : nat -> caps -> option A) x :
  matches r i c j c' -> k j c' = Some x -> exists y, mt r i c k = Some y.
Proof. intros H Hk. exact (proj1 (mt_complete_aux _ _ _ _ _ H k x Hk)). Qed.
End Complete.

(** ** [exec] *)

Definition first_match (r : re) (i : nat) : option (nat * caps) := mt r i no_caps (fun j c => Some (j, c)).

Lemma search_at r fuel i p j c :
  i <= p -> p - i < fuel -> (forall t, i <= t < p -> first_match r t = None) ->
  first_match r p = Some (j, c) -> search r fuel i = Some (p, j, c).
Proof.
  revert i. induction fuel as [|fuel IH]; intros i Hle Hf Hnone Hp; [lia|]. cbn.
  destruct (decide (i = p)) as [->|Hne].
  - unfold first_match in Hp. by rewrite Hp.
  - pose proof (Hnone i ltac:(lia)) as Hi. unfold first_match in Hi. rewrite Hi.
    apply IH; [lia|lia| |done]. intros t Ht. apply Hnone. lia.
Qed.

Lemma search_none r fuel i : (forall t, i <= t -> first_match r t = None) -> search r fuel i = None.
Proof.
  revert i. induction fuel as [|fuel IH]; intros i Hnone; [done|]. cbn.
  pose proof (Hnone i ltac:(lia)) as Hi. unfold first_match in Hi. rewrite Hi.
  apply IH. intros t Ht. apply Hnone. lia.
Qed.

Lemma search_sound r fuel i p j c : search r fuel i = Some (p, j, c) -> i <= p /\ first_match r p = Some (j, c).
Proof.
  revert i. induction fuel as [|fuel IH]; intros i; [done|]. cbn. unfold first_match.
  destruct (mt r i no_caps _) as [[j' c']|] eqn:Hm; [intros [= -> -> ->]; auto|].
  intros (? & ?)%IH. split; [lia|done].
Qed.

(** The first match is a match. *)
Lemma first_match_sound r i j c : first_match r i = Some (j, c) -> matches r i no_caps j c.
Proof. intros (j' & c' & H & [= -> ->])%mt_sound. done. Qed.

Lemma first_match_complete r i j c : matches r i no_caps j c -> exists x, first_match r i = Some x.
Proof. intros H. by eapply mt_complete. Qed.
End Subject.
