(* ===== verification/Dotenv.v ===== *)
(** * dotenv: the parser of [.env] files

    [import "dotenv/config"] (index.ts 3) reads [.env], parses it with
    dotenv's [parse] and merges the result into [process.env]
    ([JsBuiltins.dotenv_populate]).  [parse] first turns every CR LF and
    lone CR into LF, then runs [LINE.exec] again and again from its
    [lastIndex]; for each match it takes group 1 as the key and group 2
    (or the empty string) as the value, trims it, removes a quote that
    opens and closes it, expands the escapes [\n] and [\r] when that
    quote was a double quote, and sets [obj[key] = value].  [LINE]
    (with the flags [m] and [g]) is, piece by piece:
    - the start of a line, blanks, an optional [export] and blanks;
    - group 1: one or more of [\w], [.] and [-];
    - blanks, [=] and lazily blanks; or [:] and lazily one or more blanks;
    - optionally group 2: a value in single quotes, double quotes or
      backquotes (a backslash may escape the quote; the value may span
      lines), or else one or more characters other than [#], CR and LF;
    - blanks, an optional comment ([#] to the end of the line), and the
      end of a line.

    [LINE] is written in the syntax of [Regex] and run by its matcher;
    the loop is [parse_loop], the whole parser [dotenv_parse], and
    [dotenv_config] is [config()]: parse the file when there is one and
    merge.  The file is read as bytes; the regular expressions see its
    ASCII characters as JavaScript does.

    The theorems: a line [KEY=VALUE] (key of [[\w.-]], value of
    printable characters not opened by a quote, the next line starting
    with a key) has exactly one match, to its end, with the key and the
    value as its groups ([line_inv], [line_step]); no match starts
    inside a line ([LINE_start]); so a file of such lines parses back to
    its entries, the last winning ([dotenv_parse_file], by induction on
    the lines in [parse_loop_serialize]), also when its lines end in
    CR LF ([dotenv_parse_file_crlf]); and on any text every key the
    loop adds is a nonempty string of [[\w.-]] ([parse_loop_keys]). *)

From S2P Require Import Prelude JsBuiltins Regex.
From stdpp Require Import gmap list.

Definition BSL : Ascii.ascii := Ascii.ascii_of_N 92.
Definition DQ : Ascii.ascii := Ascii.ascii_of_N 34.
Definition SQ : Ascii.ascii := Ascii.ascii_of_N 39.
Definition BQ : Ascii.ascii := Ascii.ascii_of_N 96.
Definition LF : Ascii.ascii := Ascii.ascii_of_N 10.
Definition CR : Ascii.ascii := Ascii.ascii_of_N 13.
Definition EQ : Ascii.ascii := Ascii.ascii_of_N 61.
Definition COLON : Ascii.ascii := Ascii.ascii_of_N 58.
Definition HASH : Ascii.ascii := Ascii.ascii_of_N 35.

(** ** The expression [LINE] *)

Definition sp : re := RClass is_space.

(** [[\w.-]] *)
Definition key_char (c : Ascii.ascii) : bool := is_word c || Ascii.eqb c "." || Ascii.eqb c "-".

(** Blanks, then a quote [q], characters other than [q] or a
    backslash and [q], and [q]. *)
Definition quoted (q : Ascii.ascii) : re :=
  RSeq (RStar true sp)
    (RSeq (RChar q)
      (RSeq (RStar true (RAlt (RSeq (RChar BSL) (RChar q)) (RClass (fun c => negb (Ascii.eqb c q)))))
        (RChar q))).

(** [[^#\r\n]+] *)
Definition unquoted : re :=
  RPlus true (RClass (fun c => negb (Ascii.eqb c HASH) && negb (is_line_term c))).

Definition key_re : re := RGroup 1 (RPlus true (RClass key_char)).

(** Blanks, [=] and lazily blanks; or [:] and lazily one or more blanks. *)
Definition sep_re : re :=
  RAlt (RSeq (RStar true sp) (RSeq (RChar EQ) (RStar false sp)))
       (RSeq (RChar COLON) (RPlus false sp)).

Definition value_re : re :=
  ROpt true (RGroup 2 (RAlt (quoted SQ) (RAlt (quoted DQ) (RAlt (quoted BQ) unquoted)))).

(** An optional comment: [#] and the rest of the line. *)
Definition comment_re : re :=
  ROpt true (RSeq (RChar HASH) (RStar true (RClass (fun c => negb (is_line_term c))))).

Definition export_re : re := ROpt true (RSeq (RLit (String.list_ascii_of_string "export")) (RPlus true sp)).

(** Blanks, an optional comment and the end of the line. *)
Definition tail_re : re := RSeq (RStar true sp) (RSeq comment_re (RAlt REol REol)).

Definition LINE : re :=
  RSeq (RAlt RBol RBol) (RSeq (RStar true sp) (RSeq export_re (RSeq key_re (RSeq sep_re (RSeq value_re tail_re))))).

(** ** The loop *)

(** [lines.replace(/\r\n?/mg, '\n')] *)
Fixpoint normalize_newlines (l : list Ascii.ascii) : list Ascii.ascii :=
  match l with
  | c :: ((d :: l') as rest) =>
      if Ascii.eqb c CR then
        if Ascii.eqb d LF then LF :: normalize_newlines l' else LF :: normalize_newlines rest
      else c :: normalize_newlines rest
  | [c] => if Ascii.eqb c CR then [LF] else [c]
  | [] => []
  end.

Fixpoint drop_spaces (l : list Ascii.ascii) : list Ascii.ascii :=
  match l with
  | c :: l' => if is_space c then drop_spaces l' else l
  | [] => []
  end.

(** [String.prototype.trim] on ASCII *)
Definition trim (l : list Ascii.ascii) : list Ascii.ascii :=
  reverse (drop_spaces (reverse (drop_spaces l))).

Definition is_quote (c : Ascii.ascii) : bool := Ascii.eqb c SQ || Ascii.eqb c DQ || Ascii.eqb c BQ.

(** The replacement of a quote, any characters and the same quote
    making up the whole value by the characters in between, on the
    values [LINE] captures: a value that a quote opens and the same
    quote closes loses both quotes.  (A value [LINE] captures spans several
    lines only when a quote opens it and closes it, so the match at its
    start is the one that applies.) *)
Definition strip_quotes (l : list Ascii.ascii) : list Ascii.ascii :=
  match l with
  | q :: rest =>
      if is_quote q then
        match last rest with
        | Some q' => if Ascii.eqb q' q then removelast rest else l
        | None => l
        end
      else l
  | [] => []
  end.

(** [value.replace(/\\n/g, '\n')], then the same for [\r]. *)
Fixpoint unescape (e c : Ascii.ascii) (l : list Ascii.ascii) : list Ascii.ascii :=
  match l with
  | b :: ((d :: l') as rest) => if Ascii.eqb b BSL && Ascii.eqb d e then c :: unescape e c l' else b :: unescape e c rest
  | l => l
  end.

Definition substr (s : list Ascii.ascii) (ij : nat * nat) : list Ascii.ascii :=
  take (ij.2 - ij.1) (drop ij.1 s).

(** The value of a match: group 2 trimmed, unquoted, and in double
    quotes with [\n] and [\r] expanded. *)
Definition match_value (s : list Ascii.ascii) (c : caps) : list Ascii.ascii :=
  let v := trim (default [] (substr s <$> c 2)) in
  let v' := strip_quotes v in
  match head v with
  | Some q => if Ascii.eqb q DQ then unescape "r" CR (unescape "n" LF v') else v'
  | None => v'
  end.

Definition match_key (s : list Ascii.ascii) (c : caps) : list Ascii.ascii := default [] (substr s <$> c 1).

(** [while ((match = LINE.exec(lines)) != null) obj[key] = value]:
    [last] is [LINE.lastIndex]; each match ends after it. *)
Fixpoint parse_loop (s : list Ascii.ascii) (fuel last : nat) (obj : gmap string string)
  : gmap string string :=
  match fuel with
  | 0 => obj
  | S fuel' =>
      match exec s LINE last with
      | Some (_, j, c) =>
          parse_loop s fuel' j
            (<[String.string_of_list_ascii (match_key s c) := String.string_of_list_ascii (match_value s c)]> obj)
      | None => obj
      end
  end.

(** dotenv's [parse(src)] *)
Definition dotenv_parse (src : string) : gmap string string :=
  let s := normalize_newlines (String.list_ascii_of_string src) in
  parse_loop s (S (length s)) 0 ∅.

(** dotenv's [config()]: [.env] parsed when there is one (a missing
    file is reported in the result, not thrown), then merged into
    [process.env] without overriding. *)
Definition dotenv_config (env : gmap string string) (dotenv_file : option string) : gmap string string :=
  match dotenv_file with
  | Some src => dotenv_populate env (dotenv_parse src)
  | None => env
  end.

Definition sample_env : string :=
  String.string_of_list_ascii
    (String.list_ascii_of_string "# keys" ++ [LF] ++
     String.list_ascii_of_string "STRIPE_SECRET_KEY=sk_test_1 # test mode" ++ [LF] ++
     String.list_ascii_of_string "export STRIPE_PUBLISHABLE_KEY = 'pk_test_1'" ++ [CR; LF] ++
     String.list_ascii_of_string "STRIPE_WEBHOOK_SECRET: " ++ [DQ] ++ String.list_ascii_of_string "whsec_a" ++
       [BSL] ++ String.list_ascii_of_string "nb" ++ [DQ] ++ [LF] ++
     String.list_ascii_of_string "EMPTY=" ++ [LF] ++
     String.list_ascii_of_string "not a line" ++ [LF] ++
     String.list_ascii_of_string "STRIPE_SECRET_KEY=sk_live_2").

Example dotenv_parse_sample :
  dotenv_parse sample_env =
  <["EMPTY" := ""]> (<["STRIPE_WEBHOOK_SECRET" := String.string_of_list_ascii
       (String.list_ascii_of_string "whsec_a" ++ [LF] ++ String.list_ascii_of_string "b")]>
    (<["STRIPE_PUBLISHABLE_KEY" := "pk_test_1"]> (<["STRIPE_SECRET_KEY" := "sk_live_2"]> ∅))).
Proof. vm_compute. reflexivity. Qed.

(** ** Well-formed files *)

(** A value that round-trips: printable ASCII without blank or [#]. *)
Definition value_char (c : Ascii.ascii) : bool :=
  (33 <=? code c)%N && (code c <=? 126)%N && negb (Ascii.eqb c HASH).

(** An entry [KEY=VALUE] that [parse] reads back: a key of [[\w.-]], a
    value of [value_char]s not opened by a quote. *)
Definition entry_ok (kv : string * string) : bool :=
  let k := String.list_ascii_of_string kv.1 in
  let v := String.list_ascii_of_string kv.2 in
  match k, v with
  | _ :: _, v0 :: _ => forallb key_char k && forallb value_char v && negb (is_quote v0)
  | _, _ => false
  end.

Definition entry_line (kv : string * string) : list Ascii.ascii :=
  String.list_ascii_of_string kv.1 ++ EQ :: String.list_ascii_of_string kv.2.

Fixpoint serialize (kvs : list (string * string)) : list Ascii.ascii :=
  match kvs with
  | [] => []
  | [kv] => entry_line kv
  | kv :: kvs => entry_line kv ++ LF :: serialize kvs
  end.

(** The [.env] file with one line [KEY=VALUE] per entry. *)
Definition dotenv_file (kvs : list (string * string)) : string :=
  String.string_of_list_ascii (serialize kvs).

(** What [config()] merges: the parsed file, nothing without one. *)
Definition dotenv_parsed (dotenv_file : option string) : gmap string string :=
  default ∅ (dotenv_parse <$> dotenv_file).

(** The same file with Windows line ends: each LF written as CR LF. *)
Fixpoint crlf (l : list Ascii.ascii) : list Ascii.ascii :=
  match l with
  | [] => []
  | c :: l' => if Ascii.eqb c LF then CR :: LF :: crlf l' else c :: crlf l'
  end.

Definition dotenv_file_crlf (kvs : list (string * string)) : string :=
  String.string_of_list_ascii (crlf (serialize kvs)).

(** ** Characters *)

Lemma key_char_facts c :
  key_char c = true ->
  is_space c = false /\ Ascii.eqb c EQ = false /\ Ascii.eqb c COLON = false /\
  Ascii.eqb c HASH = false /\ is_line_term c = false /\ Ascii.eqb c CR = false.
Proof. destruct c as [[] [] [] [] [] [] [] []]; vm_compute; intros H; try discriminate; tauto. Qed.

Lemma value_char_facts c :
  value_char c = true ->
  is_space c = false /\ Ascii.eqb c HASH = false /\ is_line_term c = false /\ Ascii.eqb c CR = false.
Proof. destruct c as [[] [] [] [] [] [] [] []]; vm_compute; intros H; try discriminate; tauto. Qed.

Lemma is_quote_false c : is_quote c = false -> Ascii.eqb c SQ = false /\ Ascii.eqb c DQ = false /\ Ascii.eqb c BQ = false.
Proof. unfold is_quote. intros H. apply orb_false_elim in H as [H H3]. apply orb_false_elim in H as [H1 H2]. done. Qed.

Lemma eqb_neq_char (c d : Ascii.ascii) : Ascii.eqb c d = false -> c <> d.
Proof. intros H ->. by rewrite Ascii.eqb_refl in H. Qed.

Lemma forallb_lookup {X} (f : X -> bool) l i x : forallb f l = true -> l !! i = Some x -> f x = true.
Proof. intros Hf Hi. apply forallb_forall with (x := x) in Hf; [done|]. by eapply list_elem_of_lookup_2, list_elem_of_In in Hi. Qed.

Lemma drop_spaces_id l : forallb (fun c => negb (is_space c)) l = true -> drop_spaces l = l.
Proof. destruct l as [|c l]; [done|]. cbn. intros [Hc _]%andb_prop. by destruct (is_space c). Qed.

Lemma value_chars_no_space v : forallb value_char v = true -> forallb (fun c => negb (is_space c)) v = true.
Proof.
  intros Hv. apply forallb_forall. intros c Hc. apply forallb_forall with (x := c) in Hv; [|done].
  apply value_char_facts in Hv as [-> _]. done.
Qed.

Lemma trim_id l : forallb (fun c => negb (is_space c)) l = true -> trim l = l.
Proof.
  intros Hn. unfold trim. rewrite (drop_spaces_id l Hn), drop_spaces_id, reverse_involutive; [done|].
  apply forallb_forall. intros x Hx. apply (proj1 (forallb_forall _ _) Hn).
  apply list_elem_of_In, elem_of_reverse, list_elem_of_In, Hx.
Qed.

(** A value of [value_char]s not opened by a quote is read as written. *)
Lemma match_value_plain v s c ij :
  forallb value_char v = true -> (exists v0 v', v = v0 :: v' /\ is_quote v0 = false) ->
  c 2 = Some ij -> substr s ij = v -> match_value s c = v.
Proof.
  intros Hv (v0 & v' & Ev & Hq) Hc Hsub. unfold match_value. rewrite Hc. cbn -[trim].
  rewrite Hsub, trim_id by auto using value_chars_no_space.
  rewrite Ev. cbn -[is_quote]. rewrite Hq. apply is_quote_false in Hq as (_ & Hdq & _). cbn in Hdq. by rewrite Hdq.
Qed.

Lemma substr_at pre l post i j : i = length pre -> j = i + length l -> substr (pre ++ l ++ post) (i, j) = l.
Proof.
  intros -> ->. unfold substr. cbn. replace (length pre + length l - length pre) with (length l) by lia.
  rewrite drop_app_length, take_app_length. done.
Qed.

(** ** One line [KEY=VALUE] *)

Section Line.
Context (s pre k v post : list Ascii.ascii).
Hypothesis Hs : s = pre ++ k ++ EQ :: v ++ post.
Hypothesis Hk : forallb key_char k = true.
Hypothesis Hkne : k <> [].
Hypothesis Hv : forallb value_char v = true.
Hypothesis Hv0 : exists v0 v', v = v0 :: v' /\ is_quote v0 = false.
(** The line is the last, or the next line starts with a key. *)
Hypothesis Hpost : post = [] \/ exists ch post', post = LF :: ch :: post' /\ key_char ch = true.

Local Abbreviation p := (length pre).
Local Abbreviation e := (length pre + length k).
Local Abbreviation b := (length pre + length k + 1 + length v).

Lemma len_k : 0 < length k.
Proof. destruct k; [done|cbn; lia]. Qed.

Lemma len_v : 0 < length v.
Proof. destruct Hv0 as (v0 & v' & -> & _). cbn. lia. Qed.

Lemma key_at t : p <= t < e -> exists ch, s !! t = Some ch /\ key_char ch = true.
Proof.
  intros Ht. rewrite Hs, lookup_app_r, lookup_app_l by lia.
  destruct (lookup_lt_is_Some_2 k (t - p)) as [ch Hch]; [lia|]. exists ch. split; [done|]. by eapply forallb_lookup.
Qed.

Lemma eq_at : s !! e = Some EQ.
Proof. rewrite Hs, lookup_app_r, lookup_app_r by lia. by replace (e - p - length k) with 0 by lia. Qed.

Lemma val_at t : e < t < b -> exists ch, s !! t = Some ch /\ value_char ch = true.
Proof.
  intros Ht. rewrite Hs, lookup_app_r, lookup_app_r by lia.
  replace (t - p - length k) with (S (t - p - length k - 1)) by lia.
  change ((EQ :: ?l) !! S ?m) with (l !! m). rewrite lookup_app_l by lia.
  destruct (lookup_lt_is_Some_2 v (t - p - length k - 1)) as [ch Hch]; [lia|]. exists ch. split; [done|].
  by eapply forallb_lookup.
Qed.

Lemma v0_at : exists ch, s !! S e = Some ch /\ value_char ch = true /\ is_quote ch = false.
Proof.
  destruct Hv0 as (v0 & v' & Ev & Hq). exists v0. rewrite Hs, lookup_app_r, lookup_app_r by lia.
  replace (S e - p - length k) with 1 by lia. rewrite Ev. split; [done|]. split; [|done].
  apply (forallb_lookup _ v 0); [done|by rewrite Ev].
Qed.

Lemma post_at n : s !! (b + n) = post !! n.
Proof.
  rewrite Hs, lookup_app_r, lookup_app_r by lia.
  replace (b + n - p - length k) with (S (length v + n)) by lia.
  change ((EQ :: ?l) !! S ?m) with (l !! m). rewrite lookup_app_r by lia. f_equal. lia.
Qed.

Lemma body_at t :
  p <= t < b -> exists ch, s !! t = Some ch /\ is_space ch = false /\ Ascii.eqb ch HASH = false /\ is_line_term ch = false.
Proof.
  intros Ht. destruct (decide (t < e)) as [Hlt|]; [|destruct (decide (t = e)) as [->|]].
  - destruct (key_at t ltac:(lia)) as (ch & Hch & Hc). apply key_char_facts in Hc. exists ch. tauto.
  - exists EQ. split; [apply eq_at|]. vm_compute. tauto.
  - destruct (val_at t ltac:(lia)) as (ch & Hch & Hc). apply value_char_facts in Hc. exists ch. tauto.
Qed.

Lemma sp_stop g i c j c' :
  (exists ch, s !! i = Some ch /\ is_space ch = false) -> matches s (RStar g sp) i c j c' -> j = i /\ c' = c.
Proof. intros (ch & Hch & Hsp). apply matches_star_class_stop. intros ch' Hch'. congruence. Qed.

Lemma sp_stop_end g i c j c' : s !! i = None -> matches s (RStar g sp) i c j c' -> j = i /\ c' = c.
Proof. intros Hn. apply matches_star_class_stop. intros ch' Hch'. congruence. Qed.

Lemma bol_inv i c j c' : matches s (RAlt RBol RBol) i c j c' -> j = i /\ c' = c /\ at_bol s i = true.
Proof. intros [H|H]%matches_alt_inv; by inversion H. Qed.

Lemma eol_inv i c j c' : matches s (RAlt REol REol) i c j c' -> j = i /\ c' = c /\ at_eol s i = true.
Proof. intros [H|H]%matches_alt_inv; by inversion H. Qed.

Lemma comment_stop i c j c' :
  (forall ch, s !! i = Some ch -> Ascii.eqb ch HASH = false) -> matches s comment_re i c j c' -> j = i /\ c' = c.
Proof.
  intros Hn [H|(_ & H)]%matches_opt_inv; [done|].
  apply matches_seq_inv in H as (j1 & c1 & (_ & _ & Hh)%matches_char_inv & _).
  specialize (Hn _ Hh). by rewrite Ascii.eqb_refl in Hn.
Qed.

(** The end of a line matches nowhere inside it. *)
Lemma tail_body q c j c' : p <= q < b -> ~ matches s tail_re q c j c'.
Proof.
  intros Hq H. destruct (body_at q Hq) as (ch & Hch & Hsp & Hh & Hl).
  apply matches_seq_inv in H as (q1 & c1 & H1 & H).
  apply sp_stop in H1 as [-> ->]; [|eauto].
  apply matches_seq_inv in H as (q2 & c2 & H2 & H).
  apply comment_stop in H2 as [-> ->]; [|intros ch' Hch'; congruence].
  apply eol_inv in H as (_ & _ & He). unfold at_eol in He. rewrite Hch in He. congruence.
Qed.

(** At the end of the line it matches the empty string. *)
Lemma tail_end c j c' : matches s tail_re b c j c' -> j = b /\ c' = c.
Proof.
  pose proof (post_at 0) as H0. pose proof (post_at 1) as H1. rewrite Nat.add_0_r in H0.
  intros H. apply matches_seq_inv in H as (q1 & c1 & Hs1 & H).
  apply matches_seq_inv in H as (q2 & c2 & Hc & He).
  destruct Hpost as [->|(ch & post' & -> & Hkc)].
  - apply sp_stop_end in Hs1 as [-> ->]; [|done].
    apply comment_stop in Hc as [-> ->]; [|intros ch' Hch'; cbn in H0; congruence].
    by apply eol_inv in He as (-> & -> & _).
  - cbn in H0, H1. apply key_char_facts in Hkc as (Hsp & _ & _ & Hh & Hl & _).
    apply matches_star_class in Hs1 as (-> & Hle & Hall).
    destruct (decide (q1 = b)) as [->|Hne].
    + apply comment_stop in Hc as [-> ->]; [|intros ch' Hch'; rewrite H0 in Hch'; by injection Hch' as <-].
      by apply eol_inv in He as (-> & -> & _).
    + destruct (decide (q1 = b + 1)) as [->|Hne'].
      * apply comment_stop in Hc as [-> ->]; [|intros ch' Hch'; congruence].
        apply eol_inv in He as (_ & _ & Hat). unfold at_eol in Hat. rewrite H1 in Hat. congruence.
      * destruct (Hall (b + 1) ltac:(lia)) as (ch' & Hch' & Hsp'). congruence.
Qed.

Lemma export_none c q c' : matches s export_re p c q c' -> q = p /\ c' = c.
Proof.
  intros [H|(_ & H)]%matches_opt_inv; [done|exfalso].
  apply matches_seq_inv in H as (q1 & c1 & Hl & Hsp).
  apply matches_lit in Hl as (-> & _ & Hlit). cbn in Hlit, Hsp.
  apply matches_plus_class in Hsp as (_ & Hq & Hall). destruct (Hall (p + 6) ltac:(lia)) as (ch & Hch & Hsp).
  destruct (decide (p + 6 < b)) as [Hlt|Hge].
  - destruct (body_at (p + 6) ltac:(lia)) as (ch' & Hch' & Hsp' & _). congruence.
  - pose proof (Hlit (length k) ltac:(cbn; lia)) as Hx. replace (p + length k) with e in Hx by lia. rewrite eq_at in Hx.
    pose proof len_k. destruct (length k) as [|[|[|[|[|[|]]]]]]; cbn in Hx; try lia; vm_compute in Hx; congruence.
Qed.

Lemma key_sep c q c1 q' c2 :
  matches s key_re p c q c1 -> matches s sep_re q c1 q' c2 ->
  q = e /\ c1 = set_cap c 1 (p, e) /\ q' = S e /\ c2 = c1.
Proof.
  intros (cx & Hplus & ->)%matches_group_inv Hsep.
  apply matches_plus_class in Hplus as (-> & Hpq & Hall).
  assert (Hqe : q <= e).
  { destruct (decide (q <= e)) as [|Hgt]; [done|]. destruct (Hall e ltac:(lia)) as (ch & Hch & Hkc).
    rewrite eq_at in Hch. injection Hch as <-. discriminate. }
  assert (q = e) as ->.
  { destruct (decide (q = e)) as [|Hne]; [done|exfalso].
    destruct (key_at q ltac:(lia)) as (ch & Hch & Hkc). apply key_char_facts in Hkc as (Hsp & Heq & Hco & _).
    apply matches_alt_inv in Hsep as [H|H].
    - apply matches_seq_inv in H as (q1 & c3 & H1 & H).
      apply sp_stop in H1 as [-> ->]; [|eauto].
      apply matches_seq_inv in H as (q2 & c4 & (_ & _ & Hx)%matches_char_inv & _).
      rewrite Hch in Hx. injection Hx as ->. by rewrite Ascii.eqb_refl in Heq.
    - apply matches_seq_inv in H as (q2 & c4 & (_ & _ & Hx)%matches_char_inv & _).
      rewrite Hch in Hx. injection Hx as ->. by rewrite Ascii.eqb_refl in Hco. }
  split; [done|]. split; [done|].
  destruct v0_at as (ch & Hch & Hvc & _). apply value_char_facts in Hvc as (Hsp & _).
  apply matches_alt_inv in Hsep as [H|H].
  - apply matches_seq_inv in H as (q1 & c3 & H1 & H).
    apply sp_stop in H1 as [-> ->]; [|exists EQ; split; [apply eq_at|done]].
    apply matches_seq_inv in H as (q2 & c4 & (-> & -> & _)%matches_char_inv & H).
    apply sp_stop in H as [-> ->]; [done|eauto].
  - apply matches_seq_inv in H as (q2 & c4 & (_ & _ & Hx)%matches_char_inv & _).
    rewrite eq_at in Hx. discriminate.
Qed.

Lemma quoted_none qc c q c' :
  Ascii.eqb (default "000"%char (s !! S e)) qc = false -> ~ matches s (quoted qc) (S e) c q c'.
Proof.
  intros Hq H. destruct v0_at as (ch & Hch & Hvc & _). apply value_char_facts in Hvc as (Hsp & _).
  rewrite Hch in Hq. cbn in Hq.
  apply matches_seq_inv in H as (q1 & c1 & H1 & H). apply sp_stop in H1 as [-> ->]; [|eauto].
  apply matches_seq_inv in H as (q2 & c2 & (_ & _ & Hx)%matches_char_inv & _).
  rewrite Hch in Hx. injection Hx as ->. by rewrite Ascii.eqb_refl in Hq.
Qed.

Lemma value_tail c q c1 j c2 :
  matches s value_re (S e) c q c1 -> matches s tail_re q c1 j c2 ->
  q = b /\ c1 = set_cap c 2 (S e, b) /\ j = b /\ c2 = c1.
Proof.
  pose proof len_v as Hlv. intros Hval Htail.
  apply matches_opt_inv in Hval as [[-> ->]|(Hlt & H)]; [exfalso; eapply tail_body; [|exact Htail]; lia|].
  apply matches_group_inv in H as (cx & H & ->).
  destruct v0_at as (ch & Hch & Hvc & Hq). apply is_quote_false in Hq as (Hsq & Hdq & Hbq).
  assert (Hnq : forall qc, Ascii.eqb ch qc = false -> ~ matches s (quoted qc) (S e) c q cx).
  { intros qc Hne. apply quoted_none. by rewrite Hch. }
  apply matches_alt_inv in H as [H|H]; [by destruct (Hnq SQ Hsq H)|].
  apply matches_alt_inv in H as [H|H]; [by destruct (Hnq DQ Hdq H)|].
  apply matches_alt_inv in H as [H|H]; [by destruct (Hnq BQ Hbq H)|].
  apply matches_plus_class in H as (-> & _ & Hall).
  assert (Hqb : q <= b).
  { destruct (decide (q <= b)) as [|Hgt]; [done|exfalso]. destruct (Hall b ltac:(lia)) as (ch' & Hch' & Hc).
    pose proof (post_at 0) as H0. rewrite Nat.add_0_r, Hch' in H0.
    destruct Hpost as [->|(ch2 & post' & -> & _)]; [discriminate|]. injection H0 as ->. discriminate. }
  assert (q = b) as ->.
  { destruct (decide (q = b)) as [|Hne]; [done|]. exfalso. eapply tail_body; [|exact Htail]; lia. }
  destruct (tail_end _ _ _ Htail) as [-> ->]. done.
Qed.

(** [LINE] matches a line [KEY=VALUE] in one way only: to its end, with
    the key as group 1 and the value as group 2. *)
Lemma line_inv j c :
  matches s LINE p no_caps j c -> j = b /\ c = set_cap (set_cap no_caps 1 (p, e)) 2 (S e, b).
Proof.
  pose proof len_k as Hlk. unfold LINE. intros H.
  apply matches_seq_inv in H as (q0 & c0 & (-> & -> & _)%bol_inv & H).
  apply matches_seq_inv in H as (q1 & c1 & H1 & H).
  apply sp_stop in H1 as [-> ->]; [|destruct (key_at p ltac:(lia)) as (ch & ? & ?%key_char_facts); exists ch; tauto].
  apply matches_seq_inv in H as (q2 & c2 & (-> & ->)%export_none & H).
  apply matches_seq_inv in H as (q3 & c3 & Hkey & H).
  apply matches_seq_inv in H as (q4 & c4 & Hsep & H).
  destruct (key_sep _ _ _ _ _ Hkey Hsep) as (-> & -> & -> & ->).
  apply matches_seq_inv in H as (q5 & c5 & Hval & Htail).
  by destruct (value_tail _ _ _ _ _ Hval Htail) as (-> & -> & -> & ->).
Qed.

Hypothesis Hbol : at_bol s (length pre) = true.

Lemma line_intro : matches s LINE p no_caps b (set_cap (set_cap no_caps 1 (p, e)) 2 (S e, b)).
Proof.
  pose proof len_k. pose proof len_v. unfold LINE.
  eapply m_seq; [apply m_alt_l, m_bol, Hbol|].
  eapply m_seq; [apply m_star_nil|]. eapply m_seq; [apply m_opt_skip|].
  eapply m_seq; [apply m_group, (plus_class_intro s true _ (length pre) e); [lia|intros t Ht; apply key_at; lia]|].
  eapply m_seq.
  { apply m_alt_l. eapply m_seq; [apply m_star_nil|].
    eapply m_seq; [econstructor; [apply eq_at|apply Ascii.eqb_refl]|apply m_star_nil]. }
  eapply m_seq.
  { apply (m_opt_take s true _ (S e) _ b); [lia|]. apply m_group, m_alt_r, m_alt_r, m_alt_r, (plus_class_intro s true _ (S e) b); [lia|].
    intros t Ht. destruct (val_at t ltac:(lia)) as (ch & Hch & Hc). apply value_char_facts in Hc as (_ & Hh & Hl & _).
    exists ch. by rewrite Hch, Hh, Hl. }
  eapply m_seq; [apply m_star_nil|]. eapply m_seq; [apply m_opt_skip|].
  apply m_alt_l, m_eol. unfold at_eol. pose proof (post_at 0) as Hp0. rewrite Nat.add_0_r in Hp0. rewrite Hp0.
  by destruct Hpost as [->|(ch & post' & -> & _)].
Qed.

(** [LINE.exec] at the start of such a line: its end, key and value. *)
Lemma line_first : first_match s LINE p = Some (b, set_cap (set_cap no_caps 1 (p, e)) 2 (S e, b)).
Proof.
  destruct (first_match_complete _ _ _ _ _ line_intro) as [[j c] Hf]. rewrite Hf.
  by destruct (line_inv _ _ (first_match_sound _ _ _ _ _ Hf)) as [-> ->].
Qed.

Local Abbreviation C := (set_cap (set_cap no_caps 1 (p, e)) 2 (S e, b)).

(** The line's match gives back its key and value, ends before its
    newline, and the next line starts after it. *)
Lemma line_step :
  first_match s LINE p = Some (b, C) /\ match_key s C = k /\ match_value s C = v /\
  at_bol s b = false /\ (forall post', post = LF :: post' -> at_bol s (S b) = true).
Proof.
  pose proof len_v. split; [apply line_first|]. split; [|split; [|split]].
  - unfold match_key, set_cap. cbn -[substr]. rewrite Hs. by apply substr_at.
  - apply (match_value_plain v s C (S e, b)); [done..|].
    rewrite Hs. replace (pre ++ k ++ EQ :: v ++ post) with ((pre ++ k ++ [EQ]) ++ v ++ post) by (rewrite <- !app_assoc; reflexivity).
    apply substr_at; rewrite ?length_app; cbn; lia.
  - destruct (val_at (b - 1)) as (ch & Hch & Hc); [lia|]. replace b with (S (b - 1)) by lia. cbn.
    rewrite Hch. by apply value_char_facts in Hc as (_ & _ & -> & _).
  - intros post' Ep. cbn. pose proof (post_at 0) as Hp0. rewrite Nat.add_0_r in Hp0. by rewrite Hp0, Ep.
Qed.
End Line.

(** ** The loop over the lines *)

(** A match of [LINE] starts at the start of a line, before the end of
    the text. *)
Lemma LINE_start s t c j c' : matches s LINE t c j c' -> at_bol s t = true /\ t < length s.
Proof.
  unfold LINE. intros H. apply matches_seq_inv in H as (q0 & c0 & (-> & -> & Hb)%bol_inv & H).
  split; [done|].
  apply matches_seq_inv in H as (q1 & c1 & (Hle1 & _)%matches_le & H).
  apply matches_seq_inv in H as (q2 & c2 & (Hle2 & _)%matches_le & H).
  apply matches_seq_inv in H as (q3 & c3 & (cx & Hk & _)%matches_group_inv & _).
  apply matches_plus_class in Hk as (_ & Hq & Hall). destruct (Hall q2 ltac:(lia)) as (ch & Hch & _).
  apply lookup_lt_Some in Hch. lia.
Qed.

Lemma first_match_LINE_none s t : at_bol s t = false \/ length s <= t -> first_match s LINE t = None.
Proof.
  intros Ht. destruct (first_match s LINE t) as [[j c]|] eqn:Hf; [|done].
  apply first_match_sound, LINE_start in Hf as [Hb Hl]. destruct Ht; [congruence|lia].
Qed.



(** ** Serialized files *)

Lemma forallb_mono {X} (f g : X -> bool) l :
  (forall x, f x = true -> g x = true) -> forallb f l = true -> forallb g l = true.
Proof. intros Hfg Hf. apply forallb_forall. intros x Hx. apply Hfg. by apply forallb_forall with (x := x) in Hf. Qed.

Lemma entry_ok_spec kv :
  entry_ok kv = true ->
  forallb key_char (String.list_ascii_of_string kv.1) = true /\ String.list_ascii_of_string kv.1 <> [] /\
  forallb value_char (String.list_ascii_of_string kv.2) = true /\
  exists v0 v', String.list_ascii_of_string kv.2 = v0 :: v' /\ is_quote v0 = false.
Proof.
  unfold entry_ok. destruct (String.list_ascii_of_string kv.1) as [|k0 k'] eqn:Ek; [done|].
  destruct (String.list_ascii_of_string kv.2) as [|v0 v'] eqn:Ev; [done|].
  intros H. apply andb_prop in H as [H Hq]. apply andb_prop in H as [Hk Hv].
  do 3 (split; [done|]). exists v0, v'. split; [done|]. by apply negb_true_iff.
Qed.

Lemma serialize_cons kv kvs :
  serialize (kv :: kvs) = entry_line kv ++ match kvs with [] => [] | _ => LF :: serialize kvs end.
Proof. destruct kvs; cbn; [by rewrite app_nil_r|done]. Qed.

(** A serialized file starts with a key character. *)
Lemma serialize_head kv kvs :
  entry_ok kv = true -> exists ch rest, serialize (kv :: kvs) = ch :: rest /\ key_char ch = true.
Proof.
  intros (Hk & Hkne & _)%entry_ok_spec. rewrite serialize_cons. unfold entry_line.
  destruct (String.list_ascii_of_string kv.1) as [|k0 k']; [done|]. cbn in Hk |- *.
  apply andb_prop in Hk as [Hk0 _]. eauto.
Qed.

Definition no_cr : list Ascii.ascii -> bool := forallb (fun c => negb (Ascii.eqb c CR)).

Lemma normalize_newlines_id l : no_cr l = true -> normalize_newlines l = l.
Proof.
  induction l as [|c l IH]; [done|]. cbn. intros [Hc Hl]%andb_prop. apply negb_true_iff in Hc.
  destruct l as [|d l']; rewrite Hc; [done|]. by rewrite IH.
Qed.

Lemma normalize_newlines_cons c l : Ascii.eqb c CR = false -> normalize_newlines (c :: l) = c :: normalize_newlines l.
Proof. intros Hc. destruct l; cbn [normalize_newlines]; by rewrite Hc. Qed.

(** A text without CR written with CR LF line ends is normalized back. *)
Lemma normalize_newlines_crlf l : no_cr l = true -> normalize_newlines (crlf l) = l.
Proof.
  induction l as [|c l IH]; [done|]. unfold no_cr in *. cbn [forallb crlf]. intros [Hc Hl]%andb_prop.
  apply negb_true_iff in Hc. destruct (Ascii.eqb c LF) eqn:E.
  - apply Ascii.eqb_eq in E as ->. simpl normalize_newlines. by rewrite IH.
  - by rewrite normalize_newlines_cons, IH.
Qed.

Lemma serialize_no_cr kvs : forallb entry_ok kvs = true -> no_cr (serialize kvs) = true.
Proof.
  unfold no_cr. induction kvs as [|kv kvs IH]; [done|]. cbn [forallb]. intros [(Hk & _ & Hv & _)%entry_ok_spec Hkvs]%andb_prop.
  rewrite serialize_cons. unfold entry_line. rewrite !forallb_app. cbn [forallb].
  rewrite (forallb_mono _ _ _ (fun c Hc => proj2 (negb_true_iff _) (proj2 (proj2 (proj2 (proj2 (proj2 (key_char_facts c Hc)))))))) by done.
  rewrite (forallb_mono _ _ _ (fun c Hc => proj2 (negb_true_iff _) (proj2 (proj2 (proj2 (value_char_facts c Hc)))))) by done.
  destruct kvs; cbn [forallb]; [done|]. by rewrite IH.
Qed.


(** [obj[key] = value] for each entry in file order: the later of two
    entries with the same key wins. *)
Definition assign_all (obj : gmap string string) (kvs : list (string * string)) : gmap string string :=
  foldl (fun m kv => <[kv.1 := kv.2]> m) obj kvs.

(** The loop reads the lines of a serialized file one by one: [last] is
    before the first line, and no line starts between them. *)
Lemma parse_loop_serialize s kvs : forall pre last obj fuel,
  s = pre ++ serialize kvs -> forallb entry_ok kvs = true -> last <= length pre ->
  (forall t, last <= t < length pre -> at_bol s t = false) ->
  (kvs <> [] -> at_bol s (length pre) = true) ->
  length s - last < fuel ->
  parse_loop s fuel last obj = assign_all obj kvs.
Proof.
  induction kvs as [|kv kvs IH]; intros pre last obj [|f] Hs Hok Hle Hnb Hb Hf; try lia; cbn [parse_loop].
  { unfold exec. rewrite search_none; [done|]. intros t Ht. apply first_match_LINE_none.
    cbn in Hs. rewrite app_nil_r in Hs. subst s. destruct (decide (t < length pre)); [left; apply Hnb|right]; lia. }
  cbn [forallb] in Hok. apply andb_prop in Hok as [Hkv Hok]. destruct (entry_ok_spec kv Hkv) as (Hk & Hkne & Hv & Hv0).
  remember (String.list_ascii_of_string kv.1) as k eqn:Ek. remember (String.list_ascii_of_string kv.2) as v eqn:Ev.
  assert (Hs' : s = pre ++ k ++ EQ :: v ++ match kvs with [] => [] | _ => LF :: serialize kvs end).
  { rewrite Hs, serialize_cons. unfold entry_line. rewrite <- Ek, <- Ev, <- !app_assoc. reflexivity. }
  assert (Hpost : match kvs with [] => [] | _ => LF :: serialize kvs end = [] \/
                  exists ch post', match kvs with [] => [] | _ => LF :: serialize kvs end = LF :: ch :: post' /\ key_char ch = true).
  { destruct kvs as [|kv' kvs']; [by left|right]. cbn in Hok. apply andb_prop in Hok as [Hkv' _].
    destruct (serialize_head kv' kvs' Hkv') as (ch & rest & -> & Hch). eauto. }
  destruct (line_step s pre k v _ Hs' Hk Hkne Hv Hv0 Hpost (Hb ltac:(done))) as (Hfm & Hkey & Hval & Hnbol & Hnext).
  assert (0 < length k) by (destruct k; [done|cbn; lia]).
  pose proof (f_equal length Hs') as Hl. rewrite !length_app in Hl. cbn [length] in Hl. rewrite length_app in Hl.
  unfold exec. rewrite (search_at s LINE (S (length s - last)) last (length pre) _ _ Hle ltac:(lia)
    ltac:(intros t Ht; apply first_match_LINE_none; left; apply Hnb; lia) Hfm).
  rewrite Hkey, Hval, Ek, Ev, !String.string_of_list_ascii_of_string. rewrite <- Ek, <- Ev.
  destruct kvs as [|kv' kvs'].
  - apply (IH (pre ++ k ++ EQ :: v)); rewrite ?length_app; cbn; try done; try lia.
    by rewrite Hs', !app_nil_r.
  - apply (IH (pre ++ k ++ EQ :: v ++ [LF])); rewrite ?length_app; cbn [length]; rewrite ?length_app; cbn [length]; try done; try lia.
    + rewrite Hs', <- !app_assoc. cbn. by rewrite <- app_assoc.
    + intros t Ht. by replace t with (length pre + length k + 1 + length v) by lia.
    + intros _. replace (length pre + (length k + S (length v + 1))) with (S (length pre + length k + 1 + length v)) by lia.
      by apply (Hnext (serialize (kv' :: kvs'))).
Qed.

Lemma parse_serialize kvs :
  forallb entry_ok kvs = true -> parse_loop (serialize kvs) (S (length (serialize kvs))) 0 ∅ = assign_all ∅ kvs.
Proof. intros Hok. apply (parse_loop_serialize _ _ []); cbn; try done; lia. Qed.

(** [parse] reads back a file written one [KEY=VALUE] line per entry,
    with keys of [[\w.-]] and values of printable characters not opened
    by a quote: the object holds each key with its value, the later
    entry winning when a key is repeated. *)
Theorem dotenv_parse_file kvs :
  forallb entry_ok kvs = true -> dotenv_parse (dotenv_file kvs) = assign_all ∅ kvs.
Proof.
  intros Hok. unfold dotenv_parse, dotenv_file.
  rewrite String.list_ascii_of_string_of_list_ascii, normalize_newlines_id by (by apply serialize_no_cr).
  by apply parse_serialize.
Qed.

(** The same with CR LF line ends. *)
Theorem dotenv_parse_file_crlf kvs :
  forallb entry_ok kvs = true -> dotenv_parse (dotenv_file_crlf kvs) = assign_all ∅ kvs.
Proof.
  intros Hok. unfold dotenv_parse, dotenv_file_crlf.
  rewrite String.list_ascii_of_string_of_list_ascii, normalize_newlines_crlf by (by apply serialize_no_cr).
  by apply parse_serialize.
Qed.

Lemma dotenv_config_union env dotenv_file : dotenv_config env dotenv_file = env ∪ dotenv_parsed dotenv_file.
Proof. destruct dotenv_file; cbn; [apply dotenv_populate_union|by rewrite map_union_empty]. Qed.

(** ** Keys *)

(** A name [LINE] reads as a key: a nonempty string of [[\w.-]]. *)
Definition key_ok (k : string) : bool :=
  match String.list_ascii_of_string k with [] => false | l => forallb key_char l end.

Lemma LINE_key s t j c :
  matches s LINE t no_caps j c ->
  exists q1 q2, c 1 = Some (q1, q2) /\ q1 < q2 /\ forall x, q1 <= x < q2 -> exists ch, s !! x = Some ch /\ key_char ch = true.
Proof.
  unfold LINE. intros H.
  do 3 apply matches_seq_inv in H as (? & ? & _ & H).
  apply matches_seq_inv in H as (q3 & c3 & (cx & Hk & ->)%matches_group_inv & H).
  apply matches_plus_class in Hk as (_ & Hlt & Hall).
  apply (matches_keeps_cap s 1) in H; [|reflexivity]. rewrite H. unfold set_cap. cbn. eauto.
Qed.

Lemma substr_key_ok s q1 q2 :
  q1 < q2 -> (forall x, q1 <= x < q2 -> exists ch, s !! x = Some ch /\ key_char ch = true) ->
  key_ok (String.string_of_list_ascii (substr s (q1, q2))) = true.
Proof.
  intros Hlt Hall. unfold key_ok. rewrite String.list_ascii_of_string_of_list_ascii.
  destruct (substr s (q1, q2)) as [|c0 l] eqn:E.
  - destruct (Hall q1 ltac:(lia)) as (ch & Hch%lookup_lt_Some & _).
    apply (f_equal length) in E. unfold substr in E. rewrite length_take, length_drop in E. cbn in E. lia.
  - rewrite <- E. apply forallb_forall. intros x Hx%list_elem_of_In%list_elem_of_lookup_1. destruct Hx as [n Hn].
    unfold substr in Hn. cbn in Hn. apply lookup_take_Some in Hn as [Hn Hlen]. rewrite lookup_drop in Hn.
    destruct (Hall (q1 + n) ltac:(lia)) as (ch & Hch & Hk). congruence.
Qed.

(** Every key the loop adds is a name of [[\w.-]]. *)
Lemma parse_loop_keys s fuel last obj k v :
  parse_loop s fuel last obj !! k = Some v -> obj !! k = Some v \/ key_ok k = true.
Proof.
  revert last obj. induction fuel as [|fuel IH]; intros last obj; cbn [parse_loop]; [auto|].
  destruct (exec s LINE last) as [[[t j] c]|] eqn:He; [|auto].
  intros [Hk|Hk]%IH; [|by right].
  apply search_sound in He as [_ (q1 & q2 & Hc & Hlt & Hall)%first_match_sound%LINE_key].
  apply lookup_insert_Some in Hk as [[<- _]|[_ Hk]]; [right|by left].
  unfold match_key. rewrite Hc. by apply substr_key_ok.
Qed.

Lemma dotenv_parsed_keys dotenv_file k v : dotenv_parsed dotenv_file !! k = Some v -> key_ok k = true.
Proof.
  destruct dotenv_file as [src|]; unfold dotenv_parsed, dotenv_parse; cbn -[parse_loop]; [|done].
  by intros [Hk|Hk]%parse_loop_keys; [rewrite lookup_empty in Hk|].
Qed.
