(* ===== verification/Utf8.v ===== *)
(** * UTF-8 decoding of a request body and encoding back

    [await c.req.text()] (index.ts 48) reads the body with the WHATWG
    "UTF-8 decode" of the Fetch standard: a leading byte order mark is
    dropped, and every ill-formed byte sequence becomes U+FFFD; the
    Stripe library then hashes [payload] with
    [hmac.update(payload, 'utf8')], which encodes the text back to
    UTF-8.  This file models both:

    - [utf8_decode]: the decoder of the Encoding standard (section 9.1.1)
      as a state machine over the bytes ([dec_state], [dec_byte]), with
      the BOM check of "UTF-8 decode";
    - [utf8_encode]: the UTF-8 encoder (section 9.1.2);
    - [body_text]: what the body turns into, bytes to bytes.

    Bytes and code points are [Z], with the bit operations the standard
    writes.  The theorems: decoding inverts encoding on scalar values
    (not starting with U+FEFF), so a well-formed body without BOM is
    left as it is; and two examples of bodies that are not. *)

From S2P Require Import Prelude.

Local Open Scope Z_scope.

(** ** Decoder *)

Record dec_state := mkDec {
  code_point : Z;
  bytes_seen : nat;
  bytes_needed : nat;
  lower_boundary : Z;
  upper_boundary : Z
}.

Definition dec_init : dec_state := mkDec 0 0 0 0x80 0xBF.

Definition REPLACEMENT : Z := 0xFFFD.

(** A byte read while no sequence is pending: its code point, the start
    of a sequence, or an error. *)
Definition dec_start (b : Z) : list Z * dec_state :=
  if b <=? 0x7F then ([b], dec_init)
  else if (0xC2 <=? b) && (b <=? 0xDF) then ([], mkDec (Z.land b 0x1F) 0 1 0x80 0xBF)
  else if (0xE0 <=? b) && (b <=? 0xEF) then
    ([], mkDec (Z.land b 0xF) 0 2 (if b =? 0xE0 then 0xA0 else 0x80) (if b =? 0xED then 0x9F else 0xBF))
  else if (0xF0 <=? b) && (b <=? 0xF4) then
    ([], mkDec (Z.land b 0x7) 0 3 (if b =? 0xF0 then 0x90 else 0x80) (if b =? 0xF4 then 0x8F else 0xBF))
  else ([REPLACEMENT], dec_init).

(** One byte.  A byte outside the boundaries ends the pending sequence
    with an error and is read again from the initial state. *)
Definition dec_byte (st : dec_state) (b : Z) : list Z * dec_state :=
  if Nat.eqb (bytes_needed st) 0 then dec_start b
  else if negb ((lower_boundary st <=? b) && (b <=? upper_boundary st)) then
    let '(out, st') := dec_start b in (REPLACEMENT :: out, st')
  else
    let cp := Z.lor (Z.shiftl (code_point st) 6) (Z.land b 0x3F) in
    if Nat.eqb (S (bytes_seen st)) (bytes_needed st) then ([cp], dec_init)
    else ([], mkDec cp (S (bytes_seen st)) (bytes_needed st) 0x80 0xBF).

(** The bytes to the end; a sequence cut short by the end is an error. *)
Fixpoint dec_run (st : dec_state) (bs : list Z) : list Z :=
  match bs with
  | [] => if Nat.eqb (bytes_needed st) 0 then [] else [REPLACEMENT]
  | b :: rest => let '(out, st') := dec_byte st b in out ++ dec_run st' rest
  end.

(** The three bytes of a byte order mark at the start. *)
Definition has_bom (bs : list Z) : bool :=
  match bs with
  | a :: b :: c :: _ => (a =? 0xEF) && (b =? 0xBB) && (c =? 0xBF)
  | _ => false
  end.

(** "UTF-8 decode": drop a leading BOM, then decode. *)
Definition utf8_decode (bs : list Z) : list Z :=
  if has_bom bs then dec_run dec_init (drop 3 bs) else dec_run dec_init bs.

(** ** Encoder *)

Definition utf8_encode_cp (cp : Z) : list Z :=
  if cp <? 0x80 then [cp]
  else if cp <? 0x800 then
    [Z.shiftr cp 6 + 0xC0; Z.lor 0x80 (Z.land cp 0x3F)]
  else if cp <? 0x10000 then
    [Z.shiftr cp 12 + 0xE0; Z.lor 0x80 (Z.land (Z.shiftr cp 6) 0x3F); Z.lor 0x80 (Z.land cp 0x3F)]
  else
    [Z.shiftr cp 18 + 0xF0; Z.lor 0x80 (Z.land (Z.shiftr cp 12) 0x3F);
     Z.lor 0x80 (Z.land (Z.shiftr cp 6) 0x3F); Z.lor 0x80 (Z.land cp 0x3F)].

Definition utf8_encode (cps : list Z) : list Z := concat (map utf8_encode_cp cps).

(** ** The body as the handler sees it *)

Definition bytes_of (s : string) : list Z := map (fun c => Z.of_N (Ascii.N_of_ascii c)) (String.list_ascii_of_string s).
Definition string_of_bytes (bs : list Z) : string :=
  String.string_of_list_ascii (map (fun b => Ascii.ascii_of_N (Z.to_N b)) bs).

(** [Buffer.from(await c.req.text(), 'utf8')]: the bytes the library
    hashes and parses, from the bytes on the wire. *)
Definition body_text (body : string) : string := string_of_bytes (utf8_encode (utf8_decode (bytes_of body))).

(** A Unicode scalar value. *)
Definition scalar (cp : Z) : Prop := 0 <= cp <= 0x10FFFF /\ ~ (0xD800 <= cp <= 0xDFFF).

Example decode_invalid_byte : utf8_decode [0x7B; 0xFF; 0x7D] = [0x7B; REPLACEMENT; 0x7D].
Proof. reflexivity. Qed.

Example decode_truncated : utf8_decode [0xE2; 0x82] = [REPLACEMENT].
Proof. reflexivity. Qed.

Example decode_surrogate : utf8_decode [0xED; 0xA0; 0x80] = [REPLACEMENT; REPLACEMENT; REPLACEMENT].
Proof. reflexivity. Qed.

Example decode_euro : utf8_decode [0xE2; 0x82; 0xAC] = [0x20AC].
Proof. reflexivity. Qed.

(** ** Bit operations on bytes as arithmetic *)

(** [lia] after turning every division and remainder by a constant into
    its Euclidean equations. *)
Ltac zlia := Z.to_euclidean_division_equations; lia.

Lemma land_low (x : Z) (n : Z) : 0 <= n -> Z.land x (Z.ones n) = x mod 2 ^ n.
Proof. apply Z.land_ones. Qed.

Lemma lor_disjoint (a b n : Z) : 0 <= n -> 0 <= b < 2 ^ n -> Z.lor (a * 2 ^ n) b = a * 2 ^ n + b.
Proof.
  intros Hn Hb. pose proof (Z.add_lor_land (a * 2 ^ n) b) as Hadd.
  enough (Z.land (a * 2 ^ n) b = 0) by lia.
  rewrite <- (Z.mod_small b (2 ^ n)) by lia. rewrite <- Z.land_ones, (Z.land_comm b), Z.land_assoc by lia.
  rewrite Z.land_ones, Z_mod_mult by lia. apply Z.land_0_l.
Qed.

Lemma land_3F x : Z.land x 0x3F = x mod 64.
Proof. exact (land_low x 6 ltac:(lia)). Qed.
Lemma land_1F x : Z.land x 0x1F = x mod 32.
Proof. exact (land_low x 5 ltac:(lia)). Qed.
Lemma land_F x : Z.land x 0xF = x mod 16.
Proof. exact (land_low x 4 ltac:(lia)). Qed.
Lemma land_7 x : Z.land x 0x7 = x mod 8.
Proof. exact (land_low x 3 ltac:(lia)). Qed.

(** [0x80 | x] and [(c << 6) | x] on a six-bit [x] *)
Lemma lor_80 x : 0 <= x < 64 -> Z.lor 0x80 x = 0x80 + x.
Proof. intros Hx. exact (lor_disjoint 2 x 6 ltac:(lia) ltac:(lia)). Qed.

Lemma lor_shiftl6 c x : 0 <= x < 64 -> Z.lor (Z.shiftl c 6) x = c * 64 + x.
Proof. intros Hx. rewrite Z.shiftl_mul_pow2 by lia. exact (lor_disjoint c x 6 ltac:(lia) ltac:(lia)). Qed.

Lemma shiftr_div x n : 0 <= n -> Z.shiftr x n = x / 2 ^ n.
Proof. apply Z.shiftr_div_pow2. Qed.

(** Decide every comparison of the goal, closing the impossible
    branches. *)
Ltac zbool :=
  repeat match goal with
  | |- context [?a <=? ?b] => destruct (Z.leb_spec a b); try zlia
  | |- context [?a <? ?b] => destruct (Z.ltb_spec a b); try zlia
  | |- context [?a =? ?b] => destruct (Z.eqb_spec a b); try zlia
  end; cbn [andb orb negb].

(** ** Decoding inverts encoding *)

(** Read the bytes of one encoded code point. *)
Ltac dec_steps :=
  rewrite ?shiftr_div, ?land_3F, ?lor_80 by zlia; cbn [app dec_run];
  repeat (unfold dec_byte, dec_start;
          cbn [bytes_needed lower_boundary upper_boundary bytes_seen code_point dec_init Nat.eqb];
          zbool; rewrite ?land_1F, ?land_F, ?land_7, ?land_3F, ?lor_shiftl6 by zlia;
          cbn [app dec_run]).

(** The decoder reads back the bytes of one scalar value, in each of the
    four lengths, boundaries included. *)
Lemma dec_run_encode_cp cp r :
  scalar cp -> dec_run dec_init (utf8_encode_cp cp ++ r) = cp :: dec_run dec_init r.
Proof. intros [Hr Hs]. unfold utf8_encode_cp. zbool; dec_steps; f_equal; zlia. Qed.

Lemma dec_run_encode cps : Forall scalar cps -> dec_run dec_init (utf8_encode cps) = cps.
Proof.
  induction cps as [|cp cps IH]; intros Hall; [done|].
  apply Forall_cons in Hall as [Hcp Hall]. unfold utf8_encode. cbn [map concat].
  rewrite dec_run_encode_cp by done. f_equal. by apply IH.
Qed.

Lemma dec_run_bom rest : dec_run dec_init (0xEF :: 0xBB :: 0xBF :: rest) = 0xFEFF :: dec_run dec_init rest.
Proof. reflexivity. Qed.

(** [TextDecoder] reads back what the encoder writes, unless the text
    starts with U+FEFF, which the decoder takes for a byte order mark. *)
Theorem utf8_decode_encode cps :
  Forall scalar cps -> head cps <> Some 0xFEFF -> utf8_decode (utf8_encode cps) = cps.
Proof.
  intros Hall Hh. unfold utf8_decode. destruct (has_bom (utf8_encode cps)) eqn:Hb.
  - exfalso. apply Hh. rewrite <- (dec_run_encode cps Hall).
    destruct (utf8_encode cps) as [|a [|b [|c rest]]]; try discriminate. cbn in Hb.
    apply andb_prop in Hb as [Hb Hc]. apply andb_prop in Hb as [Ha Hb].
    apply Z.eqb_eq in Ha, Hb, Hc. subst. by rewrite dec_run_bom.
  - by apply dec_run_encode.
Qed.

(** ** Bodies the decoding leaves as they are *)

Lemma string_of_bytes_of (s : string) : string_of_bytes (bytes_of s) = s.
Proof.
  unfold string_of_bytes, bytes_of. rewrite map_map.
  rewrite (map_ext_in _ (fun c => c)), map_id; [apply String.string_of_list_ascii_of_string|].
  intros c _. by rewrite N2Z.id, Ascii.ascii_N_embedding.
Qed.

(** A body that is the UTF-8 encoding of a text not starting with
    U+FEFF reaches the library unchanged. *)
Theorem body_text_encoded s cps :
  Forall scalar cps -> head cps <> Some 0xFEFF -> bytes_of s = utf8_encode cps -> body_text s = s.
Proof.
  intros Hall Hh He. unfold body_text. rewrite He, utf8_decode_encode, <- He by done.
  apply string_of_bytes_of.
Qed.

Lemma N_of_ascii_lt (c : Ascii.ascii) : (Ascii.N_of_ascii c < 256)%N.
Proof. destruct c as [[] [] [] [] [] [] [] []]; cbn; lia. Qed.

Lemma utf8_encode_ascii bs : Forall (fun b => 0 <= b < 0x80) bs -> utf8_encode bs = bs.
Proof.
  induction bs as [|b bs IH]; intros Hall; [done|]. apply Forall_cons in Hall as [Hb Hall].
  unfold utf8_encode in *. cbn [map concat]. rewrite IH by done.
  unfold utf8_encode_cp. by destruct (Z.ltb_spec b 0x80); [|lia].
Qed.

(** In particular an ASCII body. *)
Corollary body_text_ascii s :
  Forall (fun c => (Ascii.N_of_ascii c < 128)%N) (String.list_ascii_of_string s) -> body_text s = s.
Proof.
  intros Hall. apply (body_text_encoded s (bytes_of s)).
  - unfold bytes_of. apply Forall_fmap, (Forall_impl _ _ _ Hall). intros c Hc. cbn. split; lia.
  - unfold bytes_of. destruct (String.list_ascii_of_string s) as [|c l]; [done|].
    apply Forall_cons in Hall as [Hc _]. cbn. intros [= H]. lia.
  - symmetry. apply utf8_encode_ascii. unfold bytes_of. apply Forall_fmap, (Forall_impl _ _ _ Hall).
    intros c Hc. cbn. lia.
Qed.

(** Two bodies that do not: an ill-formed byte becomes the three bytes
    of U+FFFD, and a byte order mark disappears. *)
Example body_text_invalid :
  body_text (String (Ascii.ascii_of_N 123) (String (Ascii.ascii_of_N 255) (String (Ascii.ascii_of_N 125) ""))) =
  String (Ascii.ascii_of_N 123) (String (Ascii.ascii_of_N 239) (String (Ascii.ascii_of_N 191)
    (String (Ascii.ascii_of_N 189) (String (Ascii.ascii_of_N 125) "")))).
Proof. reflexivity. Qed.

Example body_text_bom :
  body_text (String (Ascii.ascii_of_N 239) (String (Ascii.ascii_of_N 187) (String (Ascii.ascii_of_N 191) "{}"))) = "{}".
Proof. reflexivity. Qed.
