(* ===== verification/Json.v ===== *)
(** * JSON values, [JSON.parse], [JSON.stringify] and property access

    [constructEvent] ends with [JSON.parse(payload)]; the webhook handler
    reads [event.type] and [event.data.object] (index.ts 60-73); the
    checkout handler answers [c.json(session)], that is
    [JSON.stringify(session)] (index.ts 92).

    Modelling choices:
    - a number is kept as its lexeme, validated by the grammar of
      ECMA-404; the re-formatting of doubles by [JSON.stringify] is not
      modelled;
    - an object is its list of properties in insertion order; a repeated
      key replaces the earlier value in place, as assigning a property of
      a JavaScript object does (the ordering of integer-like keys first is
      not modelled);
    - strings are byte strings; a [\uXXXX] escape stands for the UTF-8
      bytes of its code unit;
    - [parse_value] takes fuel; [JSON_parse] gives it two units per
      input character and one more, which is enough: every nested call
      is separated from the previous one by a character read. *)

From S2P Require Import Prelude JsBuiltins.

Inductive json : Type :=
| JSNull
| JSBool (b : bool)
| JSNumber (lexeme : string)
| JSString (s : string)
| JSArray (items : list json)
| JSObject (fields : list (string * json)).

(** ** Characters *)

Definition chr (n : N) : Ascii.ascii := Ascii.ascii_of_N n.
Definition code (c : Ascii.ascii) : N := Ascii.N_of_ascii c.

Definition is_ws (c : Ascii.ascii) : bool :=
  let n := code c in (n =? 32)%N || (n =? 9)%N || (n =? 10)%N || (n =? 13)%N.

Fixpoint skip_ws (s : list Ascii.ascii) : list Ascii.ascii :=
  match s with
  | c :: r => if is_ws c then skip_ws r else s
  | [] => []
  end.

(** [lit] is a prefix of [s]: the rest after it. *)
Fixpoint expect (lit s : list Ascii.ascii) : option (list Ascii.ascii) :=
  match lit, s with
  | [], _ => Some s
  | a :: lit', b :: s' => if Ascii.eqb a b then expect lit' s' else None
  | _ :: _, [] => None
  end.

(** ** Numbers (lexemes) *)

Fixpoint take_digits (s : list Ascii.ascii) : list Ascii.ascii * list Ascii.ascii :=
  match s with
  | c :: r => if is_digit c then let '(d, rest) := take_digits r in (c :: d, rest) else ([], s)
  | [] => ([], [])
  end.

(** [0] or a non-zero digit followed by digits *)
Definition parse_int_part (s : list Ascii.ascii) : option (list Ascii.ascii * list Ascii.ascii) :=
  match s with
  | c :: r =>
      if Ascii.eqb c "0" then Some ([c], r)
      else if is_digit c then let '(d, rest) := take_digits r in Some (c :: d, rest)
      else None
  | [] => None
  end.

(** [digits+], at least one *)
Definition parse_digits1 (s : list Ascii.ascii) : option (list Ascii.ascii * list Ascii.ascii) :=
  match take_digits s with
  | ([], _) => None
  | (d, rest) => Some (d, rest)
  end.

Definition parse_frac (s : list Ascii.ascii) : option (list Ascii.ascii * list Ascii.ascii) :=
  match s with
  | c :: r =>
      if Ascii.eqb c "." then
        match parse_digits1 r with Some (d, rest) => Some (c :: d, rest) | None => None end
      else Some ([], s)
  | [] => Some ([], s)
  end.

Definition parse_exp (s : list Ascii.ascii) : option (list Ascii.ascii * list Ascii.ascii) :=
  match s with
  | e :: r =>
      if Ascii.eqb e "e" || Ascii.eqb e "E" then
        let '(sign, r') :=
          match r with
          | c :: r'' => if Ascii.eqb c "+" || Ascii.eqb c "-" then ([c], r'') else ([], r)
          | [] => ([], r)
          end in
        match parse_digits1 r' with Some (d, rest) => Some (e :: sign ++ d, rest) | None => None end
      else Some ([], s)
  | [] => Some ([], s)
  end.

Definition parse_number (s : list Ascii.ascii) : option (list Ascii.ascii * list Ascii.ascii) :=
  let '(minus, s1) :=
    match s with
    | c :: r => if Ascii.eqb c "-" then ([c], r) else ([], s)
    | [] => ([], s)
    end in
  match parse_int_part s1 with
  | None => None
  | Some (i, s2) =>
      match parse_frac s2 with
      | None => None
      | Some (f, s3) =>
          match parse_exp s3 with
          | None => None
          | Some (e, s4) => Some (minus ++ i ++ f ++ e, s4)
          end
      end
  end.

(** ** Strings *)

Definition hex_value (c : Ascii.ascii) : option N :=
  let n := code c in
  if (48 <=? n)%N && (n <=? 57)%N then Some (n - 48)%N
  else if (97 <=? n)%N && (n <=? 102)%N then Some (n - 87)%N
  else if (65 <=? n)%N && (n <=? 70)%N then Some (n - 55)%N
  else None.

(** The UTF-8 bytes of a UTF-16 code unit, reversed (they are pushed on
    a reversed accumulator). *)
Definition utf8_rev (u : N) : list Ascii.ascii :=
  if (u <? 128)%N then [chr u]
  else if (u <? 2048)%N then [chr (128 + u mod 64); chr (192 + u / 64)]
  else [chr (128 + u mod 64); chr (128 + (u / 64) mod 64); chr (224 + u / 4096)].

(** The character a one-letter escape stands for. *)
Definition unescape (e : Ascii.ascii) : option Ascii.ascii :=
  let n := code e in
  if (n =? 34)%N then Some (chr 34)
  else if (n =? 92)%N then Some (chr 92)
  else if (n =? 47)%N then Some (chr 47)
  else if (n =? 98)%N then Some (chr 8)
  else if (n =? 102)%N then Some (chr 12)
  else if (n =? 110)%N then Some (chr 10)
  else if (n =? 114)%N then Some (chr 13)
  else if (n =? 116)%N then Some (chr 9)
  else None.

(** The characters after the opening quote, up to the closing one;
    [acc] is reversed. *)
Fixpoint parse_string_body (s : list Ascii.ascii) (acc : list Ascii.ascii)
  : option (string * list Ascii.ascii) :=
  match s with
  | [] => None
  | c :: r =>
      if (code c =? 34)%N then Some (String.string_of_list_ascii (rev acc), r)
      else if (code c =? 92)%N then
        match r with
        | e :: r' =>
            match unescape e with
            | Some ch => parse_string_body r' (ch :: acc)
            | None =>
                if Ascii.eqb e "u" then
                  match r' with
                  | h1 :: h2 :: h3 :: h4 :: r'' =>
                      match hex_value h1, hex_value h2, hex_value h3, hex_value h4 with
                      | Some a, Some b, Some c', Some d =>
                          parse_string_body r'' (utf8_rev (((a * 16 + b) * 16 + c') * 16 + d) ++ acc)
                      | _, _, _, _ => None
                      end
                  | _ => None
                  end
                else None
            end
        | [] => None
        end
      else if (code c <? 32)%N then None
      else parse_string_body r (c :: acc)
  end.

(** ** Objects *)

(** [obj[k] = v] *)
Fixpoint obj_set (fs : list (string * json)) (k : string) (v : json) : list (string * json) :=
  match fs with
  | [] => [(k, v)]
  | (k', v') :: rest => if String.eqb k' k then (k, v) :: rest else (k', v') :: obj_set rest k v
  end.

Fixpoint obj_get (fs : list (string * json)) (k : string) : option json :=
  match fs with
  | [] => None
  | (k', v) :: rest => if String.eqb k' k then Some v else obj_get rest k
  end.

(** ** Values: [JSON.parse]

    [parse_elements] and [parse_members] start after a ['['], ['{'] or
    [','], so that a unit of fuel is spent for every character read
    between two nested calls. *)

Fixpoint parse_value (fuel : nat) (s : list Ascii.ascii) : option (json * list Ascii.ascii) :=
  match fuel with
  | O => None
  | S f =>
      match s with
      | [] => None
      | c :: r =>
          if (code c =? 123)%N then
            match skip_ws r with
            | d :: r' => if (code d =? 125)%N then Some (JSObject [], r') else parse_members f r []
            | [] => None
            end
          else if (code c =? 91)%N then
            match skip_ws r with
            | d :: r' => if (code d =? 93)%N then Some (JSArray [], r') else parse_elements f r []
            | [] => None
            end
          else if (code c =? 34)%N then
            match parse_string_body r [] with
            | Some (str, rest) => Some (JSString str, rest)
            | None => None
            end
          else if Ascii.eqb c "t" then
            match expect ["r"; "u"; "e"]%char r with Some rest => Some (JSBool true, rest) | None => None end
          else if Ascii.eqb c "f" then
            match expect ["a"; "l"; "s"; "e"]%char r with Some rest => Some (JSBool false, rest) | None => None end
          else if Ascii.eqb c "n" then
            match expect ["u"; "l"; "l"]%char r with Some rest => Some (JSNull, rest) | None => None end
          else
            match parse_number s with
            | Some (lex, rest) => Some (JSNumber (String.string_of_list_ascii lex), rest)
            | None => None
            end
      end
  end
with parse_elements (fuel : nat) (s : list Ascii.ascii) (acc : list json)
  : option (json * list Ascii.ascii) :=
  match fuel with
  | O => None
  | S f =>
      match parse_value f (skip_ws s) with
      | Some (v, rest) =>
          match skip_ws rest with
          | c :: r =>
              if (code c =? 44)%N then parse_elements f r (v :: acc)
              else if (code c =? 93)%N then Some (JSArray (rev (v :: acc)), r)
              else None
          | [] => None
          end
      | None => None
      end
  end
with parse_members (fuel : nat) (s : list Ascii.ascii) (fs : list (string * json))
  : option (json * list Ascii.ascii) :=
  match fuel with
  | O => None
  | S f =>
      match skip_ws s with
      | c :: r =>
          if (code c =? 34)%N then
            match parse_string_body r [] with
            | Some (k, rest) =>
                match skip_ws rest with
                | d :: r' =>
                    if (code d =? 58)%N then
                      match parse_value f (skip_ws r') with
                      | Some (v, rest') =>
                          match skip_ws rest' with
                          | e :: r'' =>
                              if (code e =? 44)%N then parse_members f r'' (obj_set fs k v)
                              else if (code e =? 125)%N then Some (JSObject (obj_set fs k v), r'')
                              else None
                          | [] => None
                          end
                      | None => None
                      end
                    else None
                | [] => None
                end
            | None => None
            end
          else None
      | [] => None
      end
  end.

(** [JSON.parse(text)]: [None] is the [SyntaxError]. *)
Definition JSON_parse (text : string) : option json :=
  let l := String.list_ascii_of_string text in
  match parse_value (2 * length l + 1) (skip_ws l) with
  | Some (v, rest) => match skip_ws rest with [] => Some v | _ => None end
  | None => None
  end.

(** ** [JSON.stringify] *)

Definition hex_nibble (n : N) : Ascii.ascii := if (n <? 10)%N then chr (48 + n) else chr (87 + n).

Definition escape_char (c : Ascii.ascii) : string :=
  let n := code c in
  let bs := chr 92 in
  if (n =? 34)%N then String bs (String (chr 34) "")
  else if (n =? 92)%N then String bs (String bs "")
  else if (n =? 8)%N then String bs "b"
  else if (n =? 12)%N then String bs "f"
  else if (n =? 10)%N then String bs "n"
  else if (n =? 13)%N then String bs "r"
  else if (n =? 9)%N then String bs "t"
  else if (n <? 32)%N then
    String bs ("u00" +:+ String (hex_nibble (n / 16)) (String (hex_nibble (n mod 16)) ""))
  else String c "".

Fixpoint quote_body (s : string) : string :=
  match s with
  | EmptyString => ""
  | String c r => escape_char c +:+ quote_body r
  end.

Definition quote (s : string) : string := String (chr 34) (quote_body s +:+ String (chr 34) "").

Fixpoint stringify (j : json) : string :=
  match j with
  | JSNull => "null"
  | JSBool b => if b then "true" else "false"
  | JSNumber lex => lex
  | JSString s => quote s
  | JSArray items => "[" +:+ join_with "," (map stringify items) +:+ "]"
  | JSObject fs =>
      "{" +:+ join_with "," (map (fun '(k, v) => quote k +:+ ":" +:+ stringify v) fs) +:+ "}"
  end.

(** ** Property access on a JavaScript value *)

Inductive jsval : Type :=
| JUndefined
| JV (j : json).

(** [v[k]]: [None] is the [TypeError] of reading a property of
    [undefined] or [null]; other primitives and arrays have no such own
    data property here. *)
Definition get_prop (v : jsval) (k : string) : option jsval :=
  match v with
  | JUndefined | JV JSNull => None
  | JV (JSObject fs) => Some (match obj_get fs k with Some x => JV x | None => JUndefined end)
  | JV _ => Some JUndefined
  end.

(** [v === s] for a string [s] *)
Definition strict_eq_string (v : jsval) (s : string) : bool :=
  match v with
  | JV (JSString s') => String.eqb s' s
  | _ => false
  end.

(** ** Examples *)

Definition event_example : json :=
  JSObject [("id", JSString "evt_1"); ("type", JSString "checkout.session.completed");
            ("created", JSNumber "1700000000");
            ("data", JSObject [("object", JSObject [("id", JSString "cs_test_a1"); ("amount_total", JSNumber "-2.5e+3");
                                                   ("livemode", JSBool false); ("customer", JSNull)])]);
            ("tags", JSArray [JSString "a\b"; JSArray []; JSObject []])].

Example stringify_parse_event : JSON_parse (stringify event_example) = Some event_example.
Proof. vm_compute. reflexivity. Qed.

(** Whitespace, a repeated key (the last value wins, in the first
    position) and a [\u] escape. *)
Example parse_ws_dup :
  let q := String (chr 34) "" in
  JSON_parse (" { " +:+ q +:+ "a" +:+ q +:+ " : 1 , " +:+ q +:+ "b" +:+ q +:+ ":[ true ,null ], "
              +:+ q +:+ "a" +:+ q +:+ ":" +:+ q +:+ String (chr 92) "u0041x" +:+ q +:+ " } ") =
  Some (JSObject [("a", JSString "Ax"); ("b", JSArray [JSBool true; JSNull])]).
Proof. vm_compute. reflexivity. Qed.

Example parse_rejects_trailing : JSON_parse "[1] x" = None.
Proof. vm_compute. reflexivity. Qed.

Example parse_rejects_leading_zero : JSON_parse "01" = None.
Proof. vm_compute. reflexivity. Qed.
