(* ===== verification/JsonRoundtrip.v ===== *)
(** * [JSON.parse] inverts [JSON.stringify]

    The checkout handler sends a session with [c.json(session)], that is
    [JSON.stringify(session)] (index.ts 92), and the page's script reads
    it back with [response.json()], that is [JSON.parse] (index.ts 35).
    This file proves that [JSON_parse (stringify j) = Some j] for every
    well-formed value [j] ([wf_json]: number lexemes that the grammar
    accepts, no repeated key in an object), with the fuel [JSON_parse]
    gives its parser.

    The proof goes through the text as a list of characters ([chars]):
    one lemma per lexical class (escaped characters, quoted strings,
    number lexemes followed by a delimiter), then one induction on the
    value, with [jfuel j] the fuel its parse needs, bounded by the
    length of its text. *)

From S2P Require Import Prelude JsBuiltins Json.

Abbreviation chars := String.list_ascii_of_string.

(** ** Characters of a text *)

Lemma chars_app (a b : string) : chars (a +:+ b) = chars a ++ chars b.
Proof. induction a as [|c a IH]; [done|]. rewrite string_app_cons. cbn. by rewrite IH. Qed.

Lemma chars_length (a : string) : length (chars a) = String.length a.
Proof. induction a as [|c a IH]; cbn; auto. Qed.

#[export] Hint Rewrite chars_app : jsdb.

(** ** Strings *)

(** The parser reads back each character [escape_char] writes. *)
Lemma parse_string_body_escape c r acc :
  parse_string_body (chars (escape_char c) ++ r) acc = parse_string_body r (c :: acc).
Proof. destruct c as [[] [] [] [] [] [] [] []]; reflexivity. Qed.

Lemma parse_string_body_quote s r acc :
  parse_string_body (chars (quote_body s) ++ chr 34 :: r) acc =
  Some (String.string_of_list_ascii (rev acc ++ chars s), r).
Proof.
  revert acc. induction s as [|c s IH]; intros acc.
  - cbn. by rewrite app_nil_r.
  - cbn [quote_body]. rewrite chars_app, <- app_assoc, parse_string_body_escape, IH.
    cbn. by rewrite <- app_assoc.
Qed.

Lemma chars_quote s : chars (quote s) = chr 34 :: chars (quote_body s) ++ [chr 34].
Proof. unfold quote. cbn. by rewrite chars_app. Qed.

Lemma parse_quoted s r :
  parse_string_body (chars (quote_body s) ++ chr 34 :: r) [] = Some (s, r).
Proof. rewrite parse_string_body_quote. cbn. by rewrite String.string_of_list_ascii_of_string. Qed.

(** ** Number lexemes *)

(** What may follow a number lexeme without extending it: the end of
    the text, or a character that no part of a number starts with. *)
Definition delimited (s : list Ascii.ascii) : bool :=
  match s with
  | [] => true
  | c :: _ => negb (is_digit c) && negb (Ascii.eqb c ".") && negb (Ascii.eqb c "e") && negb (Ascii.eqb c "E")
  end.

Lemma delimited_cons c s :
  delimited (c :: s) = true ->
  is_digit c = false /\ Ascii.eqb c "." = false /\ Ascii.eqb c "e" = false /\ Ascii.eqb c "E" = false.
Proof. cbn. by destruct (is_digit c), (Ascii.eqb c "."), (Ascii.eqb c "e"), (Ascii.eqb c "E"). Qed.

Lemma delimited_digit c s : delimited (c :: s) = true -> is_digit c = false.
Proof. apply delimited_cons. Qed.

(** Each stage of the number grammar reads a prefix of its input: the
    result and the rest make up the input. *)
Lemma take_digits_split x : let '(d, rest) := take_digits x in x = d ++ rest.
Proof.
  induction x as [|c x IH]; [done|]. cbn [take_digits].
  destruct (is_digit c); [|done]. destruct (take_digits x). cbn. by f_equal.
Qed.

Lemma take_digits_app x s d rest :
  take_digits x = (d, rest) -> (rest = [] -> delimited s = true) -> take_digits (x ++ s) = (d, rest ++ s).
Proof.
  revert d rest. induction x as [|c x IH]; intros d rest Hx Hs; cbn [app take_digits] in *.
  - injection Hx as <- <-. destruct s as [|c s]; [done|]. cbn [take_digits].
    by rewrite (delimited_digit c s (Hs eq_refl)).
  - destruct (is_digit c); [|by injection Hx as <- <-].
    destruct (take_digits x) as [d' r'] eqn:Ht. injection Hx as <- <-.
    by rewrite (IH d' r').
Qed.

Lemma parse_digits1_app x s d rest :
  parse_digits1 x = Some (d, rest) -> (rest = [] -> delimited s = true) ->
  parse_digits1 (x ++ s) = Some (d, rest ++ s).
Proof.
  unfold parse_digits1. destruct (take_digits x) as [d' r'] eqn:Ht.
  destruct d' as [|c d']; [discriminate|]. intros [= <- <-] Hs.
  by rewrite (take_digits_app _ _ _ _ Ht Hs).
Qed.

Lemma parse_int_part_app x s i rest :
  parse_int_part x = Some (i, rest) -> (rest = [] -> delimited s = true) ->
  parse_int_part (x ++ s) = Some (i, rest ++ s).
Proof.
  destruct x as [|c x]; [discriminate|]. cbn [app parse_int_part].
  destruct (Ascii.eqb c "0"); [by intros [= <- <-]|].
  destruct (is_digit c); [|discriminate].
  destruct (take_digits x) as [d r] eqn:Ht. intros [= <- <-] Hs.
  by rewrite (take_digits_app _ _ _ _ Ht Hs).
Qed.

Lemma parse_frac_app x s f rest :
  parse_frac x = Some (f, rest) -> (rest = [] -> delimited s = true) ->
  parse_frac (x ++ s) = Some (f, rest ++ s).
Proof.
  destruct x as [|c x]; cbn [app parse_frac].
  - intros [= <- <-] Hs. destruct s as [|c s]; [done|].
    destruct (delimited_cons c s (Hs eq_refl)) as (_ & Hdot & _). cbn [parse_frac]. by rewrite Hdot.
  - destruct (Ascii.eqb c "."); [|by intros [= <- <-]].
    destruct (parse_digits1 x) as [[d r]|] eqn:Hd; [|discriminate]. intros [= <- <-] Hs.
    by rewrite (parse_digits1_app _ _ _ _ Hd Hs).
Qed.

Lemma parse_exp_app x s e rest :
  parse_exp x = Some (e, rest) -> (rest = [] -> delimited s = true) ->
  parse_exp (x ++ s) = Some (e, rest ++ s).
Proof.
  destruct x as [|c x]; cbn [app parse_exp].
  - intros [= <- <-] Hs. destruct s as [|c s]; [done|].
    destruct (delimited_cons c s (Hs eq_refl)) as (_ & _ & He & HE). cbn [parse_exp]. by rewrite He, HE.
  - destruct (Ascii.eqb c "e" || Ascii.eqb c "E"); [|by intros [= <- <-]].
    destruct x as [|c' x]; [discriminate|]. cbn [app].
    destruct (Ascii.eqb c' "+" || Ascii.eqb c' "-").
    + destruct (parse_digits1 x) as [[d r]|] eqn:Hd; [|discriminate]. intros [= <- <-] Hs.
      by rewrite (parse_digits1_app _ _ _ _ Hd Hs).
    + destruct (parse_digits1 (c' :: x)) as [[d r]|] eqn:Hd; [|discriminate]. intros [= <- <-] Hs.
      change (c' :: x ++ s) with ((c' :: x) ++ s). by rewrite (parse_digits1_app (c' :: x) _ _ _ Hd Hs).
Qed.


(** The part after the sign. *)
Lemma number_tail_app (m y s lex : list Ascii.ascii) :
  match parse_int_part y with
  | None => None
  | Some (i, s2) =>
      match parse_frac s2 with
      | None => None
      | Some (f, s3) => match parse_exp s3 with None => None | Some (e, s4) => Some (m ++ i ++ f ++ e, s4) end
      end
  end = Some (lex, []) -> delimited s = true ->
  match parse_int_part (y ++ s) with
  | None => None
  | Some (i, s2) =>
      match parse_frac s2 with
      | None => None
      | Some (f, s3) => match parse_exp s3 with None => None | Some (e, s4) => Some (m ++ i ++ f ++ e, s4) end
      end
  end = Some (lex, s).
Proof.
  intros Hx Hs.
  destruct (parse_int_part y) as [[i s2]|] eqn:Hi; [|discriminate].
  destruct (parse_frac s2) as [[f s3]|] eqn:Hf; [|discriminate].
  destruct (parse_exp s3) as [[e s4]|] eqn:He; [|discriminate].
  injection Hx as <- ->.
  rewrite (parse_int_part_app _ _ _ _ Hi (fun _ => Hs)), (parse_frac_app _ _ _ _ Hf (fun _ => Hs)),
    (parse_exp_app _ _ _ _ He (fun _ => Hs)).
  reflexivity.
Qed.

(** A number lexeme is read up to the delimiter after it. *)
Lemma parse_number_app x s lex :
  parse_number x = Some (lex, []) -> delimited s = true -> parse_number (x ++ s) = Some (lex, s).
Proof.
  intros Hx Hs. destruct x as [|c x]; [discriminate|]. unfold parse_number in *.
  cbn [app] in *. destruct (Ascii.eqb c "-").
  - by apply number_tail_app.
  - change (c :: x ++ s) with ((c :: x) ++ s). by apply number_tail_app.
Qed.

(** ** Well-formed values and the fuel their parse needs *)

(** The grammar accepts [lex] as a whole number lexeme. *)
Definition number_lexeme (lex : string) : bool :=
  bool_decide (parse_number (chars lex) = Some (chars lex, [])).

(** What [JSON.stringify] of a value parsed back requires: number
    lexemes of the grammar and, in each object, distinct keys. *)
Fixpoint wf_json (j : json) : bool :=
  match j with
  | JSNumber lex => number_lexeme lex
  | JSArray items => forallb wf_json items
  | JSObject fs => bool_decide (NoDup (map fst fs)) && forallb (fun '(_, v) => wf_json v) fs
  | _ => true
  end.

(** [parse_value] spends one unit on the value and [parse_elements] /
    [parse_members] one per element, each element getting what is
    left. *)
Fixpoint jfuel (j : json) : nat :=
  match j with
  | JSArray items => S (fold_right (fun x n => S (Nat.max (jfuel x) n)) 0 items)
  | JSObject fs => S (fold_right (fun '(_, v) n => S (Nat.max (jfuel v) n)) 0 fs)
  | _ => 1
  end.

Section json_nested_ind.
Variable P : json -> Prop.
Hypothesis Pnull : P JSNull.
Hypothesis Pbool : forall b, P (JSBool b).
Hypothesis Pnum : forall lex, P (JSNumber lex).
Hypothesis Pstr : forall s, P (JSString s).
Hypothesis Parr : forall items, Forall P items -> P (JSArray items).
Hypothesis Pobj : forall fs, Forall (fun kv => P kv.2) fs -> P (JSObject fs).

(** Induction on values, with the hypothesis on every element and
    every property value. *)
Fixpoint json_nested_ind (j : json) : P j :=
  match j with
  | JSNull => Pnull
  | JSBool b => Pbool b
  | JSNumber lex => Pnum lex
  | JSString s => Pstr s
  | JSArray items =>
      Parr items ((fix go (l : list json) : Forall P l :=
                     match l with
                     | [] => @List.Forall_nil _ P
                     | x :: l' => @List.Forall_cons _ P x l' (json_nested_ind x) (go l')
                     end) items)
  | JSObject fs =>
      Pobj fs ((fix go (l : list (string * json)) : Forall (fun kv => P kv.2) l :=
                  match l with
                  | [] => @List.Forall_nil _ (fun kv => P kv.2)
                  | (k, v) :: l' => @List.Forall_cons _ (fun kv => P kv.2) (k, v) l' (json_nested_ind v) (go l')
                  end) fs)
  end.
End json_nested_ind.

(** ** The first character of a value's text *)

Lemma parse_number_head x lex :
  parse_number x = Some (lex, []) -> exists c t, x = c :: t /\ (c = "-"%char \/ is_digit c = true).
Proof.
  intros H. destruct x as [|c t]; [discriminate|]. exists c, t. split; [done|].
  unfold parse_number in H. destruct (Ascii.eqb c "-") eqn:Hm.
  - left. by apply Ascii.eqb_eq.
  - right. cbn -[is_digit parse_frac parse_exp take_digits] in H.
    destruct (Ascii.eqb c "0") eqn:H0.
    + apply Ascii.eqb_eq in H0. by subst.
    + by destruct (is_digit c).
Qed.

Lemma skip_ws_not_ws c t : is_ws c = false -> skip_ws (c :: t) = c :: t.
Proof. intros H. cbn. by rewrite H. Qed.

(** A number lexeme is dispatched to [parse_number]. *)
Lemma parse_value_number f c t lex rest :
  (c = "-"%char \/ is_digit c = true) -> parse_number (c :: t) = Some (lex, rest) ->
  skip_ws (c :: t) = c :: t /\
  parse_value (S f) (c :: t) = Some (JSNumber (String.string_of_list_ascii lex), rest).
Proof.
  intros Hc Hp. destruct Hc as [->|Hd].
  - cbn -[parse_number]. by rewrite Hp.
  - destruct c as [[] [] [] [] [] [] [] []]; try discriminate; cbn -[parse_number]; by rewrite Hp.
Qed.

(** ** Values *)

(** What is proved of every well-formed value: its text starts with a
    character that is neither blank nor [']'], and the parser reads the
    value back from it, whatever delimited text follows, given the fuel
    [jfuel]. *)
Definition parses_back (j : json) : Prop :=
  wf_json j = true ->
  (exists c t, chars (stringify j) = c :: t /\ is_ws c = false /\ (code c =? 93)%N = false) /\
  forall f rest, jfuel j <= f -> delimited rest = true ->
  parse_value f (chars (stringify j) ++ rest) = Some (j, rest).

Definition efuel : list json -> nat := fold_right (fun x n => S (Nat.max (jfuel x) n)) 0.

Definition member_text (kv : string * json) : string :=
  let '(k, v) := kv in quote k +:+ ":" +:+ stringify v.

Definition mfuel : list (string * json) -> nat := fold_right (fun '(_, v) n => S (Nat.max (jfuel v) n)) 0.

Lemma skip_ws_value j rest :
  parses_back j -> wf_json j = true -> skip_ws (chars (stringify j) ++ rest) = chars (stringify j) ++ rest.
Proof. intros Hp Hw. destruct (Hp Hw) as [(c & t & -> & Hc & _) _]. cbn. by rewrite Hc. Qed.

Lemma obj_set_fresh fs k v : k ∉ map fst fs -> obj_set fs k v = fs ++ [(k, v)].
Proof.
  induction fs as [|[k' v'] fs IH]; [done|]. cbn. rewrite not_elem_of_cons. intros [Hk Hn].
  rewrite string_eqb_neq by congruence. by rewrite IH.
Qed.

Section Step.
Context (x : json) (Hx : parses_back x) (Hw : wf_json x = true).

(** One element of an array, followed by [','] or [']']. *)
Lemma parse_elements_comma f tl acc :
  jfuel x <= f ->
  parse_elements (S f) (chars (stringify x) ++ ","%char :: tl) acc = parse_elements f tl (x :: acc).
Proof.
  intros Hf. destruct (Hx Hw) as [_ Hp]. cbn [parse_elements].
  rewrite skip_ws_value, Hp by done. reflexivity.
Qed.

Lemma parse_elements_close f tl acc :
  jfuel x <= f ->
  parse_elements (S f) (chars (stringify x) ++ "]"%char :: tl) acc = Some (JSArray (rev (x :: acc)), tl).
Proof.
  intros Hf. destruct (Hx Hw) as [_ Hp]. cbn [parse_elements].
  rewrite skip_ws_value, Hp by done. reflexivity.
Qed.
End Step.

Lemma parse_elements_join items acc f rest :
  items <> [] -> Forall parses_back items -> forallb wf_json items = true -> efuel items <= f ->
  parse_elements f (chars (join_with "," (map stringify items)) ++ "]"%char :: rest) acc =
  Some (JSArray (rev acc ++ items), rest).
Proof.
  revert acc f. induction items as [|x items IH]; intros acc f Hne Hall Hwf Hf; [done|].
  apply Forall_cons in Hall as [Hx Hall]. cbn [forallb] in Hwf. apply andb_prop in Hwf as [Hwx Hwf].
  cbn [efuel fold_right] in Hf. destruct f as [|f]; [lia|].
  destruct items as [|y items].
  - cbn [map join_with].
    by rewrite parse_elements_close by (done || lia).
  - rewrite map_cons, join_with_cons, chars_app by done.
    cbn [String.list_ascii_of_string]. rewrite <- app_assoc. cbn [app].
    rewrite parse_elements_comma, IH by (done || lia). cbn. by rewrite <- app_assoc.
Qed.

Lemma chars_member k v :
  chars (member_text (k, v)) = chr 34 :: chars (quote_body k) ++ chr 34 :: ":"%char :: chars (stringify v).
Proof. cbn [member_text]. rewrite !chars_app, chars_quote. cbn [app String.list_ascii_of_string]. by rewrite <- !app_assoc. Qed.

Section MStep.
Context (k : string) (v : json) (Hv : parses_back v) (Hw : wf_json v = true).

Lemma parse_members_comma f tl fs :
  jfuel v <= f ->
  parse_members (S f) (chars (member_text (k, v)) ++ ","%char :: tl) fs = parse_members f tl (obj_set fs k v).
Proof.
  intros Hf. destruct (Hv Hw) as [_ Hp]. rewrite chars_member, <- app_comm_cons, <- app_assoc.
  cbn [parse_members]. rewrite skip_ws_not_ws by reflexivity. simpl (code _ =? _)%N. cbv iota.
  cbn [app]. rewrite parse_quoted, skip_ws_not_ws by reflexivity. simpl (code _ =? _)%N. cbv iota.
  rewrite skip_ws_value, Hp by done. rewrite skip_ws_not_ws by reflexivity. reflexivity.
Qed.

Lemma parse_members_close f tl fs :
  jfuel v <= f ->
  parse_members (S f) (chars (member_text (k, v)) ++ "}"%char :: tl) fs = Some (JSObject (obj_set fs k v), tl).
Proof.
  intros Hf. destruct (Hv Hw) as [_ Hp]. rewrite chars_member, <- app_comm_cons, <- app_assoc.
  cbn [parse_members]. rewrite skip_ws_not_ws by reflexivity. simpl (code _ =? _)%N. cbv iota.
  cbn [app]. rewrite parse_quoted, skip_ws_not_ws by reflexivity. simpl (code _ =? _)%N. cbv iota.
  rewrite skip_ws_value, Hp by done. rewrite skip_ws_not_ws by reflexivity. reflexivity.
Qed.
End MStep.


Lemma parse_members_join fs0 members f rest :
  members <> [] -> Forall (fun kv => parses_back kv.2) members ->
  forallb (fun '(_, v) => wf_json v) members = true ->
  NoDup (map fst (fs0 ++ members)) -> mfuel members <= f ->
  parse_members f (chars (join_with "," (map member_text members)) ++ "}"%char :: rest) fs0 =
  Some (JSObject (fs0 ++ members), rest).
Proof.
  revert fs0 f. induction members as [|[k v] members IH]; intros fs0 f Hne Hall Hwf Hnd Hf; [done|].
  apply Forall_cons in Hall as [Hv Hall]. cbn [forallb] in Hwf. apply andb_prop in Hwf as [Hwv Hwf].
  cbn [mfuel fold_right] in Hf. destruct f as [|f]; [lia|].
  assert (Hk : k ∉ map fst fs0).
  { rewrite map_app in Hnd. apply NoDup_app in Hnd as (_ & Hdis & _).
    intros Hin. apply (Hdis k Hin). cbn. apply list_elem_of_here. }
  destruct members as [|m members].
  - cbn [map join_with]. rewrite parse_members_close, obj_set_fresh by (done || lia). done.
  - rewrite map_cons, join_with_cons, chars_app by done.
    cbn [String.list_ascii_of_string]. rewrite <- app_assoc. cbn [app].
    rewrite parse_members_comma, obj_set_fresh by (done || lia).
    rewrite IH by (rewrite <- ?app_assoc; done || lia). by rewrite <- app_assoc.
Qed.


(** The first step of [parse_value] on a string, an array, an object. *)
Lemma parse_value_quote f r :
  parse_value (S f) (chr 34 :: r) =
  match parse_string_body r [] with Some (str, rest) => Some (JSString str, rest) | None => None end.
Proof. reflexivity. Qed.

Lemma parse_value_array f r :
  parse_value (S f) ("["%char :: r) =
  match skip_ws r with
  | d :: r' => if (code d =? 93)%N then Some (JSArray [], r') else parse_elements f r []
  | [] => None
  end.
Proof. reflexivity. Qed.

Lemma parse_value_object f r :
  parse_value (S f) ("{"%char :: r) =
  match skip_ws r with
  | d :: r' => if (code d =? 125)%N then Some (JSObject [], r') else parse_members f r []
  | [] => None
  end.
Proof. reflexivity. Qed.

Lemma number_head_char c :
  c = "-"%char \/ is_digit c = true -> is_ws c = false /\ (code c =? 93)%N = false.
Proof. intros [->|H]; [done|]. destruct c as [[] [] [] [] [] [] [] []]; done. Qed.

(** The text of a non-empty list starts with the text of its head. *)
Lemma chars_join_head {A} (g : A -> string) x l :
  exists tl, chars (join_with "," (map g (x :: l))) = chars (g x) ++ tl.
Proof.
  destruct l as [|y l]; [exists []; by rewrite app_nil_r|].
  rewrite map_cons, join_with_cons, chars_app by done. eauto.
Qed.

Lemma chars_wrap (o c : Ascii.ascii) (s : string) :
  chars (String o "" +:+ s +:+ String c "") = o :: chars s ++ [c].
Proof. rewrite string_app_cons, string_app_nil_l. cbn [String.list_ascii_of_string]. by rewrite chars_app. Qed.


Lemma array_open f l r :
  (exists c t, l = c :: t /\ is_ws c = false /\ (code c =? 93)%N = false) ->
  parse_value (S f) ("["%char :: l ++ r) = parse_elements f (l ++ r) [].
Proof.
  intros (c & t & -> & Hws & H93). rewrite parse_value_array. cbn [app].
  rewrite skip_ws_not_ws by done. by rewrite H93.
Qed.

Lemma object_open f l r :
  (exists c t, l = c :: t /\ is_ws c = false /\ (code c =? 125)%N = false) ->
  parse_value (S f) ("{"%char :: l ++ r) = parse_members f (l ++ r) [].
Proof.
  intros (c & t & -> & Hws & H125). rewrite parse_value_object. cbn [app].
  rewrite skip_ws_not_ws by done. by rewrite H125.
Qed.

Lemma parses_back_array items : Forall parses_back items -> parses_back (JSArray items).
Proof.
  intros Hall Hw. cbn [wf_json] in Hw. cbn [stringify]. rewrite chars_wrap.
  split; [by eexists _, _|]. intros f rest Hf Hd.
  change (S (efuel items) <= f) in Hf. destruct f as [|f]; [lia|].
  rewrite <- app_comm_cons, <- app_assoc. cbn [app].
  destruct items as [|x items]; [reflexivity|].
  rewrite array_open.
  - rewrite parse_elements_join by (done || lia). done.
  - destruct (chars_join_head stringify x items) as [tl ->].
    apply Forall_cons in Hall as [Hx _]. cbn [forallb] in Hw. apply andb_prop in Hw as [Hwx _].
    destruct (Hx Hwx) as [(c & t & -> & Hc) _]. by eexists c, _.
Qed.

Lemma parses_back_object fs : Forall (fun kv => parses_back kv.2) fs -> parses_back (JSObject fs).
Proof.
  intros Hall Hw. cbn [wf_json] in Hw. apply andb_prop in Hw as [Hnd Hw]. apply bool_decide_eq_true in Hnd.
  cbn [stringify]. fold member_text. rewrite chars_wrap.
  split; [by eexists _, _|]. intros f rest Hf Hd.
  change (S (mfuel fs) <= f) in Hf. destruct f as [|f]; [lia|].
  rewrite <- app_comm_cons, <- app_assoc. cbn [app].
  destruct fs as [|[k v] fs]; [reflexivity|].
  rewrite object_open.
  - rewrite (parse_members_join []) by (done || lia). done.
  - destruct (chars_join_head member_text (k, v) fs) as [tl ->]. rewrite chars_member. by eexists _, _.
Qed.


Lemma parses_back_number lex : parses_back (JSNumber lex).
Proof.
  intros Hw. cbn [wf_json number_lexeme] in Hw. apply bool_decide_eq_true in Hw.
  destruct (parse_number_head _ _ Hw) as (c & t & Hct & Hc). cbn [stringify]. rewrite Hct.
  split; [exists c, t; split; [done|]; by apply number_head_char|].
  intros f rest Hf Hd. destruct f as [|f]; [cbn in Hf; lia|].
  cbn [app]. assert (Happ : parse_number (c :: t ++ rest) = Some (chars lex, rest)).
  { change (c :: t ++ rest) with ((c :: t) ++ rest). rewrite <- Hct. by apply parse_number_app. }
  destruct (parse_value_number f c (t ++ rest) (chars lex) rest Hc Happ) as [_ ->].
  by rewrite String.string_of_list_ascii_of_string.
Qed.

Lemma parses_back_string s : parses_back (JSString s).
Proof.
  intros _. cbn [stringify]. rewrite chars_quote. split; [by eexists _, _|].
  intros f rest Hf Hd. destruct f as [|f]; [cbn in Hf; lia|].
  rewrite <- app_comm_cons, <- app_assoc. cbn [app]. by rewrite parse_value_quote, parse_quoted.
Qed.

(** Every well-formed value is read back from its text. *)
Lemma stringify_parses_back j : parses_back j.
Proof.
  induction j as [| b | lex | s | items Hall | fs Hall] using json_nested_ind.
  - intros _. split; [by eexists _, _|]. intros [|f] rest Hf _; [cbn in Hf; lia|]. reflexivity.
  - intros _. split; [destruct b; by eexists _, _|].
    intros [|f] rest Hf _; [cbn in Hf; lia|]. destruct b; reflexivity.
  - apply parses_back_number.
  - apply parses_back_string.
  - by apply parses_back_array.
  - by apply parses_back_object.
Qed.


(** ** The fuel [JSON_parse] gives is enough *)

Lemma fold_fuel_le {A} (g : A -> string) (w : A -> nat) (l : list A) :
  Forall (fun x => w x <= length (chars (g x))) l ->
  fold_right (fun x n => S (Nat.max (w x) n)) 0 l <= length (chars (join_with "," (map g l))) + 1.
Proof.
  induction l as [|x [|y l] IH]; intros Hall; cbn [fold_right]; [lia| |].
  - apply Forall_cons in Hall as [Hx _]. cbn [map join_with]. lia.
  - apply Forall_cons in Hall as [Hx Hall]. specialize (IH Hall). cbn [fold_right] in IH.
    rewrite map_cons, join_with_cons, chars_app by done. cbn [String.list_ascii_of_string].
    rewrite length_app. cbn [length]. lia.
Qed.

Lemma mfuel_snd fs : mfuel fs = fold_right (fun kv n => S (Nat.max (jfuel kv.2) n)) 0 fs.
Proof. induction fs as [|[k v] fs IH]; cbn; auto. Qed.

Lemma length_chars_wrap o c s : length (chars (String o "" +:+ s +:+ String c "")) = length (chars s) + 2.
Proof. rewrite chars_wrap. cbn [length]. rewrite length_app. cbn [length]. lia. Qed.

(** A value's parse needs no more fuel than its text has characters. *)
Lemma jfuel_le_length j : wf_json j = true -> jfuel j <= length (chars (stringify j)).
Proof.
  induction j as [| b | lex | s | items Hall | fs Hall] using json_nested_ind; intros Hw.
  - cbn. lia.
  - destruct b; cbn; lia.
  - cbn [wf_json number_lexeme] in Hw. apply bool_decide_eq_true in Hw.
    destruct (parse_number_head _ _ Hw) as (c & t & Hct & _). cbn [stringify jfuel]. rewrite Hct. cbn. lia.
  - cbn [stringify jfuel]. rewrite chars_quote. cbn. lia.
  - cbn [stringify]. rewrite length_chars_wrap. change (S (efuel items) <= length (chars (join_with "," (map stringify items))) + 2).
    cbn [wf_json] in Hw. rewrite forallb_forall in Hw.
    enough (efuel items <= length (chars (join_with "," (map stringify items))) + 1) by lia.
    apply fold_fuel_le, Forall_forall. intros x Hx. rewrite Forall_forall in Hall.
    apply Hall, Hw; [done|]. by apply list_elem_of_In.
  - cbn [stringify]. fold member_text. rewrite length_chars_wrap.
    change (S (mfuel fs) <= length (chars (join_with "," (map member_text fs))) + 2).
    cbn [wf_json] in Hw. apply andb_prop in Hw as [_ Hw]. rewrite forallb_forall in Hw.
    enough (mfuel fs <= length (chars (join_with "," (map member_text fs))) + 1) by lia.
    rewrite mfuel_snd. apply fold_fuel_le, Forall_forall. intros [k v] Hkv. rewrite Forall_forall in Hall.
    rewrite chars_member. cbn [length]. rewrite length_app. cbn [length].
    enough (jfuel v <= length (chars (stringify v))) by (cbn; lia).
    apply (Hall (k, v) Hkv), (Hw (k, v)). by apply list_elem_of_In.
Qed.

(** [JSON.parse] reads back what [JSON.stringify] writes, for
    every value whose numbers are lexemes of the grammar and whose
    objects have distinct keys. *)
Theorem JSON_parse_stringify j : wf_json j = true -> JSON_parse (stringify j) = Some j.
Proof.
  intros Hw. destruct (stringify_parses_back j Hw) as [(c & t & Hct & Hws & _) Hp].
  unfold JSON_parse. rewrite Hct, skip_ws_not_ws by done. rewrite <- Hct, <- (app_nil_r (chars _)).
  rewrite Hp by (pose proof (jfuel_le_length j Hw); rewrite ?app_nil_r; lia || done).
  reflexivity.
Qed.
