(* ===== verification/Sha256.v ===== *)
(** * HMAC-SHA256 with a hex digest

    What [crypto.createHmac('sha256', secret).update(payload, 'utf8')
    .digest('hex')] computes in the Node crypto provider of the Stripe
    library: SHA-256 (FIPS 180-4) on 32-bit words kept as [Z] with their
    wrap-around written out, HMAC (RFC 2104) with 64-byte blocks, and
    the lower-case hex encoding of the 32-byte digest.  Bytes are [Z]
    values in [0, 255]; strings are byte strings, so the UTF-8 encoding
    of the key and of the payload is the identity here.

    The digest always has 32 bytes and its hex form 64 lower-case hex
    characters; these are the laws the webhook verification relies on. *)

From S2P Require Import Prelude JsBuiltins.

Module Sha256.

Local Open Scope Z_scope.

Definition MOD32 : Z := 2 ^ 32.

(** [x >>> n] on a 32-bit word *)
Definition rotr (n x : Z) : Z := Z.lor (Z.shiftr x n) (Z.shiftl x (32 - n) mod MOD32).

Definition not32 (x : Z) : Z := Z.lxor x (MOD32 - 1).

Definition Ch (x y z : Z) : Z := Z.lxor (Z.land x y) (Z.land (not32 x) z).
Definition Maj (x y z : Z) : Z := Z.lxor (Z.lxor (Z.land x y) (Z.land x z)) (Z.land y z).
Definition Sigma0 (x : Z) : Z := Z.lxor (Z.lxor (rotr 2 x) (rotr 13 x)) (rotr 22 x).
Definition Sigma1 (x : Z) : Z := Z.lxor (Z.lxor (rotr 6 x) (rotr 11 x)) (rotr 25 x).
Definition sigma0 (x : Z) : Z := Z.lxor (Z.lxor (rotr 7 x) (rotr 18 x)) (Z.shiftr x 3).
Definition sigma1 (x : Z) : Z := Z.lxor (Z.lxor (rotr 17 x) (rotr 19 x)) (Z.shiftr x 10).

(** The constants of FIPS 180-4 4.2.2 and 5.3.3, computed as the
    standard defines them: the first 32 bits of the fractional parts of
    the cube roots of the first 64 primes, and of the square roots of
    the first 8. *)
Definition is_prime (n : Z) : bool :=
  (1 <? n) && forallb (fun d => negb (n mod d =? 0)) (map Z.of_nat (seq 2 (Z.to_nat (Z.sqrt n) - 1))).

Definition first_primes (k : nat) : list Z :=
  firstn k (filter is_prime (map Z.of_nat (seq 2 400))).

(** Bisection keeping [lo^3 <= n < hi^3]. *)
Fixpoint cbrt_go (fuel : nat) (n lo hi : Z) : Z :=
  match fuel with
  | O => lo
  | S f =>
      if hi - lo <=? 1 then lo
      else let mid := (lo + hi) / 2 in
           if mid * mid * mid <=? n then cbrt_go f n mid hi else cbrt_go f n lo mid
  end.

Definition icbrt (n : Z) : Z := cbrt_go 200 n 0 (2 ^ (Z.log2 n / 3 + 1)).

Definition frac_cbrt32 (p : Z) : Z := icbrt (p * 2 ^ 96) mod MOD32.
Definition frac_sqrt32 (p : Z) : Z := Z.sqrt (p * 2 ^ 64) mod MOD32.

Definition K : list Z := Eval vm_compute in map frac_cbrt32 (first_primes 64).

(** The eight working variables / hash words. *)
Record state := mkState { ha : Z; hb : Z; hc : Z; hd : Z; he : Z; hf : Z; hg : Z; hh : Z }.

Definition H0 : state := Eval vm_compute in
  match map frac_sqrt32 (first_primes 8) with
  | [a; b; c; d; e; f; g; h] => mkState a b c d e f g h
  | _ => mkState 0 0 0 0 0 0 0 0
  end.

(** Message schedule: [w] holds the words computed so far, latest
    first; each step adds [sigma1 W(t-2) + W(t-7) + sigma0 W(t-15) + W(t-16)]. *)
Fixpoint extend (steps : nat) (w : list Z) : list Z :=
  match steps with
  | O => w
  | S k =>
      let wt := (sigma1 (nth 1 w 0) + nth 6 w 0 + sigma0 (nth 14 w 0) + nth 15 w 0) mod MOD32 in
      extend k (wt :: w)
  end.

Definition schedule (block : list Z) : list Z := rev (extend 48 (rev block)).

Definition round (s : state) (kw : Z * Z) : state :=
  let '(k, w) := kw in
  let T1 := (hh s + Sigma1 (he s) + Ch (he s) (hf s) (hg s) + k + w) mod MOD32 in
  let T2 := (Sigma0 (ha s) + Maj (ha s) (hb s) (hc s)) mod MOD32 in
  mkState ((T1 + T2) mod MOD32) (ha s) (hb s) (hc s) ((hd s + T1) mod MOD32) (he s) (hf s) (hg s).

Definition add_state (x y : state) : state :=
  mkState ((ha x + ha y) mod MOD32) ((hb x + hb y) mod MOD32) ((hc x + hc y) mod MOD32)
          ((hd x + hd y) mod MOD32) ((he x + he y) mod MOD32) ((hf x + hf y) mod MOD32)
          ((hg x + hg y) mod MOD32) ((hh x + hh y) mod MOD32).

Definition compress (h : state) (block : list Z) : state :=
  add_state h (fold_left round (combine K (schedule block)) h).

(** Big-endian bytes of [x], [n] of them. *)
Fixpoint be_bytes (n : nat) (x : Z) : list Z :=
  match n with
  | O => []
  | S k => be_bytes k (x / 256) ++ [x mod 256]
  end.

Fixpoint be_words (n : nat) (bs : list Z) : list Z :=
  match n, bs with
  | S k, a :: b :: c :: d :: rest => (a * 2 ^ 24 + b * 2 ^ 16 + c * 2 ^ 8 + d) :: be_words k rest
  | _, _ => []
  end.

(** [0x80], zeros up to 56 mod 64, and the bit length on 8 bytes. *)
Definition pad (msg : list Z) : list Z :=
  let len := Z.of_nat (length msg) in
  msg ++ [128] ++ repeat 0 (Z.to_nat ((55 - len) mod 64)) ++ be_bytes 8 (8 * len).

(** One compression per 64-byte block; [fuel] bounds the number of
    blocks. *)
Fixpoint hash_blocks (fuel : nat) (h : state) (bs : list Z) : state :=
  match fuel, bs with
  | S k, _ :: _ => hash_blocks k (compress h (be_words 16 (take 64 bs))) (drop 64 bs)
  | _, _ => h
  end.

Definition digest (h : state) : list Z :=
  be_bytes 4 (ha h) ++ be_bytes 4 (hb h) ++ be_bytes 4 (hc h) ++ be_bytes 4 (hd h) ++
  be_bytes 4 (he h) ++ be_bytes 4 (hf h) ++ be_bytes 4 (hg h) ++ be_bytes 4 (hh h).

Definition sha256 (msg : list Z) : list Z :=
  let p := pad msg in digest (hash_blocks (length p) H0 p).

End Sha256.

Module Hmac.
Import Sha256.
Local Open Scope Z_scope.

Definition BLOCK : nat := 64.

(** A key longer than a block is hashed; the key is then zero-padded
    to a block. *)
Definition block_key (key : list Z) : list Z :=
  let k := if (BLOCK <? length key)%nat then sha256 key else key in
  k ++ repeat 0 (BLOCK - length k)%nat.

Definition hmac_sha256 (key msg : list Z) : list Z :=
  let k := block_key key in
  sha256 (map (Z.lxor 0x5c) k ++ sha256 (map (Z.lxor 0x36) k ++ msg)).

Definition bytes_of_string (s : string) : list Z :=
  map (fun c => Z.of_N (Ascii.N_of_ascii c)) (String.list_ascii_of_string s).

Definition hex_digit (n : Z) : Ascii.ascii :=
  if n <? 10 then Ascii.ascii_of_N (Z.to_N (48 + n)) else Ascii.ascii_of_N (Z.to_N (87 + n)).

(** [digest('hex')]: two lower-case hex digits per byte. *)
Fixpoint to_hex (bs : list Z) : string :=
  match bs with
  | [] => ""
  | b :: rest => String (hex_digit (Z.land (Z.shiftr b 4) 15)) (String (hex_digit (Z.land b 15)) (to_hex rest))
  end.

(** [createHmac('sha256', secret).update(payload, 'utf8').digest('hex')] *)
Definition hmac_sha256_hex (payload secret : string) : string :=
  to_hex (hmac_sha256 (bytes_of_string secret) (bytes_of_string payload)).

End Hmac.

(** ** Test vectors *)

(** FIPS 180-4, one block: SHA-256("abc"). *)
Example sha256_abc :
  Hmac.to_hex (Sha256.sha256 (Hmac.bytes_of_string "abc")) =
  "ba7816bf8f01cfea414140de5dae2223b00361a396177a9cb410ff61f20015ad".
Proof. vm_compute. reflexivity. Qed.

(** FIPS 180-4, two blocks. *)
Example sha256_two_blocks :
  Hmac.to_hex (Sha256.sha256 (Hmac.bytes_of_string
    "abcdbcdecdefdefgefghfghighijhijkijkljklmklmnlmnomnopnopq")) =
  "248d6a61d20638b8e5c026930c3e6039a33ce45964ff2167f6ecedd419db06c1".
Proof. vm_compute. reflexivity. Qed.

(** RFC 4231, test case 2. *)
Example hmac_rfc4231_case2 :
  Hmac.hmac_sha256_hex "what do ya want for nothing?" "Jefe" =
  "5bdcc146bf60754e6a042426089575c75a003f089d2739839dec58b964ec3843".
Proof. vm_compute. reflexivity. Qed.

(** ** The shape of the digest *)

Lemma length_be_bytes n x : length (Sha256.be_bytes n x) = n.
Proof.
  revert x. induction n as [|n IH]; intros x; [done|].
  cbn [Sha256.be_bytes]. rewrite length_app, IH. cbn. lia.
Qed.

Lemma length_digest h : length (Sha256.digest h) = 32%nat.
Proof. unfold Sha256.digest. rewrite !length_app, !length_be_bytes. done. Qed.

Lemma length_sha256 msg : length (Sha256.sha256 msg) = 32%nat.
Proof. apply length_digest. Qed.

Lemma length_to_hex bs : String.length (Hmac.to_hex bs) = (2 * length bs)%nat.
Proof. induction bs as [|b bs IH]; cbn [Hmac.to_hex String.length length]; [done|]. rewrite IH. lia. Qed.

Lemma hex_digit_lower n : (0 <= n <= 15)%Z -> is_lower_hex (Hmac.hex_digit n) = true.
Proof.
  intros Hn. unfold Hmac.hex_digit, is_lower_hex, is_digit.
  assert (exists m, n = Z.of_N m) as [m ->] by (exists (Z.to_N n); lia).
  assert (m <= 15)%N by lia.
  cbv zeta. destruct (Z.ltb_spec (Z.of_N m) 10);
    [replace (Z.to_N (48 + Z.of_N m)) with (48 + m)%N by lia
    |replace (Z.to_N (87 + Z.of_N m)) with (87 + m)%N by lia];
    rewrite Ascii.N_ascii_embedding by lia;
    apply orb_true_iff; [left|right]; apply andb_true_iff; split; apply N.leb_le; lia.
Qed.

Lemma land_15_range x : (0 <= Z.land x 15 <= 15)%Z.
Proof.
  assert (Z.land x 15 = x mod 16)%Z as -> by (apply (Z.land_ones x 4); lia).
  pose proof (Z.mod_pos_bound x 16). lia.
Qed.

Lemma to_hex_lower bs : all_lower_hex (Hmac.to_hex bs) = true.
Proof.
  induction bs as [|b bs IH]; cbn [Hmac.to_hex all_lower_hex]; [done|].
  by rewrite !hex_digit_lower, IH by apply land_15_range.
Qed.

Lemma hmac_sha256_hex_length payload secret :
  String.length (Hmac.hmac_sha256_hex payload secret) = 64%nat.
Proof. unfold Hmac.hmac_sha256_hex, Hmac.hmac_sha256. by rewrite length_to_hex, length_sha256. Qed.

Lemma hmac_sha256_hex_lower payload secret :
  all_lower_hex (Hmac.hmac_sha256_hex payload secret) = true.
Proof. apply to_hex_lower. Qed.
