(* ===== verification/StripeWebhook.v ===== *)
(** * Stripe webhook signature verification ([stripe.webhooks.constructEvent])

    The server calls [stripe.webhooks.constructEvent(rawBody, signature,
    secret)] (index.ts 55).  That function belongs to the Stripe library,
    not to this repository; the spec (section 4.1) gives its algorithm,
    which this file models step by step as the library runs it:

    - [parseHeader]: split the [stripe-signature] header on [','], each
      item on ['='], keep the last [t] as the timestamp ([parseInt]) and
      every [v1] value as a candidate signature;
    - [parseEventDetails]: reject an empty payload, a missing or empty
      header, a header without timestamp or without [v1] signature;
    - [makeHMACContent]: the signed string ["{timestamp}.{payload}"];
    - [node_secureCompare]: [NodePlatformFunctions.secureCompare], which
      throws on a missing or empty argument, answers [false] on a length
      mismatch and otherwise hands the two [TextEncoder] encodings to
      [crypto.timingSafeEqual], which throws a [RangeError] when their
      byte lengths differ (a candidate with a character above U+007F);
    - [validateComputedSignature]: at least one candidate equals the
      expected HMAC, then the age check [now - t > tolerance] with the
      default tolerance of 300 s.

    The HMAC-SHA256 itself is an interface, [CryptoProvider], whose laws
    say what the verification relies on: the digest is 64 lower-case hex
    characters.  [verifyHeader_normal] characterizes acceptance stage by
    stage; [verifyHeader_signed_fresh] shows that what is accepted meets
    the contract [signed_fresh] of spec 4.1, stated on the header's
    [key=value] entries; [verifyHeader_equiv] relates the verification
    to a reference [verifyHeader_ref]; the rest computes what Stripe's
    headers ([stripe_signature_header], with the exact decimal of the
    timestamp) give, for timestamps below [2^53]. *)

From S2P Require Import Prelude JsBuiltins Utf8 Json Sha256.

(** ** Errors thrown by verification *)

Inductive webhook_error : Type :=
| NoWebhookPayload              (* 'No webhook payload was provided.' *)
| NoSignatureHeader             (* 'No stripe-signature header value was provided.' *)
| UnableToExtractHeader         (* 'Unable to extract timestamp and signatures from header' *)
| NoSignaturesWithScheme        (* 'No signatures found with expected scheme' *)
| NoMatchingSignature           (* 'No signatures found matching the expected signature for payload.' *)
| TimestampOutsideTolerance     (* 'Timestamp outside the tolerance zone' *)
| SecureCompareArguments        (* Error: 'secureCompare must receive two arguments' *)
| TimingSafeEqualLength         (* RangeError: 'Input buffers must have the same byte length' *)
| InvalidHmacKey                (* TypeError of createHmac on an undefined key *)
| PayloadSyntaxError.           (* SyntaxError of JSON.parse *)

#[export] Instance webhook_error_eq_dec : EqDecision webhook_error.
Proof. solve_decision. Defined.

(** ** The HMAC provider *)

(** [cryptoProvider.computeHMACSignature(payload, secret)]: the hex
    digest of HMAC-SHA256 keyed by [secret]. *)
Class CryptoProvider := {
  computeHMACSignature : string -> string -> string;
  hmac_length : forall payload secret,
    String.length (computeHMACSignature payload secret) = 64;
  hmac_hex : forall payload secret,
    all_lower_hex (computeHMACSignature payload secret) = true
}.

(** ** Parsing the header *)

Definition EXPECTED_SCHEME : string := "v1".
Definition DEFAULT_TOLERANCE : Z := 300.

Record WebhookParsedHeader := mkParsedHeader {
  timestamp : jsnum;
  signatures : list (option string)
}.

(** One step of the [reduce]: [kv = item.split('=')]; a [t] item sets
    the timestamp to [parseInt(kv[1], 10)], a [scheme] item pushes
    [kv[1]] (which is [undefined] when the item has no ['=']). *)
Definition parseHeaderItem (scheme : string) (accum : WebhookParsedHeader) (item : string)
  : WebhookParsedHeader :=
  let kv := split_on "=" item in
  let accum :=
    if decide (kv !! 0%nat = Some "t") then mkParsedHeader (parseInt10 (kv !! 1%nat)) (signatures accum)
    else accum in
  if decide (kv !! 0%nat = Some scheme) then
    mkParsedHeader (timestamp accum) (signatures accum ++ [kv !! 1%nat])
  else accum.

Definition parseHeader (header scheme : string) : WebhookParsedHeader :=
  foldl (parseHeaderItem scheme) (mkParsedHeader (JNum (-1)) []) (split_on "," header).

(** [parseEventDetails]: the checks made before any HMAC is computed. *)
Definition parseEventDetails (payload : string) (header : option string)
  : outcome webhook_error WebhookParsedHeader :=
  if String.eqb payload "" then Thrown NoWebhookPayload else
  match header with
  | None => Thrown NoSignatureHeader
  | Some h =>
      if String.eqb h "" then Thrown NoSignatureHeader else
      let details := parseHeader h EXPECTED_SCHEME in
      if decide (timestamp details = JNum (-1)) then Thrown UnableToExtractHeader
      else match signatures details with
           | [] => Thrown NoSignaturesWithScheme
           | _ => Normal details
           end
  end.

Definition makeHMACContent (payload : string) (details : WebhookParsedHeader) : string :=
  num_to_string (timestamp details) +:+ "." +:+ payload.

(** ** Constant-time comparison *)

(** [new TextEncoder().encode(s)]: the UTF-8 bytes of the string's
    characters.  Header values are latin1, one character per byte. *)
Definition text_encode (s : string) : list Z := utf8_encode (bytes_of s).

(** [crypto.timingSafeEqual(a, b)] *)
Definition timingSafeEqual (a b : list Z) : outcome webhook_error bool :=
  if negb (Nat.eqb (length a) (length b)) then Thrown TimingSafeEqualLength
  else Normal (bool_decide (a = b)).

(** [NodePlatformFunctions.secureCompare(a, b)]: a missing or empty
    argument throws; strings of different lengths compare [false];
    otherwise [timingSafeEqual] of their encodings. *)
Definition node_secureCompare (a : string) (b : option string) : outcome webhook_error bool :=
  match b with
  | Some b' =>
      if String.eqb a "" || String.eqb b' "" then Thrown SecureCompareArguments
      else if negb (Nat.eqb (String.length a) (String.length b')) then Normal false
      else timingSafeEqual (text_encode a) (text_encode b')
  | None => Thrown SecureCompareArguments
  end.

(** [signatures.filter(secureCompare.bind(null, expected)).length]: the
    predicate runs on every candidate in order, so a bad candidate throws
    even after a match. *)
Fixpoint count_matches (expected : string) (sigs : list (option string))
  : outcome webhook_error nat :=
  match sigs with
  | [] => Normal 0%nat
  | b :: rest =>
      node_secureCompare expected b ≫= fun (r : bool) =>
      n ← count_matches expected rest;
      Normal (if r then S n else n)
  end.

(** ** The freshness check *)

(** [Math.floor(Date.now() / 1000) - details.timestamp]; the clock is
    below [2^53] ms, so the difference with an integer-valued double is
    a double only when the timestamp is below [2^53] too, which every
    header Stripe sends satisfies.  An infinite timestamp gives the
    opposite infinity. *)
Definition timestamp_age (now_ms : Z) (ts : jsnum) : jsnum :=
  match ts with
  | JNum t => JNum (now_ms / 1000 - t)
  | JInf neg => JInf (negb neg)
  | JNaN => JNaN
  end.

(** [tolerance > 0 && timestampAge > tolerance]; a comparison with
    [NaN] is false, [Infinity] exceeds every tolerance. *)
Definition outside_tolerance (tolerance : Z) (age : jsnum) : bool :=
  (0 <? tolerance)%Z &&
  match age with JNum a => (tolerance <? a)%Z | JInf neg => negb neg | JNaN => false end.

Definition validateComputedSignature (details : WebhookParsedHeader) (expected : string)
    (tolerance now_ms : Z) : outcome webhook_error unit :=
  count_matches expected (signatures details) ≫= fun (n : nat) =>
  if Nat.eqb n 0 then Thrown NoMatchingSignature
  else if outside_tolerance tolerance (timestamp_age now_ms (timestamp details))
  then Thrown TimestampOutsideTolerance
  else Normal tt.

(** [verifyHeader(payload, header, secret, tolerance, _, receivedAt)] *)
Definition verifyHeader `{CryptoProvider} (now_ms : Z) (payload : string)
    (header secret : option string) (tolerance : Z) : outcome webhook_error unit :=
  details ← parseEventDetails payload header;
  expected ← match secret with
             | Some k => Normal (computeHMACSignature (makeHMACContent payload details) k)
             | None => Thrown InvalidHmacKey
             end;
  validateComputedSignature details expected tolerance now_ms.

(** [stripe.webhooks.constructEvent(payload, header, secret)]: verify
    with the default tolerance ([tolerance || DEFAULT_TOLERANCE] with no
    tolerance given), then [JSON.parse(payload)]. *)
Definition constructEvent `{CryptoProvider} (now_ms : Z) (payload : string)
    (header secret : option string) : outcome webhook_error jsval :=
  verifyHeader now_ms payload header secret DEFAULT_TOLERANCE;;
  match JSON_parse payload with
  | Some j => Normal (JV j)
  | None => Thrown PayloadSyntaxError
  end.

(** The header Stripe sends: [t=<ts>,v1=<sig>,v1=<sig>...], with the
    timestamp's exact decimal. *)
Definition stripe_signature_header (ts : Z) (sigs : list string) : string :=
  join_with "," (("t=" +:+ Z_to_dec ts) :: map (fun s => "v1=" +:+ s) sigs).

Example parseHeader_ex :
  parseHeader "t=1700000000,v1=ab,v0=cd,v1,v1=ef" "v1" =
  mkParsedHeader (JNum 1700000000) [Some "ab"; None; Some "ef"].
Proof. reflexivity. Qed.

(** ** [secureCompare] on a hex digest *)

(** A string of characters below U+0080, which [TextEncoder] writes
    one byte each. *)
Fixpoint ascii_string (s : string) : bool :=
  match s with
  | EmptyString => true
  | String c s' => (Ascii.N_of_ascii c <? 128)%N && ascii_string s'
  end.

(** The error [secureCompare(expected, b)] throws, for an ASCII
    [expected]: a missing or empty candidate, or one of the same length
    whose encoding is longer. *)
Definition candidate_error (e : string) (b : option string) : option webhook_error :=
  match b with
  | None => Some SecureCompareArguments
  | Some b' =>
      if String.eqb b' "" then Some SecureCompareArguments
      else if Nat.eqb (String.length b') (String.length e) && negb (ascii_string b')
      then Some TimingSafeEqualLength
      else None
  end.

Lemma text_encode_cons c s :
  text_encode (String c s) = utf8_encode_cp (Z.of_N (Ascii.N_of_ascii c)) ++ text_encode s.
Proof. reflexivity. Qed.

Lemma utf8_encode_cp_latin1 n :
  (n < 256)%N -> length (utf8_encode_cp (Z.of_N n)) = if (n <? 128)%N then 1%nat else 2%nat.
Proof.
  intros Hn. unfold utf8_encode_cp. destruct (N.ltb_spec n 128).
  - by rewrite (proj2 (Z.ltb_lt _ _)) by lia.
  - by rewrite (proj2 (Z.ltb_ge (Z.of_N n) 0x80)), (proj2 (Z.ltb_lt (Z.of_N n) 0x800)) by lia.
Qed.

Lemma text_encode_ascii s : ascii_string s = true -> text_encode s = bytes_of s.
Proof.
  induction s as [|c s IH]; cbn [ascii_string]; [done|]. intros [Hc Hs]%andb_true_iff.
  rewrite text_encode_cons, IH by done. apply N.ltb_lt in Hc. unfold utf8_encode_cp.
  by rewrite (proj2 (Z.ltb_lt _ _)) by lia.
Qed.

(** A character above U+007F makes the encoding longer than the string. *)
Lemma text_encode_length s :
  (String.length s <= length (text_encode s))%nat /\
  (ascii_string s = false -> String.length s < length (text_encode s))%nat.
Proof.
  induction s as [|c s [IH1 IH2]]; [cbn; split; [lia|discriminate]|].
  rewrite text_encode_cons, length_app, utf8_encode_cp_latin1 by apply N_of_ascii_lt.
  cbn [ascii_string String.length]. destruct (N.ltb_spec (Ascii.N_of_ascii c) 128); cbn;
    (split; [lia|]); [intros ?%IH2|intros _]; lia.
Qed.

Lemma bytes_of_length s : length (bytes_of s) = String.length s.
Proof. unfold bytes_of. rewrite length_map. induction s; cbn; congruence. Qed.

Lemma bytes_of_inj a b : bytes_of a = bytes_of b -> a = b.
Proof. intros H. by rewrite <- (string_of_bytes_of a), H, string_of_bytes_of. Qed.

Lemma lower_hex_ascii e : all_lower_hex e = true -> ascii_string e = true.
Proof.
  induction e as [|c e IH]; cbn; [done|]. intros [Hc He]%andb_true_iff.
  rewrite IH, andb_true_r by done. apply N.ltb_lt. unfold is_lower_hex, is_digit in Hc.
  destruct (N.leb_spec 48 (Ascii.N_of_ascii c)), (N.leb_spec (Ascii.N_of_ascii c) 57),
    (N.leb_spec 97 (Ascii.N_of_ascii c)), (N.leb_spec (Ascii.N_of_ascii c) 102);
    cbn in Hc; try discriminate; lia.
Qed.

(** [NodePlatformFunctions.secureCompare] with an ASCII first
    argument: the candidate's error, or string equality. *)
Lemma node_secureCompare_ascii e b :
  e <> "" -> ascii_string e = true ->
  node_secureCompare e b =
  match candidate_error e b with Some err => Thrown err | None => Normal (bool_decide (b = Some e)) end.
Proof.
  intros He Ha. destruct b as [b|]; cbn; [|done].
  rewrite (string_eqb_neq e "") by done. destruct (String.eqb_spec b ""); cbn; [done|].
  rewrite (Nat.eqb_sym (String.length e)).
  destruct (Nat.eqb_spec (String.length b) (String.length e)) as [Hl|Hl]; cbn.
  - unfold timingSafeEqual. rewrite (text_encode_ascii e) by done.
    destruct (ascii_string b) eqn:Hb; cbn.
    + rewrite text_encode_ascii, !bytes_of_length, Hl, Nat.eqb_refl by done. cbn. f_equal.
      apply bool_decide_ext. split; [intros ?%bytes_of_inj; congruence|by intros [= ->]].
    + destruct (text_encode_length b) as [_ Hlt]. rewrite bytes_of_length.
      destruct (Nat.eqb_spec (String.length e) (length (text_encode b))); [|done].
      specialize (Hlt Hb). lia.
  - f_equal. symmetry. apply bool_decide_eq_false. by intros [= ->].
Qed.

(** ** The header format round trip *)

(** A candidate signature the header format can carry. *)
Definition header_safe (s : string) : Prop := has_char "," s = false /\ has_char "=" s = false.

Lemma parseHeaderItem_v1 accum s :
  has_char "=" s = false ->
  parseHeaderItem EXPECTED_SCHEME accum ("v1=" +:+ s) =
  mkParsedHeader (timestamp accum) (signatures accum ++ [Some s]).
Proof.
  intros Hs. unfold parseHeaderItem.
  change ("v1=" +:+ s) with ("v1" +:+ String "=" s). rewrite split_on_pair by done.
  reflexivity.
Qed.

Lemma parseHeaderItem_t_raw accum t :
  has_char "=" t = false ->
  parseHeaderItem EXPECTED_SCHEME accum ("t=" +:+ t) = mkParsedHeader (parseInt10 (Some t)) (signatures accum).
Proof.
  intros Ht. unfold parseHeaderItem.
  change ("t=" +:+ t) with ("t" +:+ String "=" t). rewrite split_on_pair by done.
  reflexivity.
Qed.

Lemma parseHeaderItem_t accum ts :
  (Z.abs ts < 2 ^ 53)%Z ->
  parseHeaderItem EXPECTED_SCHEME accum ("t=" +:+ Z_to_dec ts) =
  mkParsedHeader (JNum ts) (signatures accum).
Proof.
  intros Hts. rewrite parseHeaderItem_t_raw by by apply has_char_Z_to_dec.
  by rewrite parseInt10_Z_to_dec.
Qed.

Lemma foldl_parseHeaderItem_v1 accum sigs :
  Forall header_safe sigs ->
  foldl (parseHeaderItem EXPECTED_SCHEME) accum (map (fun s => "v1=" +:+ s) sigs) =
  mkParsedHeader (timestamp accum) (signatures accum ++ map Some sigs).
Proof.
  revert accum. induction sigs as [|s sigs IH]; intros accum Hall; cbn [map foldl].
  - destruct accum. by rewrite app_nil_r.
  - inversion Hall as [|? ? [_ Hs] Hrest]; subst.
    rewrite parseHeaderItem_v1, IH by done. cbn. by rewrite <- app_assoc.
Qed.

Lemma header_items_safe ts sigs :
  Forall header_safe sigs ->
  Forall (fun x => has_char "," x = false)
    (("t=" +:+ Z_to_dec ts) :: map (fun s => "v1=" +:+ s) sigs).
Proof.
  intros Hall. constructor.
  - change ("t=" +:+ ?n) with ("t" +:+ String "=" n).
    rewrite has_char_app. cbn [has_char].
    by rewrite has_char_Z_to_dec.
  - apply Forall_map. eapply Forall_impl; [exact Hall|].
    intros s [Hc _]. by rewrite has_char_app.
Qed.

(** The header Stripe sends, [t=<ts>,v1=<s1>,...], parses back
    to its timestamp and its signatures, in order. *)
Theorem parseHeader_stripe_signature_header ts sigs :
  (Z.abs ts < 2 ^ 53)%Z -> Forall header_safe sigs ->
  parseHeader (stripe_signature_header ts sigs) EXPECTED_SCHEME =
  mkParsedHeader (JNum ts) (map Some sigs).
Proof.
  intros Hts Hall. unfold parseHeader, stripe_signature_header.
  rewrite split_on_join by (done || by apply header_items_safe).
  cbn [foldl]. rewrite parseHeaderItem_t, foldl_parseHeaderItem_v1 by done. done.
Qed.

(** ** Each stage of verification *)

Lemma length_filter_eqb_0 {A} (f : A -> bool) l :
  Nat.eqb (length (List.filter f l)) 0 = negb (existsb f l).
Proof. induction l as [|x l IH]; cbn; [done|]. by destruct (f x). Qed.

Lemma existsb_eq_elem_of `{EqDecision A} (x : A) l :
  existsb (fun b => bool_decide (b = x)) l = bool_decide (x ∈ l).
Proof.
  induction l as [|y l IH]; cbn.
  - symmetry. apply bool_decide_eq_false, not_elem_of_nil.
  - rewrite IH. repeat case_bool_decide; rewrite ?elem_of_cons in *; naive_solver.
Qed.

Lemma head_omap_None {A B} (f : A -> option B) l :
  head (omap f l) = None <-> Forall (fun x => f x = None) l.
Proof.
  induction l as [|x l IH]; cbn; [split; [constructor|done]|].
  rewrite Forall_cons. destruct (f x); cbn; naive_solver.
Qed.

(** [filter(secureCompare.bind(null, expected)).length] for an ASCII
    [expected]: the first candidate that throws decides the error;
    otherwise the number of candidates equal to [expected]. *)
Lemma count_matches_ref e sigs :
  e <> "" -> ascii_string e = true ->
  count_matches e sigs =
  match head (omap (candidate_error e) sigs) with
  | Some err => Thrown err
  | None => Normal (length (List.filter (fun b => bool_decide (b = Some e)) sigs))
  end.
Proof.
  intros He Ha. induction sigs as [|b sigs IH]; cbn; [done|].
  rewrite node_secureCompare_ascii by done.
  destruct (candidate_error e b); cbn; [done|].
  rewrite IH. destruct (head (omap (candidate_error e) sigs)); cbn; [done|].
  by case_bool_decide.
Qed.

Lemma parseEventDetails_normal payload header d :
  parseEventDetails payload header = Normal d <->
  payload <> "" /\ exists h, header = Some h /\ h <> "" /\ d = parseHeader h EXPECTED_SCHEME /\
    timestamp d <> JNum (-1) /\ signatures d <> [].
Proof.
  unfold parseEventDetails.
  destruct (String.eqb_spec payload ""); [naive_solver|].
  destruct header as [h|]; [|naive_solver].
  destruct (String.eqb_spec h ""); [naive_solver|].
  case_decide as Ht; [naive_solver|].
  destruct (signatures (parseHeader h EXPECTED_SCHEME)) eqn:Hs; split.
  - discriminate.
  - intros (_ & h' & [= <-] & _ & -> & _ & Hne). done.
  - intros [= <-]. split; [done|]. exists h. by rewrite Hs.
  - by intros (_ & h' & [= <-] & _ & -> & _).
Qed.

Lemma validateComputedSignature_normal d e tol now_ms :
  e <> "" -> ascii_string e = true ->
  validateComputedSignature d e tol now_ms = Normal tt <->
  Forall (fun b => candidate_error e b = None) (signatures d) /\ Some e ∈ signatures d /\
  outside_tolerance tol (timestamp_age now_ms (timestamp d)) = false.
Proof.
  intros He Ha. unfold validateComputedSignature. rewrite count_matches_ref, <- head_omap_None by done.
  destruct (head (omap _ _)); cbn; [naive_solver|].
  rewrite length_filter_eqb_0, existsb_eq_elem_of.
  case_bool_decide; cbn; destruct (outside_tolerance _ _); naive_solver.
Qed.

(** The timestamps that pass the age check: at most the tolerance
    behind the clock, [+Infinity], or [NaN]. *)
Lemma outside_tolerance_false tolerance now_ms ts :
  (0 < tolerance)%Z -> outside_tolerance tolerance (timestamp_age now_ms ts) = false ->
  match ts with JNum t => (now_ms / 1000 - t <= tolerance)%Z | JInf neg => neg = false | JNaN => True end.
Proof.
  unfold outside_tolerance. intros Ht. apply Z.ltb_lt in Ht as ->. cbn.
  destruct ts as [t|[]|]; cbn; [|done|done|done]. intros Ha%Z.ltb_ge. exact Ha.
Qed.

Lemma has_char_lower_hex c s :
  is_lower_hex c = false -> all_lower_hex s = true -> has_char c s = false.
Proof.
  intros Hc. induction s as [|c' s IH]; cbn; [done|].
  intros [Hc' Hs]%andb_true_iff. rewrite IH by done.
  destruct (Ascii.eqb_spec c' c); subst; [congruence|done].
Qed.

Lemma lower_hex_header_safe s : all_lower_hex s = true -> header_safe s.
Proof. intros Hs. split; by apply has_char_lower_hex. Qed.

(** ** Verification against its contract *)

Section Verification.
Context {cp : CryptoProvider}.

Lemma hmac_nonempty p k : computeHMACSignature p k <> "".
Proof. intros Hk. pose proof (hmac_length p k) as Hl. rewrite Hk in Hl. discriminate. Qed.

Lemma hmac_ascii p k : ascii_string (computeHMACSignature p k) = true.
Proof. apply lower_hex_ascii, hmac_hex. Qed.

(** The envelopes [verifyHeader] accepts, stage by stage: a payload, a
    header with a timestamp, candidates none of which makes
    [secureCompare] throw and one of which is the expected HMAC, and a
    timestamp that passes the age check. *)
Definition accepted_envelope (now_ms : Z) (payload : string) (header secret : option string)
    (tolerance : Z) : Prop :=
  payload <> "" /\
  exists h k, header = Some h /\ h <> "" /\ secret = Some k /\
    let d := parseHeader h EXPECTED_SCHEME in
    let e := computeHMACSignature (makeHMACContent payload d) k in
    timestamp d <> JNum (-1) /\ Forall (fun b => candidate_error e b = None) (signatures d) /\
    Some e ∈ signatures d /\ outside_tolerance tolerance (timestamp_age now_ms (timestamp d)) = false.

Lemma verifyHeader_normal now_ms payload header secret tolerance :
  verifyHeader now_ms payload header secret tolerance = Normal tt <->
  accepted_envelope now_ms payload header secret tolerance.
Proof.
  unfold verifyHeader, accepted_envelope. split.
  - destruct (parseEventDetails payload header) as [d|] eqn:Hd; cbn; [|discriminate].
    destruct secret as [k|]; cbn; [|discriminate].
    rewrite validateComputedSignature_normal by (apply hmac_nonempty || apply hmac_ascii).
    intros (Hall & Hin & Ho).
    apply parseEventDetails_normal in Hd as (Hp & h & -> & Hh & -> & Hts & _).
    split; [done|]. by exists h, k.
  - intros (Hp & h & k & -> & Hh & -> & Hts & Hall & Hin & Ho).
    assert (parseEventDetails payload (Some h) = Normal (parseHeader h EXPECTED_SCHEME)) as ->.
    { apply parseEventDetails_normal. split; [done|]. exists h.
      repeat split; try done. intros Hnil. rewrite Hnil in Hin. by apply not_elem_of_nil in Hin. }
    cbn. rewrite validateComputedSignature_normal by (apply hmac_nonempty || apply hmac_ascii).
    done.
Qed.

(** ** The contract of section 4.1

    Stated with the header as the spec describes it, not with the
    library's helpers. *)

(** An entry [key=value] of the [stripe-signature] header: one of its
    comma-separated items, read as the parts around its first ['='] ([v]
    is [None] for an item without one). *)
Definition header_item (h key : string) (v : option string) : Prop :=
  exists item, item ∈ split_on "," h /\
    split_on "=" item !! 0%nat = Some key /\ split_on "=" item !! 1%nat = v.

(** What a successful verification promises: a payload; a [t] entry and
    a [v1] entry whose value is the HMAC under the secret of the
    timestamp, as a template literal prints the Number [parseInt] reads,
    a dot and the payload; and a timestamp at most 300 s behind the
    clock in whole seconds, in the future, or not a number at all. *)
Definition signed_fresh (now_ms : Z) (payload h k : string) : Prop :=
  payload <> "" /\
  exists tv sig, header_item h "t" tv /\ header_item h "v1" (Some sig) /\
    sig = computeHMACSignature (num_to_string (parseInt10 tv) +:+ "." +:+ payload) k /\
    match parseInt10 tv with
    | JNum t => (now_ms / 1000 - t <= 300)%Z
    | JInf neg => neg = false
    | JNaN => True
    end.

Lemma parseHeaderItem_timestamp s acc item :
  timestamp (parseHeaderItem s acc item) =
  if decide (split_on "=" item !! 0%nat = Some "t") then parseInt10 (split_on "=" item !! 1%nat)
  else timestamp acc.
Proof. unfold parseHeaderItem. by repeat case_decide. Qed.

Lemma parseHeaderItem_signatures s acc item :
  signatures (parseHeaderItem s acc item) =
  signatures acc ++ (if decide (split_on "=" item !! 0%nat = Some s) then [split_on "=" item !! 1%nat] else []).
Proof. unfold parseHeaderItem. repeat case_decide; cbn; by rewrite ?app_nil_r. Qed.

Lemma foldl_parseHeaderItem_timestamp s items acc :
  timestamp (foldl (parseHeaderItem s) acc items) = timestamp acc \/
  exists item, item ∈ items /\ split_on "=" item !! 0%nat = Some "t" /\
    timestamp (foldl (parseHeaderItem s) acc items) = parseInt10 (split_on "=" item !! 1%nat).
Proof.
  revert acc. induction items as [|x items IH]; intros acc; cbn [foldl]; [by left|].
  destruct (IH (parseHeaderItem s acc x)) as [Hx|(item & Hin & Ht & Hv)].
  - rewrite Hx, parseHeaderItem_timestamp. case_decide; [|by left].
    right. exists x. rewrite elem_of_cons. naive_solver.
  - right. exists item. rewrite elem_of_cons. naive_solver.
Qed.

Lemma foldl_parseHeaderItem_signatures s items acc sig :
  Some sig ∈ signatures (foldl (parseHeaderItem s) acc items) ->
  Some sig ∈ signatures acc \/
  exists item, item ∈ items /\ split_on "=" item !! 0%nat = Some s /\ split_on "=" item !! 1%nat = Some sig.
Proof.
  revert acc. induction items as [|x items IH]; intros acc; cbn [foldl]; [by left|].
  intros [Hin|(item & ? & ? & ?)]%IH.
  - rewrite parseHeaderItem_signatures, elem_of_app in Hin. destruct Hin as [Hin|Hin]; [by left|].
    case_decide; [|by apply not_elem_of_nil in Hin]. apply list_elem_of_singleton in Hin.
    right. exists x. rewrite elem_of_cons. naive_solver.
  - right. exists item. rewrite elem_of_cons. naive_solver.
Qed.

(** The timestamp the library reads comes from a [t] entry. *)
Lemma parseHeader_timestamp_item h :
  timestamp (parseHeader h EXPECTED_SCHEME) <> JNum (-1) ->
  exists tv, header_item h "t" tv /\ timestamp (parseHeader h EXPECTED_SCHEME) = parseInt10 tv.
Proof.
  unfold parseHeader, header_item.
  destruct (foldl_parseHeaderItem_timestamp EXPECTED_SCHEME (split_on "," h) (mkParsedHeader (JNum (-1)) []))
    as [->|(item & Hin & Ht & Hv)]; [done|].
  intros _. exists (split_on "=" item !! 1%nat). split; [by exists item|done].
Qed.

(** Every candidate the library compares comes from a [v1] entry. *)
Lemma parseHeader_signature_item h sig :
  Some sig ∈ signatures (parseHeader h EXPECTED_SCHEME) -> header_item h "v1" (Some sig).
Proof.
  unfold parseHeader, header_item. intros [Hnil|(item & ? & ? & ?)]%foldl_parseHeaderItem_signatures.
  - by apply not_elem_of_nil in Hnil.
  - by exists item.
Qed.

(** What [verifyHeader] with the default tolerance accepts meets the
    contract. *)
Lemma verifyHeader_signed_fresh now_ms payload header secret :
  verifyHeader now_ms payload header secret DEFAULT_TOLERANCE = Normal tt ->
  exists h k, header = Some h /\ secret = Some k /\ signed_fresh now_ms payload h k.
Proof.
  intros (Hp & h & k & -> & _ & -> & Hts & _ & Hin & Ho)%verifyHeader_normal.
  cbv zeta in *. exists h, k. do 3 (split; [done|]).
  destruct (parseHeader_timestamp_item h Hts) as (tv & Htv & Ht).
  exists tv, (computeHMACSignature (makeHMACContent payload (parseHeader h EXPECTED_SCHEME)) k).
  split; [done|]. split; [by apply parseHeader_signature_item|].
  split; [unfold makeHMACContent; by rewrite Ht|].
  rewrite <- Ht. by apply (outside_tolerance_false DEFAULT_TOLERANCE).
Qed.

(** ** A reference for the verification

    The checks of [verifyHeader] written directly: the same errors in
    the same order, with [TextEncoder], [timingSafeEqual] and the
    [filter(...).length] count replaced by the first candidate's error,
    string equality and a membership test. *)
Definition verifyHeader_ref (now_ms : Z) (payload : string) (header secret : option string)
    (tolerance : Z) : outcome webhook_error unit :=
  details ← parseEventDetails payload header;
  match secret with
  | None => Thrown InvalidHmacKey
  | Some k =>
      let expected := computeHMACSignature (makeHMACContent payload details) k in
      match head (omap (candidate_error expected) (signatures details)) with
      | Some err => Thrown err
      | None =>
          if negb (existsb (fun b => bool_decide (b = Some expected)) (signatures details))
          then Thrown NoMatchingSignature
          else if outside_tolerance tolerance (timestamp_age now_ms (timestamp details))
          then Thrown TimestampOutsideTolerance
          else Normal tt
      end
  end.

(** [verifyHeader], with its comparison through [timingSafeEqual] and
    its count of matching candidates, computes the same outcome as the
    reference on every input: the same success and the same error. *)
Lemma verifyHeader_equiv now_ms payload header secret tolerance :
  verifyHeader now_ms payload header secret tolerance =
  verifyHeader_ref now_ms payload header secret tolerance.
Proof.
  unfold verifyHeader, verifyHeader_ref, validateComputedSignature.
  destruct (parseEventDetails payload header) as [d|]; cbn; [|done].
  destruct secret as [k|]; cbn; [|done].
  rewrite count_matches_ref by (apply hmac_nonempty || apply hmac_ascii).
  destruct (head (omap _ _)); cbn; [done|]. by rewrite length_filter_eqb_0.
Qed.

(** ** A header as Stripe signs it *)

Lemma stripe_signature_header_nonempty ts sigs : stripe_signature_header ts sigs <> "".
Proof.
  unfold stripe_signature_header. destruct sigs; cbn [join_with map];
    rewrite ?string_app_cons; discriminate.
Qed.

Lemma parseEventDetails_signed payload ts sigs :
  payload <> "" -> ts <> (-1)%Z -> (Z.abs ts < 2 ^ 53)%Z -> sigs <> [] ->
  Forall (fun s => all_lower_hex s = true) sigs ->
  parseEventDetails payload (Some (stripe_signature_header ts sigs)) =
  Normal (mkParsedHeader (JNum ts) (map Some sigs)).
Proof.
  intros Hp Hts Hb Hne Hhex.
  assert (Forall header_safe sigs) as Hsafe.
  { eapply Forall_impl; [exact Hhex|]. apply lower_hex_header_safe. }
  apply parseEventDetails_normal. split; [done|].
  eexists. split; [done|]. split; [apply stripe_signature_header_nonempty|].
  rewrite parseHeader_stripe_signature_header by done. cbn.
  split; [done|]. split; [congruence|]. by destruct sigs.
Qed.

Lemma candidate_error_hex e s : s <> "" -> all_lower_hex s = true -> candidate_error e (Some s) = None.
Proof.
  intros Hs Hh. cbn. rewrite (string_eqb_neq s "") by done.
  by rewrite lower_hex_ascii, andb_false_r by done.
Qed.

Lemma count_matches_signed e sigs :
  e <> "" -> ascii_string e = true -> Forall (fun s => all_lower_hex s = true /\ s <> "") sigs ->
  exists n, count_matches e (map Some sigs) = Normal n /\ (n = 0%nat <-> e ∉ sigs).
Proof.
  intros He Ha Hsigs. rewrite count_matches_ref by done.
  assert (head (omap (candidate_error e) (map Some sigs)) = None) as ->.
  { apply head_omap_None, Forall_map. eapply Forall_impl; [exact Hsigs|].
    intros s [Hh Hs]. by apply candidate_error_hex. }
  eexists. split; [done|].
  rewrite <- Nat.eqb_eq, length_filter_eqb_0, existsb_eq_elem_of, negb_true_iff, bool_decide_eq_false.
  rewrite !list_elem_of_In, in_map_iff. naive_solver.
Qed.

(** The signed string for a numeric timestamp. *)
Definition signed_content (ts : Z) (payload : string) : string :=
  Z_to_dec ts +:+ "." +:+ payload.

(** Below [2^53] the library hashes the decimal Stripe signed. *)
Lemma verifyHeader_signed now_ms payload secret ts sigs tolerance :
  payload <> "" -> ts <> (-1)%Z -> (Z.abs ts < 2 ^ 53)%Z -> sigs <> [] ->
  Forall (fun s => all_lower_hex s = true) sigs ->
  verifyHeader now_ms payload (Some (stripe_signature_header ts sigs)) (Some secret) tolerance =
  validateComputedSignature (mkParsedHeader (JNum ts) (map Some sigs))
    (computeHMACSignature (signed_content ts payload) secret) tolerance now_ms.
Proof.
  intros. assert (makeHMACContent payload (mkParsedHeader (JNum ts) (map Some sigs)) =
    signed_content ts payload) as Hc
    by (unfold makeHMACContent; cbn [timestamp]; by rewrite num_to_string_safe).
  unfold verifyHeader. rewrite parseEventDetails_signed by done.
  cbn -[makeHMACContent validateComputedSignature computeHMACSignature]. by rewrite Hc.
Qed.

Lemma validate_signed_match ts sigs e tolerance now_ms :
  e <> "" -> ascii_string e = true -> Forall (fun s => all_lower_hex s = true /\ s <> "") sigs -> e ∈ sigs ->
  validateComputedSignature (mkParsedHeader (JNum ts) (map Some sigs)) e tolerance now_ms =
  if outside_tolerance tolerance (JNum (now_ms / 1000 - ts)) then Thrown TimestampOutsideTolerance
  else Normal tt.
Proof.
  intros He Ha Hne Hin. unfold validateComputedSignature. cbn [signatures timestamp].
  destruct (count_matches_signed e sigs He Ha Hne) as (n & -> & Hn0). cbn.
  destruct (Nat.eqb_spec n 0); naive_solver.
Qed.

Lemma validate_signed_mismatch ts sigs e tolerance now_ms :
  e <> "" -> ascii_string e = true -> Forall (fun s => all_lower_hex s = true /\ s <> "") sigs -> e ∉ sigs ->
  validateComputedSignature (mkParsedHeader (JNum ts) (map Some sigs)) e tolerance now_ms =
  Thrown NoMatchingSignature.
Proof.
  intros He Ha Hne Hin. unfold validateComputedSignature. cbn [signatures timestamp].
  destruct (count_matches_signed e sigs He Ha Hne) as (n & -> & Hn0). cbn.
  destruct (Nat.eqb_spec n 0); naive_solver.
Qed.

Ltac signed_header :=
  rewrite verifyHeader_signed by
    (done || (by apply Forall_singleton; apply hmac_hex) ||
     (eapply Forall_impl; [eassumption|naive_solver])).

(** A header carrying the HMAC of ["{t}.{payload}"] under the
    secret, among other well-formed candidates, with a timestamp at
    most 300 s old, is accepted. *)
Theorem verifyHeader_sound now_ms payload secret ts sigs :
  payload <> "" -> ts <> (-1)%Z -> (Z.abs ts < 2 ^ 53)%Z -> (now_ms / 1000 - ts <= DEFAULT_TOLERANCE)%Z ->
  Forall (fun s => all_lower_hex s = true /\ s <> "") sigs ->
  computeHMACSignature (signed_content ts payload) secret ∈ sigs ->
  verifyHeader now_ms payload (Some (stripe_signature_header ts sigs)) (Some secret)
    DEFAULT_TOLERANCE = Normal tt.
Proof.
  intros Hp Hts Hb Hage Hsigs Hin.
  assert (sigs <> []) by (intros ->; by apply not_elem_of_nil in Hin).
  signed_header. rewrite validate_signed_match; [|apply hmac_nonempty|apply hmac_ascii|done|done].
  unfold outside_tolerance, DEFAULT_TOLERANCE in *. cbn.
  destruct (Z.ltb_spec 300 (now_ms / 1000 - ts)); [lia|done].
Qed.

(** A header signed with another secret, whose HMAC differs
    from the one under the server's secret, is rejected for lack of a
    matching signature. *)
Theorem verifyHeader_rejects_other_secret now_ms payload secret secret' ts tolerance :
  payload <> "" -> ts <> (-1)%Z -> (Z.abs ts < 2 ^ 53)%Z ->
  computeHMACSignature (signed_content ts payload) secret' <>
    computeHMACSignature (signed_content ts payload) secret ->
  verifyHeader now_ms payload
    (Some (stripe_signature_header ts [computeHMACSignature (signed_content ts payload) secret']))
    (Some secret) tolerance = Thrown NoMatchingSignature.
Proof.
  intros Hp Hts Hb Hne. signed_header.
  apply validate_signed_mismatch; [apply hmac_nonempty|apply hmac_ascii| |].
  - apply Forall_singleton. split; [apply hmac_hex|apply hmac_nonempty].
  - rewrite list_elem_of_singleton. congruence.
Qed.

(** A correctly signed header whose timestamp is more than
    300 s old is rejected as outside the tolerance zone. *)
Theorem verifyHeader_rejects_stale now_ms payload secret ts :
  payload <> "" -> ts <> (-1)%Z -> (Z.abs ts < 2 ^ 53)%Z -> (now_ms / 1000 - ts > DEFAULT_TOLERANCE)%Z ->
  verifyHeader now_ms payload
    (Some (stripe_signature_header ts [computeHMACSignature (signed_content ts payload) secret]))
    (Some secret) DEFAULT_TOLERANCE = Thrown TimestampOutsideTolerance.
Proof.
  intros Hp Hts Hb Hage. signed_header.
  rewrite validate_signed_match; [|apply hmac_nonempty|apply hmac_ascii|
    apply Forall_singleton; split; [apply hmac_hex|apply hmac_nonempty]|by apply list_elem_of_singleton].
  unfold outside_tolerance, DEFAULT_TOLERANCE in *. cbn.
  destruct (Z.ltb_spec 300 (now_ms / 1000 - ts)); [done|lia].
Qed.

(** A header signed over one payload does not verify another
    payload whose HMAC differs. *)
Theorem verifyHeader_rejects_tampered now_ms payload payload' secret ts tolerance :
  payload' <> "" -> ts <> (-1)%Z -> (Z.abs ts < 2 ^ 53)%Z ->
  computeHMACSignature (signed_content ts payload') secret <>
    computeHMACSignature (signed_content ts payload) secret ->
  verifyHeader now_ms payload'
    (Some (stripe_signature_header ts [computeHMACSignature (signed_content ts payload) secret]))
    (Some secret) tolerance = Thrown NoMatchingSignature.
Proof.
  intros Hp Hts Hb Hne. signed_header.
  apply validate_signed_mismatch; [apply hmac_nonempty|apply hmac_ascii| |].
  - apply Forall_singleton. split; [apply hmac_hex|apply hmac_nonempty].
  - rewrite list_elem_of_singleton. congruence.
Qed.

(** A [t] that [parseInt] reads as [NaN] is never stale: with a
    matching signature over ["NaN.{payload}"] the header is accepted
    whatever the clock reads, since [NaN > 300] is false. *)
Theorem verifyHeader_nan_timestamp now_ms payload secret t :
  payload <> "" -> parseInt10 (Some t) = JNaN ->
  has_char "," t = false -> has_char "=" t = false ->
  verifyHeader now_ms payload
    (Some (join_with "," ["t=" +:+ t; "v1=" +:+ computeHMACSignature ("NaN." +:+ payload) secret]))
    (Some secret) DEFAULT_TOLERANCE = Normal tt.
Proof.
  intros Hp Hnan Hc He. set (sig := computeHMACSignature ("NaN." +:+ payload) secret).
  assert (header_safe sig) as [Hsc Hse] by apply lower_hex_header_safe, hmac_hex.
  apply verifyHeader_normal. split; [done|].
  eexists _, secret. split; [done|]. split; [cbn; rewrite string_app_cons; discriminate|].
  split; [done|].
  unfold parseHeader. rewrite split_on_join; first last.
  - repeat constructor; rewrite has_char_app; by apply orb_false_iff.
  - done.
  - cbn [foldl]. rewrite parseHeaderItem_t_raw, parseHeaderItem_v1, Hnan by done. cbn.
    split; [done|]. split; [by repeat constructor; apply candidate_error_hex; [apply hmac_nonempty|apply hmac_hex]|].
    split; [by apply list_elem_of_singleton|done].
Qed.
End Verification.

(** ** The Node crypto provider *)

#[export] Instance node_crypto : CryptoProvider := {|
  computeHMACSignature := Hmac.hmac_sha256_hex;
  hmac_length := hmac_sha256_hex_length;
  hmac_hex := hmac_sha256_hex_lower
|}.

(** ** Witnesses on concrete envelopes *)

Definition test_secret : string := "whsec_test".
Definition test_payload : string := "{}".
Definition test_ts : Z := 1700000000.

Lemma verifyHeader_sound_witness :
  test_payload <> "" /\ test_ts <> (-1)%Z /\ (Z.abs test_ts < 2 ^ 53)%Z /\ (1700000100000 / 1000 - test_ts <= DEFAULT_TOLERANCE)%Z /\
  verifyHeader 1700000100000 test_payload
    (Some (stripe_signature_header test_ts
      [computeHMACSignature (signed_content test_ts test_payload) test_secret]))
    (Some test_secret) DEFAULT_TOLERANCE = Normal tt.
Proof.
  split; [discriminate|]. split; [discriminate|]. split; [vm_compute; reflexivity|]. split; [vm_compute; discriminate|].
  apply verifyHeader_sound; [discriminate|discriminate|vm_compute; reflexivity|vm_compute; discriminate| |].
  - apply Forall_singleton. split; [vm_compute; reflexivity|vm_compute; discriminate].
  - apply list_elem_of_singleton. reflexivity.
Defined.

Lemma verifyHeader_rejects_other_secret_witness :
  test_payload <> "" /\ test_ts <> (-1)%Z /\ (Z.abs test_ts < 2 ^ 53)%Z /\
  computeHMACSignature (signed_content test_ts test_payload) "whsec_other" <>
    computeHMACSignature (signed_content test_ts test_payload) test_secret /\
  verifyHeader 1700000100000 test_payload
    (Some (stripe_signature_header test_ts
      [computeHMACSignature (signed_content test_ts test_payload) "whsec_other"]))
    (Some test_secret) DEFAULT_TOLERANCE = Thrown NoMatchingSignature.
Proof.
  split; [discriminate|]. split; [discriminate|]. split; [vm_compute; reflexivity|]. split; [vm_compute; discriminate|].
  apply verifyHeader_rejects_other_secret; [discriminate|discriminate|vm_compute; reflexivity|vm_compute; discriminate].
Defined.

Lemma verifyHeader_rejects_stale_witness :
  test_payload <> "" /\ test_ts <> (-1)%Z /\ (Z.abs test_ts < 2 ^ 53)%Z /\
  (1700021600000 / 1000 - test_ts > DEFAULT_TOLERANCE)%Z /\
  verifyHeader 1700021600000 test_payload
    (Some (stripe_signature_header test_ts
      [computeHMACSignature (signed_content test_ts test_payload) test_secret]))
    (Some test_secret) DEFAULT_TOLERANCE = Thrown TimestampOutsideTolerance.
Proof.
  split; [discriminate|]. split; [discriminate|]. split; [vm_compute; reflexivity|]. split; [vm_compute; reflexivity|].
  apply verifyHeader_rejects_stale; [discriminate|discriminate|vm_compute; reflexivity|vm_compute; reflexivity].
Defined.

Lemma verifyHeader_rejects_tampered_witness :
  "{ }" <> "" /\ test_ts <> (-1)%Z /\ (Z.abs test_ts < 2 ^ 53)%Z /\
  computeHMACSignature (signed_content test_ts "{ }") test_secret <>
    computeHMACSignature (signed_content test_ts test_payload) test_secret /\
  verifyHeader 1700000100000 "{ }"
    (Some (stripe_signature_header test_ts
      [computeHMACSignature (signed_content test_ts test_payload) test_secret]))
    (Some test_secret) DEFAULT_TOLERANCE = Thrown NoMatchingSignature.
Proof.
  split; [discriminate|]. split; [discriminate|]. split; [vm_compute; reflexivity|]. split; [vm_compute; discriminate|].
  apply verifyHeader_rejects_tampered; [discriminate|discriminate|vm_compute; reflexivity|vm_compute; discriminate].
Defined.

Lemma verifyHeader_nan_timestamp_witness :
  test_payload <> "" /\ parseInt10 (Some "never") = JNaN /\
  has_char "," "never" = false /\ has_char "=" "never" = false /\
  verifyHeader 4102444800000 test_payload
    (Some (join_with "," ["t=" +:+ "never";
       "v1=" +:+ computeHMACSignature ("NaN." +:+ test_payload) test_secret]))
    (Some test_secret) DEFAULT_TOLERANCE = Normal tt.
Proof.
  split; [discriminate|]. split; [reflexivity|]. split; [reflexivity|]. split; [reflexivity|].
  apply verifyHeader_nan_timestamp; [discriminate|reflexivity|reflexivity|reflexivity].
Defined.

Lemma parseHeader_stripe_signature_header_witness :
  (Z.abs 1700000000 < 2 ^ 53)%Z /\ Forall header_safe ["5257a869"; "0f1e2d3c"] /\
  parseHeader (stripe_signature_header 1700000000 ["5257a869"; "0f1e2d3c"]) EXPECTED_SCHEME =
  mkParsedHeader (JNum 1700000000) [Some "5257a869"; Some "0f1e2d3c"].
Proof.
  assert (Forall header_safe ["5257a869"; "0f1e2d3c"]) as Hs
    by (repeat constructor; reflexivity).
  split; [vm_compute; reflexivity|]. split; [exact Hs|].
  apply (parseHeader_stripe_signature_header 1700000000 _ ltac:(vm_compute; reflexivity) Hs).
Defined.
