(* ===== verification/Hono.v ===== *)
(** * The Hono route layer and the console

    What [new Hono()], [app.get], [app.post] and [app.fetch] do for the
    routes of index.ts, and how a handler's result becomes a response:

    - routes are kept in registration order; a request goes to the first
      route whose method and path match exactly, a [HEAD] request to the
      [GET] route with the body dropped, and an unmatched request gets
      [404 Not Found];
    - [c.text], [c.html], [c.json] build a 200 response with their
      content type;
    - a thrown [HTTPException(status, {message})] becomes its response:
      the status with the message as body ([""] when there is none);
      any other thrown error is logged with [console.error] and becomes
      [500 Internal Server Error] (Hono's default error handler).

    Handlers run in [prog S thrown]: a state [S] with a console
    ([Console] is the interface the application's state provides) and
    the two kinds of thrown values.  [post_app_fetch] lifts the
    well-formedness of every handler's result ([wf_response],
    [wf_thrown]) to the responses of [app.fetch]. *)

From S2P Require Import Prelude JsBuiltins Utf8 Json.
From stdpp Require Import gmap.

(** ** Requests and responses *)

Inductive method : Type := GET | HEAD | POST | PUT | DELETE | PATCH | OPTIONS.

#[export] Instance method_eq_dec : EqDecision method.
Proof. solve_decision. Defined.

(** Header names are lower-case; repeated headers are already joined,
    as the Fetch [Headers] object holds them. *)
Record request := mkRequest {
  req_method : method;
  req_path : string;
  req_headers : gmap string string;
  req_body : string
}.

Record response := mkResponse {
  res_status : Z;
  res_content_type : option string;
  res_body : string
}.

(** [c.req.header(name)] *)
Definition req_header (req : request) (name : string) : option string := req_headers req !! name.

(** [await c.req.text()]: the body decoded as UTF-8, a BOM dropped and
    ill-formed bytes replaced; as a string of the bytes the library
    hashes ([Utf8.body_text]). *)
Definition req_text (req : request) : string := body_text (req_body req).

(** ** The console *)

Inductive log_value : Type :=
| LogStr (s : string)
| LogVal (v : jsval)
| LogErr (name message : string).

Inductive log_entry : Type :=
| ConsoleLog (v : log_value)
| ConsoleError (v : log_value).

(** The state a handler runs on has a console it appends to. *)
Class Console (S : Type) := {
  console_log_of : S -> list log_entry;
  console_append : log_entry -> S -> S;
  console_append_log : forall e s, console_log_of (console_append e s) = console_log_of s ++ [e]
}.

Definition console_log {S E} `{Console S} (v : log_value) : prog S E unit :=
  modify (console_append (ConsoleLog v)).

Definition console_error {S E} `{Console S} (v : log_value) : prog S E unit :=
  modify (console_append (ConsoleError v)).

(** ** Thrown values *)

Inductive thrown : Type :=
| HTTPException (status : Z) (message : option string)
| JsError (name message : string).

(** ** The context helpers *)

Definition c_text (s : string) : response := mkResponse 200 (Some "text/plain; charset=UTF-8") s.
Definition c_text_status (s : string) (status : Z) : response :=
  mkResponse status (Some "text/plain; charset=UTF-8") s.
Definition c_html (s : string) : response := mkResponse 200 (Some "text/html; charset=UTF-8") s.
Definition c_json (j : json) : response := mkResponse 200 (Some "application/json") (stringify j).

(** [HTTPException.getResponse()]: [new Response(this.message, {status})] *)
Definition getResponse (status : Z) (message : option string) : response :=
  mkResponse status (Some "text/plain;charset=UTF-8") (default "" message).

(** Hono's default [errorHandler] *)
Definition errorHandler {S} `{Console S} (e : thrown) : prog S thrown response :=
  match e with
  | HTTPException status message => mret (getResponse status message)
  | JsError name message =>
      console_error (LogErr name message);;
      mret (c_text_status "Internal Server Error" 500)
  end.

Definition notFound : response := c_text_status "404 Not Found" 404.

(** ** Well-formed responses

    A response is well formed for a set of statuses when its status is
    one of them and it carries a content type; a thrown value is when the
    error handler turns it into such a response. *)

Definition wf_response (allowed : list Z) (r : response) : bool :=
  bool_decide (res_status r ∈ allowed) && bool_decide (is_Some (res_content_type r)).

Definition wf_thrown (allowed : list Z) (e : thrown) : bool :=
  match e with
  | HTTPException status _ => bool_decide (status ∈ allowed)
  | JsError _ _ => bool_decide (500%Z ∈ allowed)
  end.

(** ** Routes and dispatch *)

Record route (S : Type) := mkRoute {
  r_method : method;
  r_path : string;
  r_handler : request -> prog S thrown response
}.
Arguments mkRoute {S} _ _ _.
Arguments r_method {S} _.
Arguments r_path {S} _.
Arguments r_handler {S} _.

Definition app_get {S} (path : string) (h : request -> prog S thrown response) (app : list (route S))
  : list (route S) := app ++ [mkRoute GET path h].

Definition app_post {S} (path : string) (h : request -> prog S thrown response) (app : list (route S))
  : list (route S) := app ++ [mkRoute POST path h].

Definition route_matches {S} (m : method) (path : string) (r : route S) : bool :=
  bool_decide (r_method r = m) && String.eqb (r_path r) path.

Definition match_route {S} (app : list (route S)) (m : method) (path : string) : option (route S) :=
  List.find (route_matches m path) app.

(** Compose the matched handler with the error handler. *)
Definition dispatch {S} `{Console S} (app : list (route S)) (req : request) : prog S thrown response :=
  match match_route app (req_method req) (req_path req) with
  | Some r => try_catch (r_handler r req) errorHandler
  | None => mret notFound
  end.

(** [app.fetch(request)] *)
Definition app_fetch {S} `{Console S} (app : list (route S)) (req : request) : prog S thrown response :=
  match req_method req with
  | HEAD =>
      dispatch app (mkRequest GET (req_path req) (req_headers req) (req_body req)) ≫= fun r =>
      mret (mkResponse (res_status r) (res_content_type r) "")
  | _ => dispatch app req
  end.

(** ** Dispatch never lets an exception escape *)

Section Dispatch.
Context {S : Type} `{Console S}.

Lemma errorHandler_normal (e : thrown) (s : S) :
  exists s' r, errorHandler e s = (s', Normal r).
Proof. destruct e; cbn; eauto. Qed.

Lemma try_errorHandler_normal (m : prog S thrown response) (s : S) :
  exists s' r, try_catch m errorHandler s = (s', Normal r).
Proof.
  unfold try_catch. destruct (m s) as [s1 [r|e]]; [eauto|apply errorHandler_normal].
Qed.

Lemma dispatch_normal (app : list (route S)) (req : request) (s : S) :
  exists s' r, dispatch app req s = (s', Normal r).
Proof.
  unfold dispatch. destruct (match_route _ _ _) as [r|]; [apply try_errorHandler_normal|].
  cbn. eauto.
Qed.

(** [app.fetch] answers every request with a response: whatever a
    handler throws is turned into one by the error handler. *)
Theorem app_fetch_total (app : list (route S)) (req : request) (s : S) :
  exists s' r, app_fetch app req s = (s', Normal r).
Proof.
  unfold app_fetch. destruct (req_method req); try apply dispatch_normal.
  destruct (dispatch_normal app (mkRequest GET (req_path req) (req_headers req) (req_body req)) s)
    as (s' & r & Hd).
  rewrite (run_bind_normal _ _ _ _ _ Hd). cbn. eauto.
Qed.

(** A request whose method and path select a route runs its handler
    under the error handler. *)
Lemma app_fetch_route (app : list (route S)) (req : request) h :
  req_method req <> HEAD ->
  match_route app (req_method req) (req_path req) =
    Some (mkRoute (req_method req) (req_path req) h) ->
  app_fetch app req = try_catch (h req) errorHandler.
Proof.
  intros Hm Hr. unfold app_fetch, dispatch. rewrite Hr.
  destruct (req_method req); done.
Qed.
(** No route matches a method and path that no route registers. *)
Lemma match_route_none (app : list (route S)) (m : method) (p : string) :
  (m, p) ∉ map (fun r => (r_method r, r_path r)) app -> match_route app m p = None.
Proof.
  unfold match_route. induction app as [|r app IH]; cbn; [done|].
  rewrite not_elem_of_cons. intros [Hr Hn]. unfold route_matches at 1.
  case_bool_decide as Hm; cbn; [|by apply IH].
  destruct (String.eqb_spec (r_path r) p); [|by apply IH]. congruence.
Qed.
End Dispatch.

(** ** Well-formedness of responses, compositionally *)

Section WellFormed.
Context {S : Type} `{Console S} (allowed : list Z).

Lemma post_console_log {E} Q v : post (S:=S) (E:=E) (fun _ => True) Q (console_log v).
Proof. apply post_modify. Qed.

Lemma post_console_error {E} Q v : post (S:=S) (E:=E) (fun _ => True) Q (console_error v).
Proof. apply post_modify. Qed.

Lemma post_errorHandler e :
  wf_thrown allowed e = true ->
  post (S:=S) (fun r => wf_response allowed r = true) (fun _ => False) (errorHandler e).
Proof.
  intros He. destruct e as [status msg|name msg]; cbn [errorHandler].
  2: apply (post_bind (fun _ => True)); [apply post_console_error|intros _ _].
  all: apply post_ret; apply andb_true_intro; split; [exact He|by apply bool_decide_eq_true_2].
Qed.

Context (H404 : (404%Z ∈ allowed)).

Lemma post_dispatch (app : list (route S)) req :
  Forall (fun r => forall req, post (fun r => wf_response allowed r = true)
                                 (fun e => wf_thrown allowed e = true) (r_handler r req)) app ->
  post (fun r => wf_response allowed r = true) (fun _ => False) (dispatch app req).
Proof.
  intros Hall. unfold dispatch. destruct (match_route _ _ _) as [r|] eqn:Hr.
  - apply find_some in Hr as [Hin _]. rewrite Forall_forall in Hall.
    apply (post_try _ _ _ _ _ (Hall r (proj2 (list_elem_of_In _ _) Hin) req)).
    apply post_errorHandler.
  - apply post_ret. unfold wf_response. cbn. by rewrite !bool_decide_eq_true_2.
Qed.

(** If every route's handler returns a well-formed response or throws a
    value the error handler makes into one, and [404] is allowed, every
    response of [app.fetch] is well formed and nothing escapes it. *)
Lemma post_app_fetch (app : list (route S)) req :
  Forall (fun r => forall req, post (fun r => wf_response allowed r = true)
                                 (fun e => wf_thrown allowed e = true) (r_handler r req)) app ->
  post (fun r => wf_response allowed r = true) (fun _ => False) (app_fetch app req).
Proof.
  intros Hall. unfold app_fetch. destruct (req_method req); try by apply post_dispatch.
  apply (post_bind _ _ _ _ _ (post_dispatch _ _ Hall)). intros r Hr. by apply post_ret.
Qed.
End WellFormed.

#[export] Hint Resolve post_console_log post_console_error : post.
