(* ===== verification/Url.v ===== *)
(** * The path of a request: Hono's [getPath]

    [app.fetch] does not route on the request's URL but on
    [getPath(request)] (hono, utils/url.ts, the default of the [strict]
    router): from the first [/] at or after index 8 of [request.url]
    (past [http://] and the first character of the host) up to the
    first [?], and, when a [%] comes first, the whole path up to the
    query decoded by [tryDecodeURI].  [tryDecodeURI] protects the
    escape [%25] (it becomes [%2525], so that it decodes to itself),
    then calls [decodeURI]; when that throws a [URIError] it decodes
    each maximal run of [%XX] escapes on its own and keeps the runs
    that still throw ([tryDecode]).

    [decodeURI] is ECMA-262's [Decode(string, reservedSet)] with the
    reserved set [;/?:@&=+$,#]: an escape of an ASCII character of the
    set is kept as written, one of another ASCII character becomes the
    character, an escape of a byte [0x80] or more starts a UTF-8
    sequence of [n] escapes ([n] the number of leading one bits, 2 to
    4), which must be a valid UTF-8 encoding of a code point (no
    overlong form, no surrogate, at most U+10FFFF); a [%] not followed
    by two hex digits, or a sequence that is not valid, throws.  Strings
    are lists of bytes as elsewhere in the development, so a decoded
    code point is appended as its UTF-8 octets.

    The loops of [decodeURI] and of the fallback consume at least one
    character a step; they run on [S (length l)] steps, which
    [decode_go_fuel] shows is enough: any more fuel gives the same
    result. *)

From S2P Require Import Prelude.
From stdpp Require Import list strings.

Definition PCT : Ascii.ascii := Ascii.ascii_of_N 37.
Definition QM : Ascii.ascii := Ascii.ascii_of_N 63.
Definition SLASH : Ascii.ascii := Ascii.ascii_of_N 47.

(** ** JavaScript string built-ins on lists of characters *)

Fixpoint find_index (p : Ascii.ascii -> bool) (l : list Ascii.ascii) : option nat :=
  match l with
  | [] => None
  | c :: l' => if p c then Some 0 else S <$> find_index p l'
  end.

(** [u.indexOf(c, from)]: [-1] when absent. *)
Definition index_of (c : Ascii.ascii) (u : list Ascii.ascii) (from : nat) : Z :=
  match find_index (Ascii.eqb c) (drop from u) with
  | Some k => Z.of_nat (from + k)
  | None => (-1)%Z
  end.

(** [u.slice(a, b)]: negative bounds count from the end. *)
Definition js_slice (u : list Ascii.ascii) (a b : Z) : list Ascii.ascii :=
  let len := Z.of_nat (length u) in
  let clamp x := if (x <? 0)%Z then Z.max (len + x) 0 else Z.min x len in
  let from := Z.to_nat (clamp a) in
  take (Z.to_nat (clamp b) - from) (drop from u).

(** ** [decodeURI] *)

Definition hex_val (c : Ascii.ascii) : option N :=
  let n := Ascii.N_of_ascii c in
  if (48 <=? n)%N && (n <=? 57)%N then Some (n - 48)%N
  else if (65 <=? n)%N && (n <=? 70)%N then Some (n - 55)%N
  else if (97 <=? n)%N && (n <=? 102)%N then Some (n - 87)%N
  else None.

(** [;/?:@&=+$,#] *)
Definition reserved (c : Ascii.ascii) : bool :=
  existsb (Ascii.eqb c) (String.list_ascii_of_string ";/?:@&=+$,#").

(** The escape [%XX] at the head of [l]: its byte and what follows. *)
Definition escape (l : list Ascii.ascii) : option (N * list Ascii.ascii) :=
  match l with
  | p :: h1 :: h2 :: rest =>
      if Ascii.eqb p PCT then
        match hex_val h1, hex_val h2 with
        | Some d1, Some d2 => Some (16 * d1 + d2, rest)%N
        | _, _ => None
        end
      else None
  | _ => None
  end.

(** The number of leading one bits of a byte. *)
Definition leading_ones (b : N) : nat :=
  if (b <? 128)%N then 0 else if (b <? 192)%N then 1 else if (b <? 224)%N then 2
  else if (b <? 240)%N then 3 else if (b <? 248)%N then 4 else 5.

(** [m] escapes of continuation bytes ([10xxxxxx]). *)
Fixpoint read_conts (m : nat) (l : list Ascii.ascii) : option (list N * list Ascii.ascii) :=
  match m with
  | 0 => Some ([], l)
  | S m' =>
      match escape l with
      | Some (b, rest) =>
          if (128 <=? b)%N && (b <? 192)%N then
            '(bs, rest') ← read_conts m' rest; Some (b :: bs, rest')
          else None
      | None => None
      end
  end.

(** The code point of a sequence, and whether it is a valid UTF-8
    encoding of one: shortest form, no surrogate, at most U+10FFFF. *)
Definition utf8_value (bs : list N) : N :=
  match bs with
  | [b0; b1] => N.lor (N.shiftl (N.land b0 31) 6) (N.land b1 63)
  | [b0; b1; b2] => N.lor (N.shiftl (N.land b0 15) 12) (N.lor (N.shiftl (N.land b1 63) 6) (N.land b2 63))
  | [b0; b1; b2; b3] =>
      N.lor (N.shiftl (N.land b0 7) 18)
        (N.lor (N.shiftl (N.land b1 63) 12) (N.lor (N.shiftl (N.land b2 63) 6) (N.land b3 63)))
  | _ => 0
  end.

Definition utf8_valid (bs : list N) : bool :=
  let v := utf8_value bs in
  match length bs with
  | 2 => (128 <=? v)%N
  | 3 => (2048 <=? v)%N && negb ((55296 <=? v)%N && (v <=? 57343)%N)
  | 4 => (65536 <=? v)%N && (v <=? 1114111)%N
  | _ => false
  end.

Fixpoint decode_go (fuel : nat) (l : list Ascii.ascii) : option (list Ascii.ascii) :=
  match fuel with
  | 0 => None
  | S f =>
      match l with
      | [] => Some []
      | c :: l' =>
          if negb (Ascii.eqb c PCT) then cons c <$> decode_go f l'
          else
            match escape l with
            | None => None
            | Some (b, rest) =>
                if (b <? 128)%N then
                  let C := Ascii.ascii_of_N b in
                  app (if reserved C then take 3 l else [C]) <$> decode_go f rest
                else
                  let n := leading_ones b in
                  if (n =? 1) || (4 <? n) then None
                  else
                    match read_conts (n - 1) rest with
                    | Some (bs, rest') =>
                        if utf8_valid (b :: bs) then app (map Ascii.ascii_of_N (b :: bs)) <$> decode_go f rest'
                        else None
                    | None => None
                    end
            end
      end
  end.

(** [decodeURI(l)]: [None] is the [URIError]. *)
Definition decodeURI (l : list Ascii.ascii) : option (list Ascii.ascii) := decode_go (S (length l)) l.

(** ** [tryDecodeURI] *)

(** The maximal run of escapes at the head of [l]: what the pattern
    [(?:%[0-9A-Fa-f]{2})+] matches there, and what follows. *)
Fixpoint escape_run (l : list Ascii.ascii) : list Ascii.ascii * list Ascii.ascii :=
  match l with
  | p :: h1 :: h2 :: rest =>
      if Ascii.eqb p PCT && bool_decide (is_Some (hex_val h1)) && bool_decide (is_Some (hex_val h2)) then
        let '(r, rest') := escape_run rest in (p :: h1 :: h2 :: r, rest')
      else ([], l)
  | _ => ([], l)
  end.

(** [str.replace(/(?:%[0-9A-Fa-f]{2})+/g, m => decodeURI(m), or m when it throws)]. *)
Fixpoint fallback_go (fuel : nat) (l : list Ascii.ascii) : list Ascii.ascii :=
  match fuel with
  | 0 => l
  | S f =>
      match l with
      | [] => []
      | c :: l' =>
          match escape_run l with
          | ([], _) => c :: fallback_go f l'
          | (run, rest) => default run (decodeURI run) ++ fallback_go f rest
          end
      end
  end.

(** [tryDecode(str, decodeURI)]: [decodeURI], or on a [URIError] the
    runs of escapes decoded one by one. *)
Definition tryDecode (l : list Ascii.ascii) : list Ascii.ascii :=
  match decodeURI l with
  | Some d => d
  | None => fallback_go (S (length l)) l
  end.

Fixpoint has_pct25 (l : list Ascii.ascii) : bool :=
  match l with
  | p :: ((a :: b :: _) as t) =>
      (Ascii.eqb p PCT && Ascii.eqb a "2"%char && Ascii.eqb b "5"%char) || has_pct25 t
  | _ => false
  end.

(** [path.replace(/%25/g, '%2525')] *)
Fixpoint protect_pct25 (l : list Ascii.ascii) : list Ascii.ascii :=
  match l with
  | p :: ((a :: b :: rest) as t) =>
      if Ascii.eqb p PCT && Ascii.eqb a "2"%char && Ascii.eqb b "5"%char
      then PCT :: "2"%char :: "5"%char :: "2"%char :: "5"%char :: protect_pct25 rest
      else p :: protect_pct25 t
  | _ => l
  end.

(** [tryDecodeURI(path)] *)
Definition tryDecodeURI (l : list Ascii.ascii) : list Ascii.ascii :=
  tryDecode (if has_pct25 l then protect_pct25 l else l).

(** ** [getPath] *)

(** The characters that stop [getPath]'s loop: [%] and [?]. *)
Definition stop_char (c : Ascii.ascii) : bool := Ascii.eqb c PCT || Ascii.eqb c QM.

(** [getPath(request)]: [start = url.indexOf('/', 8)]; the loop from
    [start] stops at a [%] (decode the path up to the query) or a [?]
    (the path up to it). *)
Definition getPath (url : string) : string :=
  let u := String.list_ascii_of_string url in
  let len := Z.of_nat (length u) in
  let start := index_of SLASH u 8 in
  let i0 := Z.to_nat (Z.max start 0) in
  String.string_of_list_ascii
    match find_index stop_char (drop i0 u) with
    | Some k =>
        if Ascii.eqb (default PCT (u !! (i0 + k))) PCT then
          let q := index_of QM u (i0 + k) in
          tryDecodeURI (js_slice u start (if (q =? -1)%Z then len else q))
        else js_slice u start (Z.of_nat (i0 + k))
    | None => js_slice u start len
    end.

(** ** Percent-encoding *)

Definition hex_upper (d : N) : Ascii.ascii := Ascii.ascii_of_N (if (d <? 10)%N then 48 + d else 55 + d)%N.

(** [encodeURIComponent] of one ASCII character: [%] and two upper-case
    hex digits. *)
Definition pct_encode (c : Ascii.ascii) : list Ascii.ascii :=
  [PCT; hex_upper (Ascii.N_of_ascii c / 16); hex_upper (Ascii.N_of_ascii c mod 16)]%N.

Definition encode_all (s : list Ascii.ascii) : list Ascii.ascii := s ≫= pct_encode.

(** [l] does not hold [c]. *)
Definition no_char (c : Ascii.ascii) (l : list Ascii.ascii) : bool := forallb (fun d => negb (Ascii.eqb d c)) l.

(** No [%] of [l] starts an escape [%XX]. *)
Fixpoint no_escape (l : list Ascii.ascii) : bool :=
  match l with
  | [] => true
  | c :: l' => negb (bool_decide (is_Some (escape l))) && no_escape l'
  end.

(** ** Fuel *)

Lemma escape_length l b rest : escape l = Some (b, rest) -> length l = 3 + length rest.
Proof. unfold escape. repeat case_match; naive_solver. Qed.

Lemma read_conts_length m l bs rest : read_conts m l = Some (bs, rest) -> length rest <= length l.
Proof.
  revert l bs. induction m as [|m IH]; intros l bs; cbn; [intros [= _ ->]; lia|].
  destruct (escape l) as [[b r]|] eqn:He; [|done]. apply escape_length in He.
  case_match; [|done]. destruct (read_conts m r) as [[bs' r']|] eqn:Hr; [|done].
  intros [= _ <-]. apply IH in Hr. lia.
Qed.

Lemma decode_go_fuel f f' l : length l < f -> length l < f' -> decode_go f l = decode_go f' l.
Proof.
  revert f' l. induction f as [|f IH]; intros [|f'] l Hf Hf'; try lia.
  destruct l as [|c l']; [done|]. cbn [decode_go]. cbn [length] in *.
  destruct (negb _); [rewrite (IH f'); [done|lia|lia]|].
  destruct (escape (c :: l')) as [[b rest]|] eqn:He; [|done]. apply escape_length in He. cbn in He.
  destruct (b <? 128)%N; [rewrite (IH f'); [done|lia|lia]|].
  destruct (_ || _); [done|]. destruct (read_conts _ rest) as [[bs rest']|] eqn:Hr; [|done].
  apply read_conts_length in Hr. destruct (utf8_valid _); [|done]. rewrite (IH f'); [done|lia|lia].
Qed.

Lemma decodeURI_go f l : length l < f -> decode_go f l = decodeURI l.
Proof. intros Hf. apply decode_go_fuel; [done|lia]. Qed.

(** ** Equations of [decodeURI] *)

Lemma decodeURI_nil : decodeURI [] = Some [].
Proof. reflexivity. Qed.

Lemma decodeURI_cons c l : Ascii.eqb c PCT = false -> decodeURI (c :: l) = cons c <$> decodeURI l.
Proof. intros Hc. unfold decodeURI. cbn [length]. generalize (S (length l)). intros f. cbn [decode_go]. by rewrite Hc. Qed.

Lemma decodeURI_bad_escape l : escape (PCT :: l) = None -> decodeURI (PCT :: l) = None.
Proof. intros He. unfold decodeURI. generalize (length (PCT :: l)). intros f. cbn [decode_go]. by rewrite Ascii.eqb_refl, He. Qed.

Lemma decodeURI_no_pct l : no_char PCT l = true -> decodeURI l = Some l.
Proof.
  induction l as [|c l IH]; [done|]. cbn -[decodeURI]. intros [Hc Hl]%andb_prop. apply negb_true_iff in Hc.
  by rewrite decodeURI_cons, IH.
Qed.

Lemma decodeURI_app_no_pct l1 l2 : no_char PCT l1 = true -> decodeURI (l1 ++ l2) = app l1 <$> decodeURI l2.
Proof.
  induction l1 as [|c l1 IH]; cbn -[decodeURI]; [by destruct (decodeURI l2)|]. intros [Hc Hl]%andb_prop. apply negb_true_iff in Hc.
  rewrite decodeURI_cons, IH by done. by destruct (decodeURI l2).
Qed.

Lemma hex_val_upper d : (d < 16)%N -> hex_val (hex_upper d) = Some d.
Proof.
  intros Hd. assert (Hd' : (N.to_nat d < 16)%nat) by lia. rewrite <- (N2Nat.id d).
  remember (N.to_nat d) as n eqn:En. clear En Hd.
  do 16 (destruct n as [|n]; [reflexivity|]). lia.
Qed.

Lemma escape_pct_encode c l : escape (pct_encode c ++ l) = Some (Ascii.N_of_ascii c, l).
Proof.
  pose proof (Ascii.N_ascii_bounded c) as Hb. unfold pct_encode. cbn [app escape].
  rewrite !hex_val_upper by (apply N.mod_lt || apply N.Div0.div_lt_upper_bound; lia). cbn.
  f_equal. f_equal. pose proof (N.div_mod (Ascii.N_of_ascii c) 16). lia.
Qed.

Lemma decode_go_ascii_escape f l b rest :
  escape (PCT :: l) = Some (b, rest) -> (b < 128)%N ->
  decode_go (S f) (PCT :: l) =
  app (if reserved (Ascii.ascii_of_N b) then take 3 (PCT :: l) else [Ascii.ascii_of_N b]) <$> decode_go f rest.
Proof.
  intros He Hb. cbn [decode_go]. rewrite Ascii.eqb_refl. cbn [negb]. rewrite He.
  by replace (b <? 128)%N with true by (symmetry; by apply N.ltb_lt).
Qed.

(** An escape of an ASCII character outside the reserved set decodes to
    the character. *)
Lemma decodeURI_pct_encode c l :
  (Ascii.N_of_ascii c < 128)%N -> reserved c = false -> decodeURI (pct_encode c ++ l) = cons c <$> decodeURI l.
Proof.
  intros Hc Hr. pose proof (escape_pct_encode c l) as He. unfold decodeURI at 1. cbn [pct_encode app length] in He |- *.
  rewrite (decode_go_ascii_escape _ _ _ _ He Hc), Ascii.ascii_N_embedding, Hr, decodeURI_go by lia. done.
Qed.

(** The characters [decodeURI] gives back from their escapes. *)
Definition unreserved_ascii (c : Ascii.ascii) : bool :=
  (Ascii.N_of_ascii c <? 128)%N && negb (reserved c) && negb (Ascii.eqb c PCT).

Lemma encode_all_cons c s : encode_all (c :: s) = pct_encode c ++ encode_all s.
Proof. reflexivity. Qed.

Lemma decodeURI_encode_all s l :
  forallb unreserved_ascii s = true -> decodeURI (encode_all s ++ l) = app s <$> decodeURI l.
Proof.
  induction s as [|c s IH]; [intros _; cbn -[decodeURI]; by destruct (decodeURI l)|]. rewrite encode_all_cons. cbn [forallb].
  intros [[[Hc Hr]%andb_prop _]%andb_prop Hs]%andb_prop. apply N.ltb_lt in Hc. apply negb_true_iff in Hr.
  rewrite <- app_assoc, decodeURI_pct_encode, IH by done. by destruct (decodeURI l).
Qed.

(** ** The escape [%25] *)

Lemma hex_upper_not_pct d : (d < 16)%N -> Ascii.eqb (hex_upper d) PCT = false.
Proof. intros Hd. apply Ascii.eqb_neq. intros He. pose proof (hex_val_upper d Hd) as Hv. by rewrite He in Hv. Qed.

Lemma has_pct25_cons c l : Ascii.eqb c PCT = false -> has_pct25 (c :: l) = has_pct25 l.
Proof. intros Hc. destruct l as [|a [|b l]]; cbn [has_pct25]; rewrite ?Hc; done. Qed.

Lemma hex_upper_inj d d' : (d < 16)%N -> (d' < 16)%N -> hex_upper d = hex_upper d' -> d = d'.
Proof. intros Hd Hd' E. pose proof (hex_val_upper d Hd) as H1. rewrite E, hex_val_upper in H1 by done. congruence. Qed.

(** The escape of a character other than [%] is not [%25]. *)
Lemma has_pct25_pct_encode c l : Ascii.eqb c PCT = false -> has_pct25 (pct_encode c ++ l) = has_pct25 l.
Proof.
  intros Hc. pose proof (Ascii.N_ascii_bounded c) as Hb.
  assert (H16 : (Ascii.N_of_ascii c / 16 < 16)%N) by (apply N.Div0.div_lt_upper_bound; lia).
  assert (Hm : (Ascii.N_of_ascii c mod 16 < 16)%N) by (apply N.mod_lt; lia).
  unfold pct_encode. cbn [app].
  change (has_pct25 (PCT :: ?a :: ?b :: ?r)) with ((Ascii.eqb PCT PCT && Ascii.eqb a "2"%char && Ascii.eqb b "5"%char) || has_pct25 (a :: b :: r)).
  rewrite (has_pct25_cons (hex_upper _)), (has_pct25_cons (hex_upper _)) by by apply hex_upper_not_pct.
  destruct (Ascii.eqb (hex_upper _) "2"%char) eqn:E2; [|done]. destruct (Ascii.eqb (hex_upper _) "5"%char) eqn:E5; [|by rewrite andb_false_r].
  apply Ascii.eqb_eq in E2, E5. change "2"%char with (hex_upper 2) in E2. change "5"%char with (hex_upper 5) in E5.
  apply hex_upper_inj in E2, E5; try done; try lia.
  pose proof (N.div_mod (Ascii.N_of_ascii c) 16) as Hdm. rewrite E2, E5 in Hdm.
  apply Ascii.eqb_neq in Hc. exfalso. apply Hc. rewrite <- (Ascii.ascii_N_embedding c), Hdm by lia. reflexivity.
Qed.

Lemma has_pct25_encode_all s : forallb unreserved_ascii s = true -> has_pct25 (encode_all s) = false.
Proof.
  induction s as [|c s IH]; [done|]. rewrite encode_all_cons. cbn [forallb]. intros [[_ Hc]%andb_prop Hs]%andb_prop.
  apply negb_true_iff in Hc. rewrite has_pct25_pct_encode by done. by apply IH.
Qed.

(** ** [getPath] on a URL [prefix ++ path ++ query] *)

Lemma no_char_eqb c l : no_char c l = forallb (fun d => negb (Ascii.eqb c d)) l.
Proof. unfold no_char. induction l as [|d l IH]; cbn; [done|]. by rewrite Ascii.eqb_sym, IH. Qed.

Lemma no_char_app c l1 l2 : no_char c (l1 ++ l2) = no_char c l1 && no_char c l2.
Proof. apply forallb_app. Qed.

Lemma find_index_app_none p l1 l2 :
  forallb (fun c => negb (p c)) l1 = true -> find_index p (l1 ++ l2) = Nat.add (length l1) <$> find_index p l2.
Proof.
  induction l1 as [|c l1 IH]; cbn; [by destruct (find_index p l2)|]. intros [Hc Hl]%andb_prop.
  apply negb_true_iff in Hc. rewrite Hc, IH by done. by destruct (find_index p l2).
Qed.

Lemma index_of_at c u from l1 l2 :
  drop from u = l1 ++ c :: l2 -> no_char c l1 = true -> index_of c u from = Z.of_nat (from + length l1).
Proof.
  unfold index_of. intros -> Hn. rewrite find_index_app_none by by rewrite <- no_char_eqb.
  cbn. rewrite Ascii.eqb_refl. cbn. f_equal. lia.
Qed.

Lemma index_of_none c u from : no_char c (drop from u) = true -> index_of c u from = (-1)%Z.
Proof.
  unfold index_of. intros Hn. rewrite <- (app_nil_r (drop from u)), find_index_app_none by by rewrite <- no_char_eqb.
  done.
Qed.

Lemma js_slice_mid pre p t a b :
  a = length pre -> b = length pre + length p -> js_slice (pre ++ p ++ t) (Z.of_nat a) (Z.of_nat b) = p.
Proof.
  intros -> ->. unfold js_slice. rewrite !length_app.
  rewrite !(proj2 (Z.ltb_ge _ _)) by lia. rewrite !Z.min_l by lia. rewrite !Nat2Z.id.
  replace (length pre + length p - length pre) with (length p) by lia.
  by rewrite drop_app_length, take_app_length.
Qed.

Lemma no_stop l : no_char PCT l = true -> no_char QM l = true -> forallb (fun c => negb (stop_char c)) l = true.
Proof.
  unfold no_char. induction l as [|c l IH]; [done|]. cbn [forallb]. intros [Hp Hl]%andb_prop [Hq Hl']%andb_prop.
  unfold stop_char. apply negb_true_iff in Hp, Hq. rewrite Hp, Hq. cbn [orb negb andb]. by apply IH.
Qed.

Section Url.
(** A URL [pre ++ p ++ tail]: [pre] is the scheme and the host, at least
    8 characters, without [/] from index 8 on; the path [p] starts with
    [/] and holds no [?]; [tail] is empty or a query. *)
Context (pre p tail : list Ascii.ascii).
Hypothesis Hpre : 8 <= length pre.
Hypothesis Hhost : no_char SLASH (drop 8 pre) = true.
Hypothesis Hslash : head p = Some SLASH.
Hypothesis Hqm : no_char QM p = true.
Hypothesis Htail : tail = [] \/ exists q, tail = QM :: q.

Local Abbreviation u := (pre ++ p ++ tail).

Lemma lookup_mid (pre' p' : list Ascii.ascii) c t : (pre' ++ p' ++ c :: t) !! (length pre' + length p') = Some c.
Proof. rewrite lookup_app_r, lookup_app_r by lia. by replace (_ - _ - _) with 0 by lia. Qed.

Lemma path_start : index_of SLASH u 8 = Z.of_nat (length pre).
Proof.
  destruct p as [|c p']; [done|]. injection Hslash as ->.
  rewrite (index_of_at SLASH _ 8 (drop 8 pre) (p' ++ tail)); [f_equal; rewrite length_drop; lia| |done].
  by rewrite drop_app_le by lia.
Qed.

Lemma getPath_loop :
  getPath (String.string_of_list_ascii u) =
  String.string_of_list_ascii
    match find_index stop_char (p ++ tail) with
    | Some k =>
        if Ascii.eqb (default PCT (u !! (length pre + k))) PCT then
          let q := index_of QM u (length pre + k) in
          tryDecodeURI (js_slice u (Z.of_nat (length pre)) (if (q =? -1)%Z then Z.of_nat (length u) else q))
        else js_slice u (Z.of_nat (length pre)) (Z.of_nat (length pre + k))
    | None => js_slice u (Z.of_nat (length pre)) (Z.of_nat (length u))
    end.
Proof.
  unfold getPath. rewrite String.list_ascii_of_string_of_list_ascii, path_start, Z.max_l, Nat2Z.id by lia.
  by rewrite drop_app_length.
Qed.

(** A path without [%] is read as written, whatever the query. *)
Lemma getPath_plain : no_char PCT p = true -> getPath (String.string_of_list_ascii u) = String.string_of_list_ascii p.
Proof.
  intros Hpct. rewrite getPath_loop, find_index_app_none by by apply no_stop.
  destruct Htail as [->|[q ->]].
  - cbn [find_index fmap option_fmap option_map]. f_equal. apply js_slice_mid; [done|rewrite !length_app; cbn; lia].
  - replace (find_index stop_char (QM :: q)) with (Some 0) by reflexivity. cbn [fmap option_fmap option_map].
    rewrite Nat.add_0_r, lookup_mid. change (Ascii.eqb QM PCT) with false. cbv iota.
    f_equal. by apply js_slice_mid.
Qed.

(** A path with a [%] is decoded up to the query. *)
Lemma getPath_pct p1 p2 :
  p = p1 ++ PCT :: p2 -> no_char PCT p1 = true ->
  getPath (String.string_of_list_ascii u) = String.string_of_list_ascii (tryDecodeURI p).
Proof.
  intros Ep Hp1. pose proof Hqm as Hq. rewrite Ep, no_char_app in Hq. apply andb_prop in Hq as [Hq1 Hq2].
  rewrite getPath_loop, Ep, <- app_assoc. cbn [app].
  rewrite find_index_app_none by by apply no_stop. replace (find_index stop_char (PCT :: _)) with (Some 0) by reflexivity.
  cbn [fmap option_fmap option_map]. rewrite Nat.add_0_r, lookup_mid, Ascii.eqb_refl. cbv zeta iota.
  f_equal. f_equal.
  assert (Hdrop : forall t, drop (length pre + length p1) (pre ++ p1 ++ PCT :: p2 ++ t) = PCT :: p2 ++ t).
  { intros t. by rewrite app_assoc, drop_app_length' by (rewrite length_app; lia). }
  assert (Hshape : forall t, pre ++ p1 ++ PCT :: p2 ++ t = pre ++ (p1 ++ PCT :: p2) ++ t).
  { intros t. by rewrite <- app_assoc. }
  destruct Htail as [->|[q ->]].
  - rewrite index_of_none by (rewrite Hdrop, app_nil_r; done). rewrite Z.eqb_refl, Hshape.
    apply js_slice_mid; [done|rewrite !length_app; cbn; lia].
  - rewrite (index_of_at QM _ _ (PCT :: p2) q) by (try rewrite Hdrop; done).
    rewrite (proj2 (Z.eqb_neq _ _)) by lia. rewrite Hshape.
    apply js_slice_mid; [done|rewrite length_app; cbn; lia].
Qed.
End Url.

Lemma split_first c l : no_char c l = false -> exists l1 l2, l = l1 ++ c :: l2 /\ no_char c l1 = true.
Proof.
  induction l as [|d l IH]; [done|]. unfold no_char. cbn [forallb]. unfold no_char in IH.
  destruct (Ascii.eqb d c) eqn:Hd; cbn.
  - intros _. apply Ascii.eqb_eq in Hd as ->. by exists [], l.
  - intros (l1 & l2 & -> & Hl1)%IH. exists (d :: l1), l2. cbn. by rewrite Hd, Hl1.
Qed.

(** [getPath] reads the path of a URL [pre ++ p ++ tail]: as written
    without [%], through [tryDecodeURI] with one. *)
Lemma getPath_path pre p tail :
  8 <= length pre -> no_char SLASH (drop 8 pre) = true -> head p = Some SLASH -> no_char QM p = true ->
  (tail = [] \/ exists q, tail = QM :: q) ->
  getPath (String.string_of_list_ascii (pre ++ p ++ tail)) =
  String.string_of_list_ascii (if no_char PCT p then p else tryDecodeURI p).
Proof.
  intros H8 Hh Hs Hq Ht. destruct (no_char PCT p) eqn:Hp; [by apply getPath_plain|].
  destruct (split_first _ _ Hp) as (p1 & p2 & Ep & Hp1). by eapply getPath_pct.
Qed.

(** ** Decoding an encoded path, and paths without escapes *)

Lemma tryDecodeURI_encode_all s :
  forallb unreserved_ascii s = true -> tryDecodeURI (SLASH :: encode_all s) = SLASH :: s.
Proof.
  intros Hs. unfold tryDecodeURI. rewrite has_pct25_cons, has_pct25_encode_all by done.
  unfold tryDecode. rewrite decodeURI_cons, <- (app_nil_r (encode_all s)), decodeURI_encode_all by done.
  cbn. by rewrite app_nil_r.
Qed.

Lemma escape_run_nil l : bool_decide (is_Some (escape l)) = false -> escape_run l = ([], l).
Proof.
  destruct l as [|p [|h1 [|h2 r]]]; try done. unfold escape. cbn [escape_run].
  destruct (Ascii.eqb p PCT); [|done]. by destruct (hex_val h1), (hex_val h2).
Qed.

Lemma fallback_go_no_escape f l : no_escape l = true -> fallback_go f l = l.
Proof.
  revert l. induction f as [|f IH]; intros [|c l] Hl; try done. cbn in Hl. apply andb_prop in Hl as [Hc Hl].
  cbn [fallback_go]. rewrite escape_run_nil by by apply negb_true_iff. by rewrite IH.
Qed.

(** Without escapes, [decodeURI] succeeds exactly when there is no [%]. *)
Lemma decodeURI_no_escape l : no_escape l = true -> decodeURI l = if no_char PCT l then Some l else None.
Proof.
  induction l as [|c l IH]; [done|]. cbn [no_escape]. intros [Hc Hl]%andb_prop. unfold no_char. cbn [forallb].
  destruct (Ascii.eqb c PCT) eqn:E.
  - apply Ascii.eqb_eq in E as ->. cbn [negb andb]. apply decodeURI_bad_escape.
    apply negb_true_iff, bool_decide_eq_false in Hc. destruct (escape _); [exfalso; apply Hc; eauto|done].
  - rewrite decodeURI_cons, IH by done. unfold no_char. by destruct (forallb _ l).
Qed.

Lemma has_pct25_unfold c l :
  has_pct25 (c :: l) = match l with a :: b :: _ => Ascii.eqb c PCT && Ascii.eqb a "2"%char && Ascii.eqb b "5"%char | _ => false end || has_pct25 l.
Proof. by destruct l as [|a [|b l]]. Qed.

Lemma has_pct25_no_escape l : no_escape l = true -> has_pct25 l = false.
Proof.
  induction l as [|c l IH]; [done|]. cbn [no_escape]. intros [Hc Hl]%andb_prop. rewrite has_pct25_unfold, IH by done.
  destruct l as [|a [|b r]]; try done. apply negb_true_iff in Hc.
  destruct (Ascii.eqb c PCT) eqn:E1, (Ascii.eqb a "2"%char) eqn:E2, (Ascii.eqb b "5"%char) eqn:E5; try done.
  apply Ascii.eqb_eq in E1 as ->, E2 as ->, E5 as ->. by vm_compute in Hc.
Qed.

(** A path none of whose [%] starts an escape is kept as written: the
    [URIError] is caught and nothing is decoded. *)
Lemma tryDecodeURI_no_escape l : no_escape l = true -> tryDecodeURI l = l.
Proof.
  intros Hl. unfold tryDecodeURI, tryDecode. rewrite has_pct25_no_escape, decodeURI_no_escape by done.
  destruct (no_char PCT l); [done|]. by apply fallback_go_no_escape.
Qed.

(** ** URLs as [serve] hands them over *)

(** The scheme and host: at least 8 characters, no [/] from index 8. *)
Definition host_ok (pre : list Ascii.ascii) : bool := (8 <=? length pre) && no_char SLASH (drop 8 pre).

(** A path: it starts with [/] and holds no [?]. *)
Definition path_ok (p : list Ascii.ascii) : bool := bool_decide (head p = Some SLASH) && no_char QM p.

Lemma getPath_url pre p tail :
  host_ok pre = true -> path_ok p = true -> (tail = [] \/ exists q, tail = QM :: q) ->
  getPath (String.string_of_list_ascii (pre ++ p ++ tail)) =
  String.string_of_list_ascii (if no_char PCT p then p else tryDecodeURI p).
Proof.
  unfold host_ok, path_ok. intros [H8%Nat.leb_le Hh]%andb_prop [Hs%bool_decide_eq_true Hq]%andb_prop.
  by apply getPath_path.
Qed.

Lemma hex_upper_not_qm d : (d < 16)%N -> Ascii.eqb (hex_upper d) QM = false.
Proof. intros Hd. apply Ascii.eqb_neq. intros He. pose proof (hex_val_upper d Hd) as Hv. by rewrite He in Hv. Qed.

Lemma path_ok_encode_all s : path_ok (SLASH :: encode_all s) = true.
Proof.
  unfold path_ok. rewrite bool_decide_eq_true_2 by done. cbn [andb]. unfold no_char. cbn [forallb]. cbn [andb negb Ascii.eqb].
  induction s as [|c s IH]; [done|]. rewrite encode_all_cons. pose proof (Ascii.N_ascii_bounded c) as Hb.
  unfold pct_encode. cbn [app forallb]. rewrite !hex_upper_not_qm by (apply N.mod_lt || apply N.Div0.div_lt_upper_bound; lia).
  exact IH.
Qed.

(** An encoded path is read back as the path it encodes. *)
Lemma getPath_encoded pre s tail :
  host_ok pre = true -> forallb unreserved_ascii s = true -> (tail = [] \/ exists q, tail = QM :: q) ->
  getPath (String.string_of_list_ascii (pre ++ (SLASH :: encode_all s) ++ tail)) = String.string_of_list_ascii (SLASH :: s).
Proof.
  intros Hh Hs Ht. rewrite getPath_url by auto using path_ok_encode_all.
  destruct s as [|c s]; [done|].
  replace (no_char PCT (SLASH :: encode_all (c :: s))) with false by reflexivity.
  by rewrite tryDecodeURI_encode_all.
Qed.

(** A path none of whose [%] starts an escape is read as written. *)
Lemma getPath_no_escape pre p tail :
  host_ok pre = true -> path_ok p = true -> no_escape p = true -> (tail = [] \/ exists q, tail = QM :: q) ->
  getPath (String.string_of_list_ascii (pre ++ p ++ tail)) = String.string_of_list_ascii p.
Proof. intros Hh Hp He Ht. rewrite getPath_url by done. destruct (no_char PCT p); [done|]. by rewrite tryDecodeURI_no_escape. Qed.
