(* ===== verification/App.v ===== *)
(** * The server of [src/src/index.ts]

    - [world]: what the handlers read and change: the console log, the
      process environment, the clock, and the Stripe API as an oracle
      from a client and request parameters to a session or an error;
    - [index_handler], [webhook_handler], [checkout_handler],
      [success_handler], [cancel_handler]: the five route handlers, each
      written as the source runs it, logs included;
    - [app_routes]: the routes in registration order;
    - [load_env], [boot]: module start-up ([dotenv/config] on the
      [.env] text, [new Stripe(...)], [serve] on port 3000 with its log
      line);
    - [handle]: one request through [app.fetch]; [serve_request]: a
      request as [serve] hands it over, routed on [getPath] of its URL
      ([Url]); [handle_seq]: a
      sequence of requests; [reachable]: the worlds a run of the server
      reaches, with requests and clock ticks.

    Then the lemmas the theorems of [WebhookProps], [ServerProps],
    [Concurrency] and [ServerSpec] are built from: how each handler runs on each kind of
    input ([webhook_handler_thrown], [webhook_handler_normal],
    [log_if_type_log], ...), the tactics [world_eq], [fetch_route] and
    [dispatch_step] that run a handler, the invariant [log_oblivious]
    (a handler only appends to the log, whatever the log holds) with its
    hint database [oblivious], the postcondition of every route
    ([app_routes_wf]: a status of [app_statuses] and a content type, by
    the [post] hints), [app_fetch_repeat] (a request handled twice in a
    row), and a concrete world [demo_world] for the witnesses. *)

From S2P Require Import Prelude JsBuiltins Dotenv Utf8 Json JsonRoundtrip Sha256 StripeWebhook Hono Url.
From stdpp Require Import gmap.

(** ** The Stripe client and API *)

(** [error.message] of a Stripe API error, [undefined] when absent *)
Record stripe_error := mkStripeError { se_type : string; se_message : option string }.

(** [new Stripe(process.env.STRIPE_SECRET_KEY!, {apiVersion})] *)
Record stripe_client := mkStripeClient { sc_key : option string; sc_api_version : string }.

Definition API_VERSION : string := "2025-02-24.acacia".

Definition new_Stripe (key : option string) : stripe_client := mkStripeClient key API_VERSION.

(** ** The state handlers run on *)

Record world := mkWorld {
  w_log : list log_entry;
  w_env : gmap string string;
  w_now_ms : Z;
  w_stripe_api : stripe_client -> json -> outcome stripe_error json
}.

Definition append_log (e : log_entry) (w : world) : world :=
  mkWorld (w_log w ++ [e]) (w_env w) (w_now_ms w) (w_stripe_api w).

Definition set_env (env : gmap string string) (w : world) : world :=
  mkWorld (w_log w) env (w_now_ms w) (w_stripe_api w).

#[export] Program Instance world_console : Console world := {|
  console_log_of := w_log;
  console_append := append_log
|}.
Next Obligation. reflexivity. Qed.

(** [`${process.env.K}`]: ["undefined"] when the variable is not set *)
Definition env_str (env : gmap string string) (k : string) : string := default "undefined" (env !! k).

(** ** GET / *)

Definition dq : string := String (Ascii.ascii_of_N 34) "".

(** The page of index.ts 13-43, one string per line: the lines before
    the one that embeds the key, that line, and the lines after it. *)
Definition page_head : list string := [
    "<!DOCTYPE html>";
    "<html lang=" +:+ dq +:+ "en" +:+ dq +:+ ">";
    "";
    "<head>";
    "    <meta charset=" +:+ dq +:+ "UTF-8" +:+ dq +:+ ">";
    "    <meta name=" +:+ dq +:+ "viewport" +:+ dq +:+ " content=" +:+ dq +:+
      "width=device-width, initial-scale=1.0" +:+ dq +:+ ">";
    "    <title>Basic HTML Page</title>";
    "    <script src=" +:+ dq +:+ "https://js.stripe.com/v3/" +:+ dq +:+ "></script>";
    "</head>";
    "";
    "<body>";
    "    <h1>Checkout</h1>";
    "    <button id=" +:+ dq +:+ "checkoutButton" +:+ dq +:+ ">Checkout</button>";
    "    <script>";
    "        const button = document.getElementById('checkoutButton')";
    "        button.addEventListener('click', async () => {";
    "            const response = await fetch('/checkout', {";
    "                method: 'POST',";
    "                headers: {";
    "                    'Content-Type': 'application/json'";
    "                }";
    "            })";
    "            const {id} = await response.json()"].

Definition page_tail : list string := [
    "            await stripe.redirectToCheckout({ sessionId: id })";
    "        })";
    "";
    "    </script>";
    "</body>";
    "";
    "</html>"].

Definition newline : Ascii.ascii := Ascii.ascii_of_N 10.

(** [`...Stripe('${process.env.STRIPE_PUBLISHABLE_KEY}')...`] *)
Definition checkout_page (publishable_key : string) : string :=
  join_with newline
    (page_head ++ ("            const stripe = " +:+ "Stripe('" +:+ publishable_key +:+ "')") :: page_tail).

Definition index_handler (req : request) : prog world thrown response :=
  env ← gets w_env;
  mret (c_html (checkout_page (env_str env "STRIPE_PUBLISHABLE_KEY"))).

(** ** POST /webhook *)

(** [event[k]], throwing the [TypeError] on [undefined] or [null] *)
Definition get_prop_or_throw (v : jsval) (k : string) : prog world thrown jsval :=
  match get_prop v k with
  | Some x => mret x
  | None =>
      throw (JsError "TypeError" ("Cannot read properties of " +:+
        (match v with JUndefined => "undefined" | _ => "null" end) +:+ " (reading '" +:+ k +:+ "')"))
  end.

(** [if (event.type === tag) { const session = event.data.object;
    console.log(session) }] *)
Definition log_if_type (event : jsval) (tag : string) : prog world thrown unit :=
  ty ← get_prop_or_throw event "type";
  if strict_eq_string ty tag then
    data ← get_prop_or_throw event "data";
    session ← get_prop_or_throw data "object";
    console_log (LogVal session)
  else mret tt.

(** The message of a verification failure, as [error.toString()]; the
    library's message for a missing match goes on with advice on raw
    bodies, abbreviated here to its first sentence. *)
Definition webhook_error_string (e : webhook_error) : string :=
  match e with
  | NoWebhookPayload => "StripeSignatureVerificationError: No webhook payload was provided."
  | NoSignatureHeader => "StripeSignatureVerificationError: No stripe-signature header value was provided."
  | UnableToExtractHeader => "StripeSignatureVerificationError: Unable to extract timestamp and signatures from header"
  | NoSignaturesWithScheme => "StripeSignatureVerificationError: No signatures found with expected scheme"
  | NoMatchingSignature => "StripeSignatureVerificationError: No signatures found matching the expected signature for payload."
  | TimestampOutsideTolerance => "StripeSignatureVerificationError: Timestamp outside the tolerance zone"
  | SecureCompareArguments => "Error: secureCompare must receive two arguments"
  | TimingSafeEqualLength => "RangeError: Input buffers must have the same byte length"
  | InvalidHmacKey => "TypeError: The key argument must be of type string"
  | PayloadSyntaxError => "SyntaxError: Unexpected token in JSON"
  end.

Definition webhook_handler (req : request) : prog world thrown response :=
  let rawBody := req_text req in
  let signature := req_header req "stripe-signature" in
  env ← gets w_env;
  console_log (LogStr ("secret: " +:+ env_str env "STRIPE_WEBHOOK_SECRET"));;
  console_log (LogStr ("signature: " +:+ default "undefined" signature));;
  now_ms ← gets w_now_ms;
  event ← try_catch (of_outcome (constructEvent now_ms rawBody signature (env !! "STRIPE_WEBHOOK_SECRET")))
            (fun error =>
               console_error (LogStr ("Webhook signature verification failed: " +:+ webhook_error_string error));;
               throw (HTTPException 400 None));
  log_if_type event "checkout.session.completed";;
  log_if_type event "customer.subscription.updated";;
  log_if_type event "customer.subscription.deleted";;
  mret (c_text "success").

(** ** POST /checkout *)

Definition checkout_session_params : json :=
  JSObject [
    ("payment_method_types", JSArray [JSString "card"]);
    ("line_items", JSArray [JSObject [("price", JSString "price_1QxvBmFPYLet8cFCQ4yZS8Cl");
                                      ("quantity", JSNumber "1")]]);
    ("mode", JSString "payment");
    ("success_url", JSString "http://localhost:3000/success");
    ("cancel_url", JSString "http://localhost:3000/cancel")].

(** [await stripe.checkout.sessions.create(params)] *)
Definition sessions_create (client : stripe_client) (params : json) : prog world stripe_error json :=
  api ← gets w_stripe_api;
  of_outcome (api client params).

Definition checkout_handler (client : stripe_client) (req : request) : prog world thrown response :=
  try_catch (session ← sessions_create client checkout_session_params; mret (c_json session))
    (fun error =>
       console_log (LogErr (se_type error) (default "undefined" (se_message error)));;
       throw (HTTPException 500 (se_message error))).

(** ** GET /success, GET /cancel *)

Definition success_handler (req : request) : prog world thrown response :=
  mret (c_text "Payment Succesful").

Definition cancel_handler (req : request) : prog world thrown response :=
  mret (c_text "Payment Canceled!").

(** ** The application *)

Definition app_routes (client : stripe_client) : list (route world) :=
  app_get "/cancel" cancel_handler
    (app_get "/success" success_handler
      (app_post "/checkout" (checkout_handler client)
        (app_post "/webhook" webhook_handler
          (app_get "/" index_handler [])))).

Definition PORT : Z := 3000.

Record server := mkServer { srv_client : stripe_client; srv_routes : list (route world); srv_port : Z }.

(** The listen callback of [serve]: [(info) => console.log(`Server is
    running on http://localhost:${info.port}`)]. *)
Definition on_listen (port : Z) : log_entry :=
  ConsoleLog (LogStr ("Server is running on http://localhost:" +:+ num_to_string (JNum port))).

(** [import "dotenv/config"]: the [.env] file, if there is one, parsed
    and merged into [process.env] under the variables already set. *)
Definition load_env (dotenv_file : option string) (w : world) : world :=
  set_env (dotenv_config (w_env w) dotenv_file) w.

(** Module start-up: [import "dotenv/config"] fills the environment,
    [new Stripe(...)] reads the secret key once, the routes are
    registered, and [serve] logs its line once listening. *)
Definition boot (w : world) (dotenv_file : option string) : server * world :=
  let w1 := load_env dotenv_file w in
  let client := new_Stripe (w_env w1 !! "STRIPE_SECRET_KEY") in
  (mkServer client (app_routes client) PORT, append_log (on_listen PORT) w1).

(** One request through [app.fetch]. *)
Definition handle (srv : server) (req : request) : prog world thrown response :=
  app_fetch (srv_routes srv) req.

(** [serve({ fetch: app.fetch, ... })]: a request arrives with its URL;
    [app.fetch] routes it on [getPath] of the URL. *)
Definition serve_request (srv : server) (m : method) (url : string) (headers : gmap string string) (body : string)
  : prog world thrown response :=
  handle srv (mkRequest m (getPath url) headers body).

(** ** Running the handlers *)

Definition add_logs (es : list log_entry) (w : world) : world :=
  mkWorld (w_log w ++ es) (w_env w) (w_now_ms w) (w_stripe_api w).

Lemma append_log_add_logs e es w : append_log e (add_logs es w) = add_logs (es ++ [e]) w.
Proof. unfold append_log, add_logs. cbn. by rewrite app_assoc. Qed.

Lemma append_log_as_add e w : append_log e w = add_logs [e] w.
Proof. reflexivity. Qed.

Lemma append_log2 a b w : append_log b (append_log a w) = add_logs [a; b] w.
Proof. unfold append_log, add_logs. cbn. by rewrite <- app_assoc. Qed.

Lemma add_logs_nil w : add_logs [] w = w.
Proof. destruct w. unfold add_logs. cbn. by rewrite app_nil_r. Qed.

Lemma add_logs_app es es' w : add_logs es' (add_logs es w) = add_logs (es ++ es') w.
Proof. unfold add_logs. cbn. by rewrite app_assoc. Qed.

#[export] Hint Rewrite append_log_add_logs add_logs_app : jsdb.

(** Close an equation between worlds that differ only in how their log
    was appended to. *)
Ltac world_eq :=
  repeat progress (unfold_prog; cbn); unfold add_logs, append_log; cbn;
  rewrite <- ?app_assoc; reflexivity.

(** What [constructEvent] gives the webhook handler on a request. *)
Definition verified_event (req : request) (w : world) : outcome webhook_error jsval :=
  constructEvent (w_now_ms w) (req_text req) (req_header req "stripe-signature")
    (w_env w !! "STRIPE_WEBHOOK_SECRET").

(** The two lines every webhook request logs first. *)
Definition webhook_prelude (env : gmap string string) (req : request) : list log_entry :=
  [ConsoleLog (LogStr ("secret: " +:+ env_str env "STRIPE_WEBHOOK_SECRET"));
   ConsoleLog (LogStr ("signature: " +:+ default "undefined" (req_header req "stripe-signature")))].

Definition verification_failed_log (e : webhook_error) : log_entry :=
  ConsoleError (LogStr ("Webhook signature verification failed: " +:+ webhook_error_string e)).

Lemma webhook_handler_thrown req w e :
  verified_event req w = Thrown e ->
  webhook_handler req w =
  (add_logs (webhook_prelude (w_env w) req ++ [verification_failed_log e]) w,
   Thrown (HTTPException 400 None)).
Proof.
  unfold verified_event. intros He. unfold webhook_handler. unfold_prog.
  cbn -[constructEvent req_text req_header webhook_error_string].
  rewrite He. cbn -[webhook_error_string]. world_eq.
Qed.

Lemma webhook_handler_normal req w ev :
  verified_event req w = Normal ev ->
  webhook_handler req w =
  (log_if_type ev "checkout.session.completed";;
   log_if_type ev "customer.subscription.updated";;
   log_if_type ev "customer.subscription.deleted";;
   mret (c_text "success")) (add_logs (webhook_prelude (w_env w) req) w).
Proof.
  unfold verified_event. intros He. unfold webhook_handler. unfold_prog.
  cbn -[constructEvent req_text req_header log_if_type].
  rewrite He, append_log2. reflexivity.
Qed.

(** ** Routing of the five routes *)

Lemma fetch_route_app client req m p h :
  req_method req = m -> req_path req = p -> m <> HEAD ->
  match_route (app_routes client) m p = Some (mkRoute m p h) ->
  app_fetch (app_routes client) req = try_catch (h req) errorHandler.
Proof. intros Hm Hp Hh Hr. apply app_fetch_route; by rewrite ?Hm, ?Hp. Qed.

Ltac fetch_route m p h :=
  rewrite (fetch_route_app _ _ m p h) by (done || discriminate || reflexivity).

(** ** Event dispatch *)

(** [event.k] on an object event *)
Definition prop_value (fs : list (string * json)) (k : string) : jsval :=
  match obj_get fs k with Some x => JV x | None => JUndefined end.

Definition handled_event_types : list string :=
  ["checkout.session.completed"; "customer.subscription.updated"; "customer.subscription.deleted"].

Lemma log_if_type_skip fs tag w :
  strict_eq_string (prop_value fs "type") tag = false ->
  log_if_type (JV (JSObject fs)) tag w = (w, Normal tt).
Proof.
  unfold prop_value. intros H. unfold log_if_type, get_prop_or_throw. unfold_prog.
  cbn -[strict_eq_string]. by rewrite H.
Qed.

Lemma log_if_type_log fs tag dfs o w :
  prop_value fs "type" = JV (JSString tag) -> obj_get fs "data" = Some (JSObject dfs) ->
  obj_get dfs "object" = Some o ->
  log_if_type (JV (JSObject fs)) tag w = (append_log (ConsoleLog (LogVal (JV o))) w, Normal tt).
Proof.
  unfold prop_value. intros Ht Hd Ho. unfold log_if_type, get_prop_or_throw. unfold_prog.
  cbn -[strict_eq_string obj_get].
  destruct (obj_get fs "type") as [ty|]; [|discriminate]. injection Ht as ->.
  cbn -[obj_get]. rewrite String.eqb_refl, Hd. cbn -[obj_get]. by rewrite Ho.
Qed.

Lemma strict_eq_string_neq ty t t' :
  ty = JV (JSString t) -> t <> t' -> strict_eq_string ty t' = false.
Proof. intros -> Hne. cbn. by apply String.eqb_neq. Qed.

Lemma log_if_type_null tag w :
  log_if_type (JV JSNull) tag w =
  (w, Thrown (JsError "TypeError" "Cannot read properties of null (reading 'type')")).
Proof. reflexivity. Qed.

Lemma log_if_type_no_data fs tag w :
  prop_value fs "type" = JV (JSString tag) -> obj_get fs "data" = None ->
  log_if_type (JV (JSObject fs)) tag w =
  (w, Thrown (JsError "TypeError" "Cannot read properties of undefined (reading 'object')")).
Proof.
  unfold prop_value. intros Ht Hd. unfold log_if_type, get_prop_or_throw. unfold_prog.
  cbn -[strict_eq_string obj_get].
  destruct (obj_get fs "type") as [ty|]; [|discriminate]. injection Ht as ->.
  cbn -[obj_get]. by rewrite String.eqb_refl, Hd.
Qed.

(** Run one [log_if_type] of the handler's chain. *)
Ltac dispatch_step :=
  erewrite run_bind_normal by
    (first [ eapply log_if_type_log; eassumption
           | apply log_if_type_skip; eapply strict_eq_string_neq; [eassumption|discriminate]
           | apply log_if_type_skip; eassumption ]).

(** ** The webhook route: a request that fails verification *)

(** The response to a webhook request that fails verification. *)
Lemma webhook_thrown_400 client req w e :
  req_method req = POST -> req_path req = "/webhook" ->
  verified_event req w = Thrown e ->
  snd (app_fetch (app_routes client) req w) = Normal (getResponse 400 None).
Proof.
  intros Hm Hp Hv. fetch_route POST "/webhook" webhook_handler.
  by erewrite run_try_thrown by (apply webhook_handler_thrown, Hv).
Qed.

(** The handler on a verified event with a handled tag but no [data]. *)
Lemma webhook_handler_no_data req w fs tag :
  verified_event req w = Normal (JV (JSObject fs)) ->
  tag ∈ handled_event_types -> prop_value fs "type" = JV (JSString tag) -> obj_get fs "data" = None ->
  webhook_handler req w =
  (add_logs (webhook_prelude (w_env w) req) w,
   Thrown (JsError "TypeError" "Cannot read properties of undefined (reading 'object')")).
Proof.
  intros Hv Hin Ht Hd. rewrite (webhook_handler_normal _ _ _ Hv).
  apply list_elem_of_In in Hin as [<-|[<-|[<-|[]]]];
    repeat (first [apply run_bind_thrown, log_if_type_no_data; done | dispatch_step]).
Qed.

(** The handler on a verified event with a handled tag. *)
Lemma webhook_handler_handled req w fs tag dfs o :
  verified_event req w = Normal (JV (JSObject fs)) ->
  tag ∈ handled_event_types -> prop_value fs "type" = JV (JSString tag) ->
  obj_get fs "data" = Some (JSObject dfs) -> obj_get dfs "object" = Some o ->
  webhook_handler req w =
  (add_logs (webhook_prelude (w_env w) req ++ [ConsoleLog (LogVal (JV o))]) w, Normal (c_text "success")).
Proof.
  intros Hv Hin Ht Hd Ho. rewrite (webhook_handler_normal _ _ _ Hv).
  apply list_elem_of_In in Hin as [<-|[<-|[<-|[]]]]; do 3 dispatch_step; world_eq.
Qed.

(** The handler on a verified event whose type none of the three tags is. *)
Lemma webhook_handler_unhandled req w fs :
  verified_event req w = Normal (JV (JSObject fs)) ->
  Forall (fun tag => strict_eq_string (prop_value fs "type") tag = false) handled_event_types ->
  webhook_handler req w = (add_logs (webhook_prelude (w_env w) req) w, Normal (c_text "success")).
Proof.
  intros Hv Hall. rewrite (webhook_handler_normal _ _ _ Hv).
  apply Forall_cons in Hall as [Ht1 Hall]; apply Forall_cons in Hall as [Ht2 Hall];
    apply Forall_cons in Hall as [Ht3 _].
  do 3 dispatch_step. reflexivity.
Qed.

(** ** Signed requests *)

(** A [POST /webhook] request as Stripe sends it: the payload and the
    header [t=<ts>,v1=<HMAC of "<ts>.<payload>" under key>]. *)
Definition signed_webhook_request (key payload : string) (ts : Z) : request :=
  mkRequest POST "/webhook"
    {[ "stripe-signature" := stripe_signature_header ts [computeHMACSignature (signed_content ts payload) key] ]}
    payload.

Lemma signed_webhook_request_header key payload ts :
  req_header (signed_webhook_request key payload ts) "stripe-signature" =
  Some (stripe_signature_header ts [computeHMACSignature (signed_content ts payload) key]).
Proof. apply lookup_singleton_eq. Qed.

(** The body of a signed request reaches the library as it is when it
    is well-formed UTF-8 without a byte order mark. *)
Lemma req_text_clean req : body_text (req_body req) = req_body req -> req_text req = req_body req.
Proof. done. Qed.

Lemma verified_event_signed key secret payload ts w :
  w_env w !! "STRIPE_WEBHOOK_SECRET" = Some secret -> body_text payload = payload ->
  verified_event (signed_webhook_request key payload ts) w =
  (verifyHeader (w_now_ms w) payload
     (Some (stripe_signature_header ts [computeHMACSignature (signed_content ts payload) key]))
     (Some secret) DEFAULT_TOLERANCE;;
   match JSON_parse payload with Some j => Normal (JV j) | None => Thrown PayloadSyntaxError end).
Proof.
  intros Hs Hu. unfold verified_event, constructEvent. rewrite signed_webhook_request_header, Hs.
  by rewrite req_text_clean.
Qed.

Lemma verified_event_rejected key secret payload ts w e :
  w_env w !! "STRIPE_WEBHOOK_SECRET" = Some secret -> body_text payload = payload ->
  verifyHeader (w_now_ms w) payload
    (Some (stripe_signature_header ts [computeHMACSignature (signed_content ts payload) key]))
    (Some secret) DEFAULT_TOLERANCE = Thrown e ->
  verified_event (signed_webhook_request key payload ts) w = Thrown e.
Proof. intros Hs Hu Hv. rewrite (verified_event_signed _ secret) by done. by rewrite Hv. Qed.

(** ** Handlers only append to the log *)

Definition set_log (l : list log_entry) (w : world) : world :=
  mkWorld l (w_env w) (w_now_ms w) (w_stripe_api w).

(** [m] changes nothing of the world but appending [es] to the log, and
    neither [es] nor its outcome depends on the log: what every handler
    of the server satisfies, so that requests share no mutable state but
    the console. *)
Definition log_oblivious {E A} (m : prog world E A) : Prop :=
  forall w, exists es o, forall l, m (set_log l w) = (add_logs es (set_log l w), o).

Lemma set_log_id w : set_log (w_log w) w = w.
Proof. by destruct w. Qed.

Lemma add_logs_set_log es l w : add_logs es (set_log l w) = set_log (l ++ es) w.
Proof. reflexivity. Qed.

Lemma add_logs_as_set_log es w : add_logs es w = set_log (w_log w ++ es) w.
Proof. reflexivity. Qed.

Section Oblivious.
Context {E A B : Type}.

Lemma oblivious_ret (a : A) : log_oblivious (mret a : prog world E A).
Proof. intros w. exists [], (Normal a). intros l. unfold add_logs. cbn. by rewrite app_nil_r. Qed.

Lemma oblivious_throw (e : E) : log_oblivious (throw e : prog world E A).
Proof. intros w. exists [], (Thrown e). intros l. unfold add_logs. cbn. by rewrite app_nil_r. Qed.

Lemma oblivious_of_outcome (o : outcome E A) : log_oblivious (of_outcome o : prog world E A).
Proof. intros w. exists [], o. intros l. unfold add_logs. cbn. by rewrite app_nil_r. Qed.

Lemma oblivious_gets (f : world -> A) :
  (forall l w, f (set_log l w) = f w) -> log_oblivious (gets f : prog world E A).
Proof.
  intros Hf w. exists [], (Normal (f w)). intros l. unfold gets. rewrite Hf.
  unfold add_logs. cbn. by rewrite app_nil_r.
Qed.

Lemma oblivious_console_log v : log_oblivious (console_log v : prog world E unit).
Proof. intros w. exists [ConsoleLog v], (Normal tt). intros l. reflexivity. Qed.

Lemma oblivious_console_error v : log_oblivious (console_error v : prog world E unit).
Proof. intros w. exists [ConsoleError v], (Normal tt). intros l. reflexivity. Qed.

Lemma oblivious_bind (m : prog world E A) (k : A -> prog world E B) :
  log_oblivious m -> (forall a, log_oblivious (k a)) -> log_oblivious (m ≫= k).
Proof.
  intros Hm Hk w. destruct (Hm w) as (es1 & [a|e] & H1).
  - destruct (Hk a w) as (es2 & o2 & H2). exists (es1 ++ es2), o2. intros l.
    rewrite run_bind, H1, add_logs_set_log, H2, !add_logs_set_log. by rewrite app_assoc.
  - exists es1, (Thrown e). intros l. by rewrite run_bind, H1.
Qed.

Lemma oblivious_try {E'} (m : prog world E A) (h : E -> prog world E' A) :
  log_oblivious m -> (forall e, log_oblivious (h e)) -> log_oblivious (try_catch m h).
Proof.
  intros Hm Hh w. destruct (Hm w) as (es1 & [a|e] & H1).
  - exists es1, (Normal a). intros l. unfold try_catch. by rewrite H1.
  - destruct (Hh e w) as (es2 & o2 & H2). exists (es1 ++ es2), o2. intros l.
    unfold try_catch. rewrite H1, add_logs_set_log, H2, !add_logs_set_log. by rewrite app_assoc.
Qed.

Lemma oblivious_if (b : bool) (m1 m2 : prog world E A) :
  log_oblivious m1 -> log_oblivious m2 -> log_oblivious (if b then m1 else m2).
Proof. by destruct b. Qed.

Lemma oblivious_run (m : prog world E A) w :
  log_oblivious m -> exists es o, m w = (add_logs es w, o).
Proof.
  intros Hm. destruct (Hm w) as (es & o & H). exists es, o.
  rewrite <- (set_log_id w) at 1. rewrite H, set_log_id. done.
Qed.
End Oblivious.

Create HintDb oblivious discriminated.
#[export] Hint Resolve oblivious_ret oblivious_throw oblivious_of_outcome
  oblivious_console_log oblivious_console_error oblivious_bind oblivious_try oblivious_if : oblivious.
#[export] Hint Extern 1 (log_oblivious (gets _)) => apply oblivious_gets; reflexivity : oblivious.

Lemma oblivious_get_prop v k : log_oblivious (get_prop_or_throw v k).
Proof. unfold get_prop_or_throw. destruct (get_prop v k); eauto with oblivious. Qed.
#[export] Hint Resolve oblivious_get_prop : oblivious.

Lemma oblivious_log_if_type ev tag : log_oblivious (log_if_type ev tag).
Proof. unfold log_if_type. eauto 10 with oblivious. Qed.
#[export] Hint Resolve oblivious_log_if_type : oblivious.

Lemma oblivious_webhook_handler req : log_oblivious (webhook_handler req).
Proof. unfold webhook_handler. cbv zeta. eauto 20 with oblivious. Qed.

Lemma oblivious_checkout_handler client req : log_oblivious (checkout_handler client req).
Proof. unfold checkout_handler, sessions_create. eauto 20 with oblivious. Qed.

Lemma oblivious_errorHandler e : log_oblivious (errorHandler (S:=world) e).
Proof. unfold errorHandler. destruct e; eauto 10 with oblivious. Qed.

Lemma oblivious_index_handler req : log_oblivious (index_handler req).
Proof. unfold index_handler. eauto 10 with oblivious. Qed.

Lemma app_routes_oblivious client :
  Forall (fun r => forall req, log_oblivious (r_handler r req)) (app_routes client).
Proof.
  repeat constructor; intros req; cbn [r_handler].
  - apply oblivious_index_handler.
  - apply oblivious_webhook_handler.
  - apply oblivious_checkout_handler.
  - apply oblivious_ret.
  - apply oblivious_ret.
Qed.

Lemma oblivious_app_fetch client req : log_oblivious (app_fetch (app_routes client) req).
Proof.
  assert (forall req', log_oblivious (dispatch (app_routes client) req')) as Hd.
  { intros req'. unfold dispatch.
    destruct (match_route _ _ _) as [r|] eqn:Hr; [|apply oblivious_ret].
    apply oblivious_try; [|apply oblivious_errorHandler].
    apply find_some in Hr as [Hin _].
    pose proof (app_routes_oblivious client) as Hall. rewrite Forall_forall in Hall.
    apply Hall. by apply list_elem_of_In. }
  unfold app_fetch. destruct (req_method req); try apply Hd.
  apply oblivious_bind; [apply Hd|]. intros. apply oblivious_ret.
Qed.

(** ** Every response has a status of the program's and a content type *)

(** The statuses index.ts can answer with: [c.text]/[c.html]/[c.json],
    the [HTTPException]s it throws, Hono's [404] and [500]. *)
Definition app_statuses : list Z := [200; 400; 404; 500]%Z.

Definition wf_handler {A} (m : prog world thrown A) (P : A -> Prop) : Prop :=
  post P (fun e => wf_thrown app_statuses e = true) m.

#[export] Hint Extern 1 (wf_thrown _ _ = true) => reflexivity : post.
#[export] Hint Extern 1 (wf_response _ _ = true) => reflexivity : post.
#[export] Hint Unfold wf_handler : post.

Lemma post_get_prop v k : wf_handler (get_prop_or_throw v k) (fun _ => True).
Proof. unfold wf_handler, get_prop_or_throw. destruct (get_prop v k); eauto with post. Qed.

Lemma post_log_if_type ev tag : wf_handler (log_if_type ev tag) (fun _ => True).
Proof.
  pose proof post_get_prop. unfold wf_handler, log_if_type in *. eauto 10 with post.
Qed.

Lemma app_routes_wf client :
  Forall (fun r => forall req, wf_handler (r_handler r req) (fun r => wf_response app_statuses r = true))
    (app_routes client).
Proof.
  pose proof post_log_if_type. unfold wf_handler in *.
  unfold app_routes, app_get, app_post; cbn [app].
  repeat apply List.Forall_cons; try apply List.Forall_nil; intros req; cbn [r_handler].
  - unfold index_handler. eauto with post.
  - unfold webhook_handler. cbv zeta. eauto 20 with post.
  - unfold checkout_handler, sessions_create. eauto 10 with post.
  - apply post_ret. reflexivity.
  - apply post_ret. reflexivity.
Qed.

Lemma app_fetch_add_logs client req w :
  exists es r, app_fetch (app_routes client) req w = (add_logs es w, Normal r).
Proof.
  destruct (oblivious_run _ w (oblivious_app_fetch client req)) as (es & o & Hrun).
  destruct (app_fetch_total (app_routes client) req w) as (w' & r & Htot).
  exists es, r. rewrite Htot in Hrun |- *. congruence.
Qed.

(** ** Runs of the server: requests and clock ticks *)

Definition set_now (t : Z) (w : world) : world := mkWorld (w_log w) (w_env w) t (w_stripe_api w).

(** The worlds a server with client [client] can reach from [w0]: it
    handles requests one after the other while the clock advances. *)
Inductive reachable (client : stripe_client) (w0 : world) : world -> Prop :=
| reach_start : reachable client w0 w0
| reach_request w req w' r :
    reachable client w0 w -> app_fetch (app_routes client) req w = (w', r) -> reachable client w0 w'
| reach_tick w t :
    reachable client w0 w -> (w_now_ms w <= t)%Z -> reachable client w0 (set_now t w).

(** ** What every webhook request logs *)

Lemma webhook_handler_logs_prelude req w :
  exists es o, webhook_handler req w = (add_logs (webhook_prelude (w_env w) req ++ es) w, o).
Proof.
  destruct (verified_event req w) as [ev|e] eqn:Hv.
  - rewrite (webhook_handler_normal _ _ _ Hv).
    destruct (oblivious_run
      (log_if_type ev "checkout.session.completed";;
       log_if_type ev "customer.subscription.updated";;
       log_if_type ev "customer.subscription.deleted";;
       mret (c_text "success")) (add_logs (webhook_prelude (w_env w) req) w)) as (es & o & H);
      [eauto 20 with oblivious|].
    exists es, o. by rewrite H, add_logs_app.
  - rewrite (webhook_handler_thrown _ _ _ Hv). eauto.
Qed.

(** ** A missing webhook secret *)

Lemma verified_event_no_secret req w :
  w_env w !! "STRIPE_WEBHOOK_SECRET" = None -> exists e, verified_event req w = Thrown e.
Proof.
  intros Hs. unfold verified_event, constructEvent, verifyHeader. rewrite Hs.
  destruct (parseEventDetails _ _); cbn; eauto.
Qed.

(** ** A request with another body *)

(** The request [req] with another body. *)
Definition with_body (req : request) (body : string) : request :=
  mkRequest (req_method req) (req_path req) (req_headers req) body.

(** ** A concrete world for the witnesses *)

Definition demo_env : gmap string string :=
  <["STRIPE_WEBHOOK_SECRET" := test_secret]>
    (<["STRIPE_PUBLISHABLE_KEY" := "pk_test_1"]> (<["STRIPE_SECRET_KEY" := "sk_test_1"]> ∅)).

Definition demo_session : json := JSObject [("id", JSString "cs_test_1"); ("object", JSString "checkout.session")].

Definition demo_api (c : stripe_client) (params : json) : outcome stripe_error json :=
  match sc_key c with
  | Some _ => Normal demo_session
  | None => Thrown (mkStripeError "StripeAuthenticationError" (Some "You did not provide an API key."))
  end.

Definition demo_world (now_ms : Z) : world := mkWorld [] demo_env now_ms demo_api.

Definition demo_client : stripe_client := new_Stripe (Some "sk_test_1").

Definition demo_fields (ty : string) : list (string * json) :=
  [("id", JSString "evt_1"); ("type", JSString ty); ("data", JSObject [("object", demo_session)])].

Definition demo_event (ty : string) : json := JSObject (demo_fields ty).

Definition demo_payload (ty : string) : string := stringify (demo_event ty).

(** ** The registered routes *)

(** The method and path of each registered route, in order. *)
Definition route_table : list (method * string) :=
  [(GET, "/"); (POST, "/webhook"); (POST, "/checkout"); (GET, "/success"); (GET, "/cancel")].

Lemma app_routes_table client :
  map (fun r => (r_method r, r_path r)) (app_routes client) = route_table.
Proof. reflexivity. Qed.

(** ** Serialized events and sessions *)

Lemma stringify_nonempty j : wf_json j = true -> stringify j <> "".
Proof.
  intros Hw He. destruct (stringify_parses_back j Hw) as [(c & t & Hct & _) _].
  rewrite He in Hct. discriminate.
Qed.

(** Stripe signs the serialized event; the handler gets the event back. *)
Lemma verified_event_stringified secret ev ts w :
  w_env w !! "STRIPE_WEBHOOK_SECRET" = Some secret -> wf_json ev = true ->
  body_text (stringify ev) = stringify ev ->
  ts <> (-1)%Z -> (Z.abs ts < 2 ^ 53)%Z -> (w_now_ms w / 1000 - ts <= DEFAULT_TOLERANCE)%Z ->
  verified_event (signed_webhook_request secret (stringify ev) ts) w = Normal (JV ev).
Proof.
  intros Hs Hw Hu Hts Hb Hage. rewrite (verified_event_signed _ secret) by done.
  rewrite verifyHeader_sound; [|by apply stringify_nonempty|done|done|done| |].
  - by rewrite JSON_parse_stringify.
  - apply Forall_singleton. split; [apply hmac_hex|apply hmac_nonempty].
  - by apply list_elem_of_singleton.
Qed.

(** ** Replays over a run of the server *)

Lemma reachable_env_clock client w0 w :
  reachable client w0 w -> w_env w = w_env w0 /\ (w_now_ms w0 <= w_now_ms w)%Z.
Proof.
  induction 1 as [|w req w' r _ IH Hstep|w t _ [He Hn] Ht]; [split; [done|lia]| |cbn; split; [done|lia]].
  destruct (app_fetch_add_logs client req w) as (es' & r' & Hr).
  rewrite Hr in Hstep. by injection Hstep as <- _.
Qed.

(** ** Rolling secrets: several signatures in one header *)

(** A request signed under each of [keys], as Stripe sends it while an
    endpoint's secret is being rolled. *)
Definition signed_webhook_request_keys (keys : list string) (payload : string) (ts : Z) : request :=
  mkRequest POST "/webhook"
    {[ "stripe-signature" :=
         stripe_signature_header ts (map (computeHMACSignature (signed_content ts payload)) keys) ]}
    payload.

(** ** Many requests *)

(** Requests handled one after the other, with their outcomes in order. *)
Fixpoint handle_seq (client : stripe_client) (reqs : list request) (w : world)
  : world * list (outcome thrown response) :=
  match reqs with
  | [] => (w, [])
  | r :: rs =>
      let '(w1, o) := app_fetch (app_routes client) r w in
      let '(w2, os) := handle_seq client rs w1 in
      (w2, o :: os)
  end.

(** A request's outcome does not depend on what the log holds. *)
Lemma app_fetch_after_logs client r es0 w :
  snd (app_fetch (app_routes client) r (add_logs es0 w)) = snd (app_fetch (app_routes client) r w) /\
  exists es, fst (app_fetch (app_routes client) r (add_logs es0 w)) = add_logs (es0 ++ es) w.
Proof.
  destruct (oblivious_app_fetch client r w) as (es & o & H).
  rewrite add_logs_as_set_log, H. rewrite <- (set_log_id w) at 3. rewrite H. cbn.
  split; [done|]. exists es. by rewrite add_logs_set_log, <- app_assoc.
Qed.

(** Handling a request a second time right after the first gives the
    same outcome and appends the same log entries again. *)
Lemma app_fetch_repeat client req w es o :
  app_fetch (app_routes client) req w = (add_logs es w, o) ->
  app_fetch (app_routes client) req (add_logs es w) = (add_logs (es ++ es) w, o).
Proof.
  intros Hw. destruct (oblivious_app_fetch client req w) as (es' & o' & H).
  pose proof (H (w_log w)) as H0. rewrite set_log_id, Hw in H0.
  injection H0 as Hl ->. apply app_inv_head in Hl as <-.
  rewrite add_logs_as_set_log, H, add_logs_set_log. by rewrite <- app_assoc.
Qed.

Lemma handle_seq_after_logs client reqs es0 w :
  snd (handle_seq client reqs (add_logs es0 w)) = map (fun r => snd (app_fetch (app_routes client) r w)) reqs /\
  exists es, fst (handle_seq client reqs (add_logs es0 w)) = add_logs (es0 ++ es) w.
Proof.
  revert es0. induction reqs as [|r reqs IH]; intros es0; cbn [handle_seq].
  - split; [done|]. exists []. by rewrite app_nil_r.
  - destruct (app_fetch_after_logs client r es0 w) as [Ho [es1 Hw1]].
    destruct (app_fetch _ r _) as [w1 o]. cbn in Ho, Hw1. subst w1 o.
    destruct (IH (es0 ++ es1)) as [Hos [es2 Hw2]].
    destruct (handle_seq _ _ _) as [w2 os]. cbn in *. subst.
    split; [done|]. exists (es1 ++ es2). by rewrite app_assoc.
Qed.
