(* ===== verification/WebhookProps.v ===== *)
(** * Properties of [POST /webhook]

    The webhook route of index.ts (47-76) end to end, through Hono's
    dispatch and error handler: what a signed event does, how every kind
    of bad request is answered, what is logged, and how the handler's
    call to [constructEvent] meets the contract [signed_fresh] of the
    spec.  Each theorem is followed by its witness on the concrete world
    [demo_world] of [App]. *)

From S2P Require Import Prelude JsBuiltins Utf8 Json JsonRoundtrip Sha256 StripeWebhook Hono App.
From stdpp Require Import gmap.

(** ** Signed events are delivered *)

(** C1: an event of a handled type that Stripe serializes and signs
    with the server's webhook secret, with a timestamp below [2^53] in
    magnitude (every Unix time in seconds Stripe writes), delivered
    within 300 s, is verified, its [data.object] is logged once and the
    server answers [200 success]. *)
Theorem stripe_event_delivered client secret fs tag dfs o ts w :
  w_env w !! "STRIPE_WEBHOOK_SECRET" = Some secret -> wf_json (JSObject fs) = true ->
  body_text (stringify (JSObject fs)) = stringify (JSObject fs) ->
  ts <> (-1)%Z -> (Z.abs ts < 2 ^ 53)%Z -> (w_now_ms w / 1000 - ts <= DEFAULT_TOLERANCE)%Z ->
  tag ∈ handled_event_types -> prop_value fs "type" = JV (JSString tag) ->
  obj_get fs "data" = Some (JSObject dfs) -> obj_get dfs "object" = Some o ->
  app_fetch (app_routes client) (signed_webhook_request secret (stringify (JSObject fs)) ts) w =
  (add_logs (webhook_prelude (w_env w) (signed_webhook_request secret (stringify (JSObject fs)) ts) ++
     [ConsoleLog (LogVal (JV o))]) w, Normal (c_text "success")).
Proof.
  intros Hs Hw Hu Hts Hb Hage Hin Ht Hd Ho. fetch_route POST "/webhook" webhook_handler.
  apply run_try_normal. apply (webhook_handler_handled _ _ fs tag dfs); try done.
  by apply verified_event_stringified.
Qed.

Lemma stripe_event_delivered_witness :
  app_fetch (app_routes demo_client)
    (signed_webhook_request test_secret (stringify (demo_event "checkout.session.completed")) test_ts)
    (demo_world 1700000100000) =
  (add_logs (webhook_prelude demo_env
     (signed_webhook_request test_secret (stringify (demo_event "checkout.session.completed")) test_ts) ++
     [ConsoleLog (LogVal (JV demo_session))]) (demo_world 1700000100000), Normal (c_text "success")).
Proof.
  apply (stripe_event_delivered demo_client test_secret (demo_fields "checkout.session.completed")
    "checkout.session.completed" [("object", demo_session)] demo_session test_ts (demo_world 1700000100000));
    [reflexivity|vm_compute; reflexivity|vm_compute; reflexivity|discriminate|vm_compute; reflexivity
    |vm_compute; discriminate| |reflexivity|reflexivity|reflexivity].
  apply list_elem_of_In. left. reflexivity.
Defined.



(** C13: a request carrying signatures under several keys is taken
    as soon as one of the keys is the server's webhook secret. *)
Theorem webhook_accepts_rotated_secret secret keys payload ts w j :
  w_env w !! "STRIPE_WEBHOOK_SECRET" = Some secret -> secret ∈ keys -> body_text payload = payload ->
  payload <> "" -> ts <> (-1)%Z -> (Z.abs ts < 2 ^ 53)%Z -> (w_now_ms w / 1000 - ts <= DEFAULT_TOLERANCE)%Z ->
  JSON_parse payload = Some j ->
  verified_event (signed_webhook_request_keys keys payload ts) w = Normal (JV j).
Proof.
  intros Hs Hin Hu Hp Hts Hb Hage Hj. unfold verified_event, constructEvent, req_header.
  unfold req_text. cbn [req_headers req_body signed_webhook_request_keys]. rewrite lookup_singleton_eq, Hs, Hu.
  rewrite verifyHeader_sound; [by rewrite Hj|done|done|done|done| |].
  - apply Forall_fmap, Forall_forall. intros k _. split; [apply hmac_hex|apply hmac_nonempty].
  - by apply list_elem_of_fmap_2.
Qed.

Lemma webhook_accepts_rotated_secret_witness :
  verified_event (signed_webhook_request_keys ["whsec_old"; test_secret] "null" test_ts)
    (demo_world 1700000100000) = Normal (JV JSNull).
Proof.
  apply (webhook_accepts_rotated_secret test_secret ["whsec_old"; test_secret] "null" test_ts
    (demo_world 1700000100000) JSNull);
    [reflexivity|apply list_elem_of_In; right; left; reflexivity|vm_compute; reflexivity|discriminate|discriminate
    |vm_compute; reflexivity|vm_compute; discriminate|vm_compute; reflexivity].
Defined.

(** C4: what the server takes as an event meets the contract of
    section 4.1, stated on the header as the spec describes it: the body
    is not empty; the [stripe-signature] header has a [t] entry and a
    [v1] entry whose value is the HMAC under the webhook secret of the
    timestamp as [`${parseInt(t)}`] prints it, a dot and the body; the
    timestamp is at most 300 s behind the server's clock in whole
    seconds, or is [+Infinity] or [NaN], which the library never finds
    stale; and the event is the parsed body. *)
Theorem verified_event_spec req w ev :
  verified_event req w = Normal ev ->
  exists h k, req_header req "stripe-signature" = Some h /\ w_env w !! "STRIPE_WEBHOOK_SECRET" = Some k /\
    signed_fresh (w_now_ms w) (req_text req) h k /\
    exists j, JSON_parse (req_text req) = Some j /\ ev = JV j.
Proof.
  unfold verified_event, constructEvent.
  destruct (verifyHeader _ _ _ _ _) as [[]|e] eqn:Hv; cbn; [|discriminate].
  apply verifyHeader_signed_fresh in Hv as (h & k & Hh & Hk & Hf).
  destruct (JSON_parse (req_text req)) as [j|]; [|discriminate]. intros [= <-].
  exists h, k. eauto 10.
Qed.

Lemma verified_event_spec_witness :
  verified_event (signed_webhook_request test_secret "null" test_ts) (demo_world 1700000100000) =
    Normal (JV JSNull) /\
  exists h k, req_header (signed_webhook_request test_secret "null" test_ts) "stripe-signature" = Some h /\
    w_env (demo_world 1700000100000) !! "STRIPE_WEBHOOK_SECRET" = Some k /\
    signed_fresh (w_now_ms (demo_world 1700000100000)) (req_text (signed_webhook_request test_secret "null" test_ts)) h k /\
    exists j, JSON_parse (req_text (signed_webhook_request test_secret "null" test_ts)) = Some j /\ JV JSNull = JV j.
Proof.
  split; [vm_compute; reflexivity|].
  apply (verified_event_spec (signed_webhook_request test_secret "null" test_ts) (demo_world 1700000100000)).
  vm_compute. reflexivity.
Defined.


(** ** What an accepted request carries *)

(** C7: a webhook request the server answers with [200] carries
    a [stripe-signature] header with a [v1] candidate of exactly 64
    lower-case hex digits, and a timestamp at most 300 s older than the
    server's clock in whole seconds (or one [parseInt] reads as
    [+Infinity] or [NaN]). *)
Theorem webhook_success_bounds client req w w' r :
  req_method req = POST -> req_path req = "/webhook" ->
  app_fetch (app_routes client) req w = (w', Normal r) -> res_status r = 200%Z ->
  exists h, req_header req "stripe-signature" = Some h /\
    match timestamp (parseHeader h EXPECTED_SCHEME) with
    | JNum t => (w_now_ms w / 1000 - t <= DEFAULT_TOLERANCE)%Z
    | JInf neg => neg = false
    | JNaN => True
    end /\
    exists sig, Some sig ∈ signatures (parseHeader h EXPECTED_SCHEME) /\
      String.length sig = 64%nat /\ all_lower_hex sig = true.
Proof.
  intros Hm Hp Hf Hr. destruct (verified_event req w) as [ev|e] eqn:Hv.
  - unfold verified_event, constructEvent in Hv.
    destruct (verifyHeader _ _ _ _ _) as [[]|] eqn:Hh; cbn in Hv; [|discriminate].
    apply verifyHeader_normal in Hh as (_ & h & k & -> & _ & _ & _ & _ & Hin & Ho).
    exists h. split; [done|]. split.
    + by apply (outside_tolerance_false DEFAULT_TOLERANCE).
    + eexists. split; [exact Hin|]. split; [apply hmac_length|apply hmac_hex].
  - pose proof (webhook_thrown_400 client req w e Hm Hp Hv) as H4. rewrite Hf in H4.
    cbn in H4. injection H4 as ->. cbn in Hr. discriminate.
Qed.

Lemma webhook_success_bounds_witness :
  exists h, req_header (signed_webhook_request test_secret (demo_payload "checkout.session.completed") test_ts)
              "stripe-signature" = Some h /\
    match timestamp (parseHeader h EXPECTED_SCHEME) with
    | JNum t => (w_now_ms (demo_world 1700000100000) / 1000 - t <= DEFAULT_TOLERANCE)%Z
    | JInf neg => neg = false
    | JNaN => True
    end /\
    exists sig, Some sig ∈ signatures (parseHeader h EXPECTED_SCHEME) /\
      String.length sig = 64%nat /\ all_lower_hex sig = true.
Proof.
  apply (webhook_success_bounds demo_client
    (signed_webhook_request test_secret (demo_payload "checkout.session.completed") test_ts)
    (demo_world 1700000100000)
    (fst (app_fetch (app_routes demo_client)
       (signed_webhook_request test_secret (demo_payload "checkout.session.completed") test_ts)
       (demo_world 1700000100000)))
    (c_text "success")); [reflexivity|reflexivity| |reflexivity].
  vm_compute. reflexivity.
Defined.

(** ** Requests that fail verification *)

(** C3: a request that [constructEvent] rejects, for whatever reason,
    gets [400] with an empty body, and nothing of the event is logged:
    only the two opening lines and the verification failure. *)
Theorem webhook_rejects_unverified client req w e :
  req_method req = POST -> req_path req = "/webhook" ->
  verified_event req w = Thrown e ->
  app_fetch (app_routes client) req w =
  (add_logs (webhook_prelude (w_env w) req ++ [verification_failed_log e]) w,
   Normal (getResponse 400 None)).
Proof.
  intros Hm Hp Hv. fetch_route POST "/webhook" webhook_handler.
  erewrite run_try_thrown by (apply webhook_handler_thrown, Hv). reflexivity.
Qed.

Lemma webhook_rejects_unverified_witness :
  app_fetch (app_routes demo_client) (mkRequest POST "/webhook" ∅ "{}") (demo_world 0) =
  (add_logs (webhook_prelude demo_env (mkRequest POST "/webhook" ∅ "{}") ++
             [verification_failed_log NoSignatureHeader]) (demo_world 0),
   Normal (getResponse 400 None)).
Proof. apply webhook_rejects_unverified; vm_compute; reflexivity. Defined.

(** C8: a request signed with another key than the server's webhook
    secret, whose HMAC differs, is answered [400]. *)
Theorem webhook_rejects_other_secret client secret key payload ts w :
  w_env w !! "STRIPE_WEBHOOK_SECRET" = Some secret -> body_text payload = payload ->
  payload <> "" -> ts <> (-1)%Z -> (Z.abs ts < 2 ^ 53)%Z ->
  computeHMACSignature (signed_content ts payload) key <>
    computeHMACSignature (signed_content ts payload) secret ->
  snd (app_fetch (app_routes client) (signed_webhook_request key payload ts) w) =
  Normal (getResponse 400 None).
Proof.
  intros Hs Hu Hp Hts Hb Hne.
  apply (webhook_thrown_400 _ _ _ NoMatchingSignature); [done|done|].
  apply (verified_event_rejected _ secret); [done|done|].
  by apply verifyHeader_rejects_other_secret.
Qed.

Lemma webhook_rejects_other_secret_witness :
  snd (app_fetch (app_routes demo_client) (signed_webhook_request "whsec_other" "{}" test_ts)
    (demo_world 1700000100000)) = Normal (getResponse 400 None).
Proof.
  apply (webhook_rejects_other_secret demo_client test_secret "whsec_other" "{}" test_ts
    (demo_world 1700000100000)); [reflexivity|vm_compute; reflexivity|discriminate|discriminate
    |vm_compute; reflexivity|eval_neq].
Defined.

(** C9: a request correctly signed with the server's secret but
    more than 300 s old is answered [400]. *)
Theorem webhook_rejects_stale client secret payload ts w :
  w_env w !! "STRIPE_WEBHOOK_SECRET" = Some secret -> body_text payload = payload ->
  payload <> "" -> ts <> (-1)%Z -> (Z.abs ts < 2 ^ 53)%Z -> (w_now_ms w / 1000 - ts > DEFAULT_TOLERANCE)%Z ->
  snd (app_fetch (app_routes client) (signed_webhook_request secret payload ts) w) =
  Normal (getResponse 400 None).
Proof.
  intros Hs Hu Hp Hts Hb Hage.
  apply (webhook_thrown_400 _ _ _ TimestampOutsideTolerance); [done|done|].
  apply (verified_event_rejected _ secret); [done|done|].
  by apply verifyHeader_rejects_stale.
Qed.

Lemma webhook_rejects_stale_witness :
  snd (app_fetch (app_routes demo_client) (signed_webhook_request test_secret "{}" test_ts)
    (demo_world 1700000400000)) = Normal (getResponse 400 None).
Proof.
  apply (webhook_rejects_stale demo_client test_secret "{}" test_ts (demo_world 1700000400000));
    [reflexivity|vm_compute; reflexivity|discriminate|discriminate|vm_compute; reflexivity
    |vm_compute; reflexivity].
Defined.

(** C10: changing the body of a correctly signed request, so that
    its HMAC differs, makes the server answer [400]. *)
Theorem webhook_rejects_tampered client secret payload payload' ts w :
  w_env w !! "STRIPE_WEBHOOK_SECRET" = Some secret -> body_text payload' = payload' ->
  payload' <> "" -> ts <> (-1)%Z -> (Z.abs ts < 2 ^ 53)%Z ->
  computeHMACSignature (signed_content ts payload') secret <>
    computeHMACSignature (signed_content ts payload) secret ->
  snd (app_fetch (app_routes client) (with_body (signed_webhook_request secret payload ts) payload') w) =
  Normal (getResponse 400 None).
Proof.
  intros Hs Hu Hp Hts Hb Hne.
  apply (webhook_thrown_400 _ _ _ NoMatchingSignature); [done|done|].
  unfold verified_event, constructEvent, req_text. cbn [with_body req_body]. rewrite Hu.
  unfold req_header. cbn [req_headers with_body signed_webhook_request].
  rewrite lookup_singleton_eq, Hs, verifyHeader_rejects_tampered by done. reflexivity.
Qed.

Lemma webhook_rejects_tampered_witness :
  snd (app_fetch (app_routes demo_client)
    (with_body (signed_webhook_request test_secret "{}" test_ts) "{ }") (demo_world 1700000100000)) =
  Normal (getResponse 400 None).
Proof.
  apply (webhook_rejects_tampered demo_client test_secret "{}" "{ }" test_ts (demo_world 1700000100000));
    [reflexivity|vm_compute; reflexivity|discriminate|discriminate|vm_compute; reflexivity|eval_neq].
Defined.




(** C12: Stripe signs the exact bytes of the body, but the handler
    verifies the text [c.req.text()] decoded them to: a body that is not
    well-formed UTF-8, or that starts with a byte order mark, is checked
    against other bytes, and a request correctly signed over it is
    answered [400]. *)
Theorem webhook_rejects_reencoded_body client secret payload ts w :
  w_env w !! "STRIPE_WEBHOOK_SECRET" = Some secret -> ts <> (-1)%Z -> (Z.abs ts < 2 ^ 53)%Z ->
  computeHMACSignature (signed_content ts (body_text payload)) secret <>
    computeHMACSignature (signed_content ts payload) secret ->
  snd (app_fetch (app_routes client) (signed_webhook_request secret payload ts) w) =
  Normal (getResponse 400 None).
Proof.
  intros Hs Hts Hb Hne. destruct (String.eqb_spec (body_text payload) "") as [He|He].
  - apply (webhook_thrown_400 _ _ _ NoWebhookPayload); [done|done|].
    unfold verified_event, constructEvent, req_text. cbn [req_body signed_webhook_request].
    by rewrite He.
  - apply (webhook_thrown_400 _ _ _ NoMatchingSignature); [done|done|].
    unfold verified_event, constructEvent, req_text. rewrite signed_webhook_request_header, Hs.
    cbn [req_body signed_webhook_request]. by rewrite verifyHeader_rejects_tampered.
Qed.

(** A JSON string holding the byte [0xFF]. *)
Definition invalid_utf8_payload : string := dq +:+ String (Ascii.ascii_of_N 255) dq.

Lemma webhook_rejects_reencoded_body_witness :
  snd (app_fetch (app_routes demo_client) (signed_webhook_request test_secret invalid_utf8_payload test_ts)
    (demo_world 1700000100000)) = Normal (getResponse 400 None).
Proof.
  apply (webhook_rejects_reencoded_body demo_client test_secret invalid_utf8_payload test_ts
    (demo_world 1700000100000)); [reflexivity|discriminate|vm_compute; reflexivity|eval_neq].
Defined.

(** C23: a signed request that is stale at some point of a run
    is rejected with [400] at every later point of the run, whatever
    requests are handled in between: the clock only advances and the
    secret never changes. *)
Theorem replay_rejected_forever client secret payload ts w0 w :
  reachable client w0 w -> w_env w0 !! "STRIPE_WEBHOOK_SECRET" = Some secret ->
  body_text payload = payload -> payload <> "" -> ts <> (-1)%Z -> (Z.abs ts < 2 ^ 53)%Z ->
  (w_now_ms w0 / 1000 - ts > DEFAULT_TOLERANCE)%Z ->
  snd (app_fetch (app_routes client) (signed_webhook_request secret payload ts) w) =
  Normal (getResponse 400 None).
Proof.
  intros Hr Hs Hu Hp Hts Hb Hage. destruct (reachable_env_clock _ _ _ Hr) as [He Hn].
  apply (webhook_thrown_400 _ _ _ TimestampOutsideTolerance); [done|done|].
  apply (verified_event_rejected _ secret); [by rewrite He|done|].
  apply verifyHeader_rejects_stale; [done|done|done|].
  pose proof (Z.div_le_mono _ _ 1000 ltac:(lia) Hn). lia.
Qed.

Lemma replay_rejected_forever_witness :
  snd (app_fetch (app_routes demo_client) (signed_webhook_request test_secret "{}" test_ts)
    (set_now 1700009000000 (demo_world 1700000400000))) = Normal (getResponse 400 None).
Proof.
  apply (replay_rejected_forever demo_client test_secret "{}" test_ts (demo_world 1700000400000));
    [apply reach_tick; [apply reach_start|cbn; lia]|reflexivity|vm_compute; reflexivity|discriminate|discriminate|vm_compute; reflexivity
    |vm_compute; reflexivity].
Defined.

(** C25: with [STRIPE_WEBHOOK_SECRET] unset the server still
    runs, and answers every [POST /webhook] with [400]: the missing
    configuration surfaces on each request, not at start-up. *)
Theorem webhook_without_secret_400 client req w :
  req_method req = POST -> req_path req = "/webhook" ->
  w_env w !! "STRIPE_WEBHOOK_SECRET" = None ->
  snd (app_fetch (app_routes client) req w) = Normal (getResponse 400 None).
Proof.
  intros Hm Hp Hs. destruct (verified_event_no_secret req w Hs) as [e He].
  by apply (webhook_thrown_400 _ _ _ e).
Qed.

Lemma webhook_without_secret_400_witness :
  snd (app_fetch (app_routes demo_client) (signed_webhook_request test_secret "{}" test_ts)
    (set_env (delete "STRIPE_WEBHOOK_SECRET" demo_env) (demo_world 1700000100000))) =
  Normal (getResponse 400 None).
Proof.
  apply (webhook_without_secret_400 demo_client (signed_webhook_request test_secret "{}" test_ts)
    (set_env (delete "STRIPE_WEBHOOK_SECRET" demo_env) (demo_world 1700000100000)));
    [reflexivity|reflexivity|vm_compute; reflexivity].
Defined.

(** C26: a [t] that [parseInt] reads as [NaN] makes the request never
    stale: signed over ["NaN.{payload}"], it is taken whatever the clock
    reads. *)
Theorem webhook_nan_timestamp_never_stale secret payload t w j :
  w_env w !! "STRIPE_WEBHOOK_SECRET" = Some secret -> body_text payload = payload ->
  payload <> "" -> parseInt10 (Some t) = JNaN ->
  has_char "," t = false -> has_char "=" t = false -> JSON_parse payload = Some j ->
  verified_event
    (mkRequest POST "/webhook"
       {[ "stripe-signature" :=
            join_with "," ["t=" +:+ t; "v1=" +:+ computeHMACSignature ("NaN." +:+ payload) secret] ]}
       payload) w = Normal (JV j).
Proof.
  intros Hs Hu Hp Hnan Hc He Hj. unfold verified_event, constructEvent, req_header, req_text.
  cbn [req_headers req_body]. rewrite lookup_singleton_eq, Hs, Hu, verifyHeader_nan_timestamp by done.
  cbn. by rewrite Hj.
Qed.

Lemma webhook_nan_timestamp_never_stale_witness :
  verified_event
    (mkRequest POST "/webhook"
       {[ "stripe-signature" :=
            join_with "," ["t=" +:+ "soon"; "v1=" +:+ computeHMACSignature ("NaN." +:+ "null") test_secret] ]}
       "null") (demo_world 99999999999999) = Normal (JV JSNull).
Proof.
  apply (webhook_nan_timestamp_never_stale test_secret "null" "soon" (demo_world 99999999999999) JSNull);
    first [reflexivity | discriminate | vm_compute; reflexivity].
Defined.

(** ** Event dispatch *)

(** C14: a verified event with one of the three handled tags logs
    its [data.object] once, and is acknowledged with [200 success]. *)
Theorem webhook_logs_handled_event client req w fs tag dfs o :
  req_method req = POST -> req_path req = "/webhook" ->
  verified_event req w = Normal (JV (JSObject fs)) ->
  tag ∈ handled_event_types -> prop_value fs "type" = JV (JSString tag) ->
  obj_get fs "data" = Some (JSObject dfs) -> obj_get dfs "object" = Some o ->
  app_fetch (app_routes client) req w =
  (add_logs (webhook_prelude (w_env w) req ++ [ConsoleLog (LogVal (JV o))]) w,
   Normal (c_text "success")).
Proof.
  intros Hm Hp Hv Hin Ht Hd Ho. fetch_route POST "/webhook" webhook_handler.
  apply run_try_normal. by apply (webhook_handler_handled _ _ fs tag dfs).
Qed.

Lemma webhook_logs_handled_event_witness :
  app_fetch (app_routes demo_client)
    (signed_webhook_request test_secret (demo_payload "customer.subscription.deleted") test_ts)
    (demo_world 1700000100000) =
  (add_logs (webhook_prelude demo_env
     (signed_webhook_request test_secret (demo_payload "customer.subscription.deleted") test_ts) ++
     [ConsoleLog (LogVal (JV demo_session))]) (demo_world 1700000100000), Normal (c_text "success")).
Proof.
  apply (webhook_logs_handled_event demo_client
    (signed_webhook_request test_secret (demo_payload "customer.subscription.deleted") test_ts)
    (demo_world 1700000100000) (demo_fields "customer.subscription.deleted")
    "customer.subscription.deleted" [("object", demo_session)]);
    [reflexivity|reflexivity|vm_compute; reflexivity| |reflexivity|reflexivity|reflexivity].
  apply list_elem_of_In. right. right. left. reflexivity.
Defined.

(** C15: section 8.7 of the spec: the same verified event of an
    unrecognised type delivered twice is acknowledged the same way both
    times, and the second delivery does nothing but log the same two
    opening lines (the secret and the signature) again. *)
Theorem unhandled_event_idempotent client req w fs :
  req_method req = POST -> req_path req = "/webhook" ->
  verified_event req w = Normal (JV (JSObject fs)) ->
  Forall (fun tag => strict_eq_string (prop_value fs "type") tag = false) handled_event_types ->
  handle_seq client [req; req] w =
  (add_logs (webhook_prelude (w_env w) req ++ webhook_prelude (w_env w) req) w,
   [Normal (c_text "success"); Normal (c_text "success")]).
Proof.
  intros Hm Hp Hv Hall.
  assert (H1 : app_fetch (app_routes client) req w =
               (add_logs (webhook_prelude (w_env w) req) w, Normal (c_text "success"))).
  { fetch_route POST "/webhook" webhook_handler. apply run_try_normal. by apply (webhook_handler_unhandled _ _ fs). }
  cbn [handle_seq]. rewrite H1, (app_fetch_repeat _ _ _ _ _ H1). reflexivity.
Qed.

Lemma unhandled_event_idempotent_witness :
  handle_seq demo_client
    [signed_webhook_request test_secret (demo_payload "payment_intent.created") test_ts;
     signed_webhook_request test_secret (demo_payload "payment_intent.created") test_ts]
    (demo_world 1700000100000) =
  (add_logs (webhook_prelude demo_env (signed_webhook_request test_secret (demo_payload "payment_intent.created") test_ts) ++
             webhook_prelude demo_env (signed_webhook_request test_secret (demo_payload "payment_intent.created") test_ts))
     (demo_world 1700000100000),
   [Normal (c_text "success"); Normal (c_text "success")]).
Proof.
  apply (unhandled_event_idempotent demo_client
    (signed_webhook_request test_secret (demo_payload "payment_intent.created") test_ts)
    (demo_world 1700000100000) (demo_fields "payment_intent.created")); [reflexivity|reflexivity|vm_compute; reflexivity|].
  repeat constructor.
Defined.

(** C16: a verified payload that parses to [null] makes [event.type]
    throw a [TypeError], which Hono's error handler turns into [500]. *)
Theorem webhook_null_event_500 client req w :
  req_method req = POST -> req_path req = "/webhook" ->
  verified_event req w = Normal (JV JSNull) ->
  app_fetch (app_routes client) req w =
  (add_logs (webhook_prelude (w_env w) req ++
     [ConsoleError (LogErr "TypeError" "Cannot read properties of null (reading 'type')")]) w,
   Normal (c_text_status "Internal Server Error" 500)).
Proof.
  intros Hm Hp Hv. fetch_route POST "/webhook" webhook_handler.
  erewrite run_try_thrown.
  2:{ rewrite (webhook_handler_normal _ _ _ Hv). apply run_bind_thrown, log_if_type_null. }
  world_eq.
Qed.

Lemma webhook_null_event_500_witness :
  app_fetch (app_routes demo_client) (signed_webhook_request test_secret "null" test_ts)
    (demo_world 1700000100000) =
  (add_logs (webhook_prelude demo_env (signed_webhook_request test_secret "null" test_ts) ++
     [ConsoleError (LogErr "TypeError" "Cannot read properties of null (reading 'type')")])
     (demo_world 1700000100000),
   Normal (c_text_status "Internal Server Error" 500)).
Proof.
  apply (webhook_null_event_500 demo_client (signed_webhook_request test_secret "null" test_ts)
    (demo_world 1700000100000)); [reflexivity|reflexivity|vm_compute; reflexivity].
Defined.

(** C17: a verified event with a handled type but no [data] makes
    [event.data.object] throw a [TypeError]: the server answers [500],
    and Stripe will retry the event, although dispatch is meant never to
    fail on a verified event. *)
Theorem webhook_handled_event_without_data_500 client req w fs tag :
  req_method req = POST -> req_path req = "/webhook" ->
  verified_event req w = Normal (JV (JSObject fs)) ->
  tag ∈ handled_event_types -> prop_value fs "type" = JV (JSString tag) -> obj_get fs "data" = None ->
  app_fetch (app_routes client) req w =
  (add_logs (webhook_prelude (w_env w) req ++
     [ConsoleError (LogErr "TypeError" "Cannot read properties of undefined (reading 'object')")]) w,
   Normal (c_text_status "Internal Server Error" 500)).
Proof.
  intros Hm Hp Hv Hin Ht Hd. fetch_route POST "/webhook" webhook_handler.
  erewrite run_try_thrown by (by apply (webhook_handler_no_data _ _ fs tag)). world_eq.
Qed.

Lemma webhook_handled_event_without_data_500_witness :
  app_fetch (app_routes demo_client)
    (signed_webhook_request test_secret (stringify (JSObject [("type", JSString "customer.subscription.updated")])) test_ts)
    (demo_world 1700000100000) =
  (add_logs (webhook_prelude demo_env
     (signed_webhook_request test_secret (stringify (JSObject [("type", JSString "customer.subscription.updated")])) test_ts) ++
     [ConsoleError (LogErr "TypeError" "Cannot read properties of undefined (reading 'object')")])
     (demo_world 1700000100000),
   Normal (c_text_status "Internal Server Error" 500)).
Proof.
  apply (webhook_handled_event_without_data_500 demo_client
    (signed_webhook_request test_secret (stringify (JSObject [("type", JSString "customer.subscription.updated")])) test_ts)
    (demo_world 1700000100000) [("type", JSString "customer.subscription.updated")] "customer.subscription.updated");
    [reflexivity|reflexivity|vm_compute; reflexivity| |reflexivity|reflexivity].
  apply list_elem_of_In. right. left. reflexivity.
Defined.

(** ** What every webhook request logs *)

(** C24: every [POST /webhook] request writes the webhook
    signing secret to the console in clear, before anything else. *)
Theorem webhook_logs_signing_secret client req w :
  req_method req = POST -> req_path req = "/webhook" ->
  exists es r,
    app_fetch (app_routes client) req w =
    (add_logs (ConsoleLog (LogStr ("secret: " +:+ env_str (w_env w) "STRIPE_WEBHOOK_SECRET")) :: es) w, r).
Proof.
  intros Hm Hp. fetch_route POST "/webhook" webhook_handler.
  destruct (webhook_handler_logs_prelude req w) as (es & [a|e] & H).
  - eexists _, (Normal a). rewrite (run_try_normal _ _ _ _ _ H). reflexivity.
  - rewrite (run_try_thrown _ _ _ _ _ H).
    destruct (oblivious_run (errorHandler e) (add_logs (webhook_prelude (w_env w) req ++ es) w)
      (oblivious_errorHandler e)) as (es' & o & He).
    rewrite He, add_logs_app. eexists _, o. rewrite <- app_assoc. reflexivity.
Qed.

Lemma webhook_logs_signing_secret_witness :
  exists es r,
    app_fetch (app_routes demo_client) (mkRequest POST "/webhook" ∅ "{}") (demo_world 0) =
    (add_logs (ConsoleLog (LogStr ("secret: " +:+ env_str demo_env "STRIPE_WEBHOOK_SECRET")) :: es)
       (demo_world 0), r).
Proof.
  apply (webhook_logs_signing_secret demo_client (mkRequest POST "/webhook" ∅ "{}") (demo_world 0));
    reflexivity.
Defined.
