(* ===== verification/ServerProps.v ===== *)
(** * Properties of the other routes and of the server as a whole

    [POST /checkout], [GET /] and the fixed pages of index.ts (unknown
    routes and [HEAD] are covered by the refinement of [ServerSpec]);
    start-up, with the [.env] file read by the model of dotenv's parser
    in [Dotenv]; and the state of the server across requests: handling
    a request only appends to the console log, so a sequence of requests
    gets the answers each gets alone. *)

From S2P Require Import Prelude JsBuiltins Dotenv Utf8 Json JsonRoundtrip Sha256 StripeWebhook Hono Url App.
From stdpp Require Import gmap.

(** ** [POST /checkout] *)

(** C18: the session [POST /checkout] answers with is read back
    unchanged by the page's [response.json()], so the script gets the
    session's [id]. *)
Theorem checkout_session_roundtrip client req w session :
  req_method req = POST -> req_path req = "/checkout" ->
  w_stripe_api w client checkout_session_params = Normal session -> wf_json session = true ->
  exists r, app_fetch (app_routes client) req w = (w, Normal r) /\ res_status r = 200%Z /\
    JSON_parse (res_body r) = Some session.
Proof.
  intros Hm Hp Hapi Hw. fetch_route POST "/checkout" (checkout_handler client).
  exists (c_json session). split; [|split; [done|by apply JSON_parse_stringify]].
  unfold checkout_handler, sessions_create. unfold_prog. cbn. by rewrite Hapi.
Qed.

Lemma checkout_session_roundtrip_witness :
  exists r, app_fetch (app_routes demo_client) (mkRequest POST "/checkout" ∅ "") (demo_world 0) =
    (demo_world 0, Normal r) /\ res_status r = 200%Z /\ JSON_parse (res_body r) = Some demo_session.
Proof.
  apply (checkout_session_roundtrip demo_client (mkRequest POST "/checkout" ∅ "") (demo_world 0) demo_session);
    [reflexivity|reflexivity|reflexivity|vm_compute; reflexivity].
Defined.

(** C19: when the Stripe API fails, [POST /checkout] logs the
    error and answers [500] with the processor's message as body. *)
Theorem checkout_failure_500 client req w err :
  req_method req = POST -> req_path req = "/checkout" ->
  w_stripe_api w client checkout_session_params = Thrown err ->
  app_fetch (app_routes client) req w =
  (append_log (ConsoleLog (LogErr (se_type err) (default "undefined" (se_message err)))) w,
   Normal (mkResponse 500 (Some "text/plain;charset=UTF-8") (default "" (se_message err)))).
Proof.
  intros Hm Hp Hapi. fetch_route POST "/checkout" (checkout_handler client).
  unfold checkout_handler, sessions_create. unfold_prog. cbn. by rewrite Hapi.
Qed.

Lemma checkout_failure_500_witness :
  app_fetch (app_routes (new_Stripe None)) (mkRequest POST "/checkout" ∅ "") (demo_world 0) =
  (append_log (ConsoleLog (LogErr "StripeAuthenticationError" "You did not provide an API key."))
     (demo_world 0),
   Normal (mkResponse 500 (Some "text/plain;charset=UTF-8") "You did not provide an API key.")).
Proof.
  apply (checkout_failure_500 (new_Stripe None) (mkRequest POST "/checkout" ∅ "") (demo_world 0)
    (mkStripeError "StripeAuthenticationError" (Some "You did not provide an API key.")));
    reflexivity.
Defined.

(** ** The page, the fixed routes and unknown routes *)

(** C20: [GET /] serves the checkout page with the publishable key of
    the environment in the call [Stripe('<key>')], or the text
    ["undefined"] when the variable is not set. *)
Theorem index_embeds_publishable_key client req w :
  req_method req = GET -> req_path req = "/" ->
  exists before after,
    app_fetch (app_routes client) req w =
    (w, Normal (c_html (before +:+ "Stripe('" +:+ env_str (w_env w) "STRIPE_PUBLISHABLE_KEY" +:+ "')" +:+ after))).
Proof.
  intros Hm Hp. fetch_route GET "/" index_handler.
  unfold index_handler. unfold_prog. cbn -[checkout_page].
  unfold checkout_page.
  rewrite join_with_app, join_with_cons by discriminate.
  eexists (join_with newline page_head +:+ String newline "            const stripe = "), _.
  rewrite ?string_app_assoc, ?string_app_cons, ?string_app_assoc. reflexivity.
Qed.

Lemma index_embeds_publishable_key_witness :
  exists before after,
    app_fetch (app_routes demo_client) (mkRequest GET "/" ∅ "") (demo_world 0) =
    (demo_world 0, Normal (c_html (before +:+ "Stripe('" +:+ "pk_test_1" +:+ "')" +:+ after))).
Proof.
  change "pk_test_1" with (env_str (w_env (demo_world 0)) "STRIPE_PUBLISHABLE_KEY").
  apply (index_embeds_publishable_key demo_client (mkRequest GET "/" ∅ "") (demo_world 0)); reflexivity.
Defined.

(** ** Start-up *)

(** C27: start-up from a [.env] file written one [KEY=VALUE] line per
    entry (keys of [[\w.-]], values of printable characters not opened
    by a quote), with LF or with CR LF line ends, sets exactly those
    variables that were not already set, each to the value of its last
    entry in the file. *)
Theorem boot_reads_env_file w kvs :
  forallb entry_ok kvs = true ->
  w_env (snd (boot w (Some (dotenv_file kvs)))) = w_env w ∪ assign_all ∅ kvs /\
  w_env (snd (boot w (Some (dotenv_file_crlf kvs)))) = w_env w ∪ assign_all ∅ kvs.
Proof.
  intros Hok. unfold boot, load_env. cbn [snd w_env append_log set_env].
  rewrite !dotenv_config_union. unfold dotenv_parsed. cbn [fmap option_fmap option_map default].
  by rewrite dotenv_parse_file, dotenv_parse_file_crlf.
Qed.

Lemma boot_reads_env_file_witness :
  forallb entry_ok [("STRIPE_SECRET_KEY", "sk_test_2"); ("PORT", "3000"); ("PORT", "8080")] = true /\
  w_env (snd (boot (demo_world 0) (Some (dotenv_file [("STRIPE_SECRET_KEY", "sk_test_2"); ("PORT", "3000"); ("PORT", "8080")])))) =
  w_env (demo_world 0) ∪ assign_all ∅ [("STRIPE_SECRET_KEY", "sk_test_2"); ("PORT", "3000"); ("PORT", "8080")] /\
  w_env (snd (boot (demo_world 0) (Some (dotenv_file_crlf [("STRIPE_SECRET_KEY", "sk_test_2"); ("PORT", "3000"); ("PORT", "8080")])))) =
  w_env (demo_world 0) ∪ assign_all ∅ [("STRIPE_SECRET_KEY", "sk_test_2"); ("PORT", "3000"); ("PORT", "8080")].
Proof. split; [vm_compute; reflexivity|]. apply boot_reads_env_file. vm_compute. reflexivity. Defined.

(** ** State across requests *)

(** C21: in a sequence of requests each one gets the outcome it
    gets when handled alone in the starting world, and the sequence only
    appends to the log: the server keeps no state between requests, so
    the order in which requests arrive changes no response. *)
Theorem handle_seq_stateless client reqs w :
  snd (handle_seq client reqs w) = map (fun r => snd (app_fetch (app_routes client) r w)) reqs /\
  exists es, fst (handle_seq client reqs w) = add_logs es w.
Proof.
  destruct (handle_seq_after_logs client reqs [] w) as [Hos [es Hw]].
  rewrite add_logs_nil in Hos, Hw. eauto.
Qed.
