(* ===== verification/Concurrency.v ===== *)
(** * Requests handled concurrently

    The handlers of index.ts are [async]: Node runs a handler until its
    first [await], then goes back to the event loop, where the handling
    of other requests may run before the awaited value arrives.  The
    handlers await in two places: [await c.req.text()] (index.ts 48),
    before anything else of the webhook handler, and [await
    stripe.checkout.sessions.create(...)] (index.ts 80), between sending
    the request to Stripe and the rest of the checkout handler.  After
    each of them the handler runs to its end without yielding; the other
    handlers never yield.

    A request in flight is a [proc]: a finished outcome, or a step that
    changes the world and continues.  The event loop is the relation
    [step] on a pool of processes and the world: any process that is not
    finished may take its next step; [step_clock] also lets the clock
    advance between two segments, never back.  The theorem: whatever the
    interleaving and however the clock advances, each finished request
    has the outcome it has when handled alone at some time between the
    start and the time its last segment ran (an invariant [behaves_c] on
    processes indexed by the latest time they ran at, preserved by every
    step), and the world keeps its configuration and only gains log
    entries.  The Stripe API is a function of the world ([w_stripe_api]),
    the same answer to the same call whenever it is made: a Stripe
    whose answers change over time is not modelled. *)

From S2P Require Import Prelude JsBuiltins Utf8 Json Sha256 StripeWebhook Hono App.
From stdpp Require Import gmap relations.

(** ** Processes *)

Inductive proc : Type :=
| PDone (o : outcome thrown response)
| PStep (eff : world -> world) (next : world -> proc).

(** A program run as one uninterrupted segment. *)
Definition atomic (m : prog world thrown response) : proc :=
  PStep (fun w => fst (m w)) (fun w => PDone (snd (m w))).

(** [await]: back to the event loop, the world unchanged. *)
Definition yield (p : proc) : proc := PStep id (fun _ => p).

(** How a request runs: the webhook and checkout routes yield once
    before their work; the other routes run in one go. *)
Definition request_proc (client : stripe_client) (req : request) : proc :=
  let run := atomic (app_fetch (app_routes client) req) in
  match req_method req with
  | POST => if String.eqb (req_path req) "/webhook" || String.eqb (req_path req) "/checkout"
            then yield run else run
  | _ => run
  end.

(** ** The event loop *)

Definition pool : Type := list proc * world.

(** One step of one process of the pool. *)
Inductive step : relation pool :=
| step_run pre eff next post w :
    step (pre ++ PStep eff next :: post, w) (pre ++ next w :: post, eff w).

(** ** The clock advancing while requests are in flight *)

(** The event loop where, besides the next segment of any process, the
    clock may advance between two segments. *)
Inductive step_clock : relation pool :=
| sc_step pl pl' : step pl pl' -> step_clock pl pl'
| sc_tick ps w t : (w_now_ms w <= t)%Z -> step_clock (ps, w) (ps, set_now t w).

(** [w] is [w0] with more log and a clock that has not gone back. *)
Definition later (w0 w : world) : Prop :=
  (exists es, w = add_logs es (set_now (w_now_ms w) w0)) /\ (w_now_ms w0 <= w_now_ms w)%Z.

Lemma later_refl w0 : later w0 w0.
Proof. split; [|lia]. exists []. destruct w0. unfold add_logs, set_now. cbn. by rewrite app_nil_r. Qed.

Lemma later_tick w0 w t : later w0 w -> (w_now_ms w <= t)%Z -> later w0 (set_now t w).
Proof. intros [[es Hw] Hle] Ht. split; [exists es; rewrite Hw; reflexivity|cbn; lia]. Qed.

(** A segment that runs [app.fetch] in a later world has the outcome it
    has in [w0] at that time, and leaves a later world at the same time. *)
Lemma later_fetch client req w0 w :
  later w0 w ->
  snd (app_fetch (app_routes client) req w) =
    snd (app_fetch (app_routes client) req (set_now (w_now_ms w) w0)) /\
  later w0 (fst (app_fetch (app_routes client) req w)) /\
  w_now_ms (fst (app_fetch (app_routes client) req w)) = w_now_ms w.
Proof.
  intros [[es Hw] Hle]. remember (w_now_ms w) as t eqn:Ht. subst w.
  destruct (app_fetch_after_logs client req es (set_now t w0)) as [Ho [es' Hf]].
  rewrite Hf. split; [done|]. split; [|done]. split; [by exists (es ++ es')|done].
Qed.

(** The outcomes a request may have when its last segment runs at some
    time between [w0]'s and [T]. *)
Definition admissible (client : stripe_client) (w0 : world) (req : request) (T : Z)
    (o : outcome thrown response) : Prop :=
  exists t, (w_now_ms w0 <= t <= T)%Z /\ o = snd (app_fetch (app_routes client) req (set_now t w0)).

Section Clock.
Context (client : stripe_client) (w0 : world).

(** [p], the process of [req], runs in later worlds, keeps their clock,
    and finishes with an admissible outcome; [T] bounds the times at
    which it has run so far. *)
Inductive behaves_c (req : request) : Z -> proc -> Prop :=
| bc_done T o : admissible client w0 req T o -> behaves_c req T (PDone o)
| bc_step T eff next :
    (forall w, later w0 w -> (T <= w_now_ms w)%Z -> later w0 (eff w) /\ w_now_ms (eff w) = w_now_ms w) ->
    (forall w, later w0 w -> (T <= w_now_ms w)%Z -> behaves_c req (w_now_ms w) (next w)) ->
    behaves_c req T (PStep eff next).

Lemma behaves_c_mono req T T' p : behaves_c req T p -> (T <= T')%Z -> behaves_c req T' p.
Proof.
  intros Hb. revert T'. induction Hb as [T o (t & Ht & ->)|T eff next He Hn _]; intros T' HT.
  - constructor. exists t. split; [lia|done].
  - constructor; intros w Hw HTw; [apply He|apply Hn]; solve [done|lia].
Qed.

Lemma behaves_c_request req T : behaves_c req T (request_proc client req).
Proof.
  assert (Ha : forall T, behaves_c req T (atomic (app_fetch (app_routes client) req))).
  { intros T'. constructor; intros w Hw HT; destruct (later_fetch client req w0 w Hw) as (Ho & Hl & Hn);
      [done|]. constructor. exists (w_now_ms w). split; [destruct Hw; lia|done]. }
  unfold request_proc. destruct (req_method req); try apply Ha.
  destruct (_ || _); [|apply Ha]. constructor; intros w Hw _; [done|apply Ha].
Qed.

Definition pool_ok_c (reqs : list request) (pl : pool) : Prop :=
  Forall2 (fun req p => behaves_c req (w_now_ms pl.2) p) reqs pl.1 /\ later w0 pl.2.

Lemma step_clock_ok reqs pl pl' : step_clock pl pl' -> pool_ok_c reqs pl -> pool_ok_c reqs pl'.
Proof.
  intros [pl1 pl2 [pre eff next post w]|ps w t Ht]; intros [Hf Hw]; unfold pool_ok_c; cbn in Hf, Hw |- *.
  - apply Forall2_app_inv_r in Hf as (rs1 & rs2 & H1 & H2 & ->).
    apply Forall2_cons_inv_r in H2 as (r & rs2' & Hr & H2 & ->).
    inversion Hr as [|? ? ? He Hs]; subst.
    destruct (He w Hw (Z.le_refl _)) as [Hw' Hn]. pose proof (Hs w Hw (Z.le_refl _)) as Hb.
    split; [|done]. rewrite Hn.
    apply Forall2_app; [done|]. by constructor.
  - split; [|by apply later_tick].
    eapply Forall2_impl; [exact Hf|]. intros req p Hb. apply (behaves_c_mono _ _ _ _ Hb). cbn. lia.
Qed.

Lemma rtc_step_clock_ok reqs pl pl' : rtc step_clock pl pl' -> pool_ok_c reqs pl -> pool_ok_c reqs pl'.
Proof. induction 1; eauto using step_clock_ok. Qed.
End Clock.

(** A webhook request signed at [test_ts] and arriving at that very
    second, whose body takes 301 s to arrive. *)
Definition late_req : request := signed_webhook_request test_secret (demo_payload "payment_intent.created") test_ts.
Definition arrival_ms : Z := test_ts * 1000.
Definition body_read_ms : Z := arrival_ms + 301000.

Lemma late_run :
  rtc step_clock ([request_proc demo_client late_req], demo_world arrival_ms)
    ([PDone (snd (app_fetch (app_routes demo_client) late_req (set_now body_read_ms (demo_world arrival_ms))))],
     fst (app_fetch (app_routes demo_client) late_req (set_now body_read_ms (demo_world arrival_ms)))).
Proof.
  eapply rtc_l; [apply sc_step, (step_run [] _ _ [])|].
  eapply rtc_l; [apply (sc_tick _ _ body_read_ms); unfold body_read_ms; cbn; lia|].
  eapply rtc_l; [apply sc_step, (step_run [] _ _ [])|]. apply rtc_refl.
Defined.

(** C22: however the event loop interleaves a set of requests and
    however the clock advances meanwhile, every finished request has
    the outcome it has when handled alone at some time between the start
    and now, and the world has kept its configuration and only gained
    log entries. *)
Theorem concurrent_outcomes_clock client reqs w0 ps w :
  rtc step_clock (map (request_proc client) reqs, w0) (ps, w) ->
  Forall2 (fun req p => forall o, p = PDone o ->
             exists t, (w_now_ms w0 <= t <= w_now_ms w)%Z /\
               o = snd (app_fetch (app_routes client) req (set_now t w0))) reqs ps /\
  w_env w = w_env w0 /\ w_stripe_api w = w_stripe_api w0 /\ exists es, w_log w = w_log w0 ++ es.
Proof.
  intros Hrun. assert (H0 : pool_ok_c client w0 reqs (map (request_proc client) reqs, w0)).
  { split; [|apply later_refl]. cbn. apply Forall2_fmap_r, Forall_Forall2_diag, Forall_forall.
    intros req _. apply behaves_c_request. }
  destruct (rtc_step_clock_ok _ _ _ _ _ Hrun H0) as [Hf [[es Hw] _]]. cbn in Hf, Hw.
  split; [|rewrite Hw; cbn; eauto].
  eapply Forall2_impl; [exact Hf|]. intros req p Hb o ->. by inversion Hb.
Qed.

Lemma concurrent_outcomes_clock_witness :
  Forall2 (fun req p => forall o, p = PDone o ->
             exists t, (w_now_ms (demo_world arrival_ms) <= t <=
                        w_now_ms (fst (app_fetch (app_routes demo_client) late_req
                                         (set_now body_read_ms (demo_world arrival_ms)))))%Z /\
               o = snd (app_fetch (app_routes demo_client) req (set_now t (demo_world arrival_ms))))
    [late_req]
    [PDone (snd (app_fetch (app_routes demo_client) late_req (set_now body_read_ms (demo_world arrival_ms))))] /\
  w_env (fst (app_fetch (app_routes demo_client) late_req (set_now body_read_ms (demo_world arrival_ms)))) =
    w_env (demo_world arrival_ms) /\
  w_stripe_api (fst (app_fetch (app_routes demo_client) late_req (set_now body_read_ms (demo_world arrival_ms)))) =
    w_stripe_api (demo_world arrival_ms) /\
  exists es, w_log (fst (app_fetch (app_routes demo_client) late_req (set_now body_read_ms (demo_world arrival_ms)))) =
             w_log (demo_world arrival_ms) ++ es.
Proof. apply (concurrent_outcomes_clock demo_client [late_req] (demo_world arrival_ms)). exact late_run. Defined.
