(* ===== verification/ServerSpec.v ===== *)
(** * The server's contract and its refinement

    Section 6 of the spec as a function: for each method and path, the
    response the server promises, in terms of what it depends on (the
    webhook verification, the shape of the verified event, the Stripe
    API's answer, the publishable key) and not of how index.ts computes
    it (routing, handlers, [try]/[catch], the error handler, the chain of
    [if (event.type === ...)]).  The refinement theorem: [app.fetch]
    answers every request with exactly this response. *)

From S2P Require Import Prelude JsBuiltins Utf8 Json Sha256 StripeWebhook Hono App.
From stdpp Require Import gmap.

(** ** The contract *)

(** [event.data.object] on a verified event *)
Definition event_object (ev : jsval) : option jsval :=
  get_prop ev "data" ≫= fun d => get_prop d "object".

(** The event makes the handler throw: it has no [type] (it is [null]),
    or its type is one of the handled tags and it has no
    [data.object]. *)
Definition event_fails (ev : jsval) : bool :=
  match get_prop ev "type" with
  | None => true
  | Some ty => existsb (strict_eq_string ty) handled_event_types && negb (bool_decide (is_Some (event_object ev)))
  end.

Definition internal_error : response := c_text_status "Internal Server Error" 500.

(** [POST /webhook]: [400] with no detail unless verified; then [500]
    if reading the event throws, [success] otherwise. *)
Definition webhook_response (w : world) (req : request) : response :=
  match verified_event req w with
  | Thrown _ => getResponse 400 None
  | Normal ev => if event_fails ev then internal_error else c_text "success"
  end.

(** [POST /checkout]: the session as JSON, or [500] with the processor's
    message. *)
Definition checkout_response (client : stripe_client) (w : world) : response :=
  match w_stripe_api w client checkout_session_params with
  | Normal session => c_json session
  | Thrown e => getResponse 500 (se_message e)
  end.

(** The table of section 6: [None] for a method and path it does not
    list. *)
Definition route_response (client : stripe_client) (w : world) (req : request) (m : method) (p : string)
  : option response :=
  match m with
  | GET =>
      if String.eqb p "/" then Some (c_html (checkout_page (env_str (w_env w) "STRIPE_PUBLISHABLE_KEY")))
      else if String.eqb p "/success" then Some (c_text "Payment Succesful")
      else if String.eqb p "/cancel" then Some (c_text "Payment Canceled!")
      else None
  | POST =>
      if String.eqb p "/webhook" then Some (webhook_response w req)
      else if String.eqb p "/checkout" then Some (checkout_response client w)
      else None
  | _ => None
  end.

(** Unlisted routes get [404]; [HEAD] gets the [GET] response without
    its body. *)
Definition server_response (client : stripe_client) (w : world) (req : request) : response :=
  match req_method req with
  | HEAD =>
      let r := default notFound (route_response client w req GET (req_path req)) in
      mkResponse (res_status r) (res_content_type r) ""
  | m => default notFound (route_response client w req m (req_path req))
  end.

(** ** The chain of type tests *)

(** One [if (event.type === tag)] throws exactly when [event.type]
    throws or the tag matches and [event.data.object] throws. *)
Definition fails_tag (ev : jsval) (tag : string) : bool :=
  match get_prop ev "type" with
  | None => true
  | Some ty => strict_eq_string ty tag && negb (bool_decide (is_Some (event_object ev)))
  end.

Lemma event_fails_tags ev : event_fails ev = existsb (fails_tag ev) handled_event_types.
Proof.
  unfold event_fails, fails_tag. destruct (get_prop ev "type") as [ty|]; [|done]. cbn.
  destruct (bool_decide _); cbn; rewrite ?andb_false_r, ?andb_true_r; done.
Qed.

Lemma get_prop_type_data ev ty : get_prop ev "type" = Some ty -> exists d, get_prop ev "data" = Some d.
Proof. destruct ev as [|[]]; cbn; try discriminate; eauto. Qed.

Lemma log_if_type_pass ev tag w :
  fails_tag ev tag = false -> exists w', log_if_type ev tag w = (w', Normal tt).
Proof.
  unfold fails_tag, log_if_type, get_prop_or_throw. intros Hf. unfold_prog.
  destruct (get_prop ev "type") as [ty|] eqn:Ht; [|discriminate]. cbn.
  destruct (strict_eq_string ty tag); cbn in Hf |- *; [|eauto].
  unfold event_object in Hf. destruct (get_prop_type_data _ _ Ht) as [d Hd]. rewrite Hd in Hf |- *.
  cbn in Hf |- *. destruct (get_prop d "object"); cbn in Hf |- *; [eauto|discriminate].
Qed.

Lemma log_if_type_fail ev tag w :
  fails_tag ev tag = true -> exists w' n m, log_if_type ev tag w = (w', Thrown (JsError n m)).
Proof.
  unfold fails_tag, log_if_type, get_prop_or_throw. intros Hf. unfold_prog.
  destruct (get_prop ev "type") as [ty|] eqn:Ht; cbn; [|eauto].
  destruct (strict_eq_string ty tag); cbn in Hf |- *; [|discriminate].
  unfold event_object in Hf. destruct (get_prop_type_data _ _ Ht) as [d Hd]. rewrite Hd in Hf |- *.
  cbn in Hf |- *. destruct (get_prop d "object"); cbn in Hf |- *; [discriminate|eauto].
Qed.

(** ** The routes meet the contract *)

Lemma webhook_handler_event req w ev :
  verified_event req w = Normal ev ->
  (event_fails ev = false -> exists w', webhook_handler req w = (w', Normal (c_text "success"))) /\
  (event_fails ev = true -> exists w' n m, webhook_handler req w = (w', Thrown (JsError n m))).
Proof.
  intros Hv. rewrite (webhook_handler_normal _ _ _ Hv), event_fails_tags.
  generalize (add_logs (webhook_prelude (w_env w) req) w) as w1. intros w1. cbn [existsb handled_event_types].
  destruct (fails_tag ev "checkout.session.completed") eqn:H1;
    [split; [discriminate|intros _]; destruct (log_if_type_fail _ _ w1 H1) as (w2 & n & m & E);
     rewrite (run_bind_thrown _ _ _ _ _ E); eauto|].
  destruct (log_if_type_pass _ _ w1 H1) as [w2 E2]. rewrite (run_bind_normal _ _ _ _ _ E2). cbn [orb].
  destruct (fails_tag ev "customer.subscription.updated") eqn:H2;
    [split; [discriminate|intros _]; destruct (log_if_type_fail _ _ w2 H2) as (w3 & n & m & E);
     rewrite (run_bind_thrown _ _ _ _ _ E); eauto|].
  destruct (log_if_type_pass _ _ w2 H2) as [w3 E3]. rewrite (run_bind_normal _ _ _ _ _ E3).
  destruct (fails_tag ev "customer.subscription.deleted") eqn:H3; split; try discriminate; intros _.
  - destruct (log_if_type_fail _ _ w3 H3) as (w4 & n & m & E). rewrite (run_bind_thrown _ _ _ _ _ E). eauto.
  - destruct (log_if_type_pass _ _ w3 H3) as [w4 E4]. rewrite (run_bind_normal _ _ _ _ _ E4). eauto.
Qed.

Lemma webhook_route_response req w :
  snd (try_catch (webhook_handler req) errorHandler w) = Normal (webhook_response w req).
Proof.
  unfold webhook_response. destruct (verified_event req w) as [ev|e] eqn:Hv.
  - destruct (webhook_handler_event _ _ _ Hv) as [Hok Hko]. destruct (event_fails ev).
    + destruct (Hko eq_refl) as (w' & n & m & E). by rewrite (run_try_thrown _ _ _ _ _ E).
    + destruct (Hok eq_refl) as (w' & E). by rewrite (run_try_normal _ _ _ _ _ E).
  - by rewrite (run_try_thrown _ _ _ _ _ (webhook_handler_thrown _ _ _ Hv)).
Qed.

Lemma checkout_route_response client req w :
  snd (try_catch (checkout_handler client req) errorHandler w) = Normal (checkout_response client w).
Proof.
  unfold checkout_handler, sessions_create, checkout_response, try_catch. unfold_prog. cbn.
  by destruct (w_stripe_api w client checkout_session_params).
Qed.

Lemma dispatch_response client req w :
  snd (dispatch (app_routes client) req w) =
  Normal (default notFound (route_response client w req (req_method req) (req_path req))).
Proof.
  unfold dispatch, match_route, route_matches. destruct (req_method req); cbn -[String.eqb]; rewrite ?(String.eqb_sym _ (req_path req)); try done.
  - destruct (String.eqb (req_path req) "/"); [done|].
    destruct (String.eqb (req_path req) "/success"); [done|].
    by destruct (String.eqb (req_path req) "/cancel").
  - destruct (String.eqb (req_path req) "/webhook"); [apply webhook_route_response|].
    destruct (String.eqb (req_path req) "/checkout"); [apply checkout_route_response|done].
Qed.

(** ** Refinement *)

(** C5: [app.fetch] implements the contract: on every request,
    in every world, it answers exactly [server_response], the table of
    section 6 of the spec with the webhook's [400]/[500]/[200], the
    checkout's session or [500], [404] for unlisted routes and [HEAD]
    as [GET] without body; nothing escapes as an exception. *)
Theorem app_fetch_refines client req w :
  snd (app_fetch (app_routes client) req w) = Normal (server_response client w req).
Proof.
  unfold app_fetch, server_response.
  destruct (req_method req) eqn:Hm; try by rewrite dispatch_response, Hm.
  rewrite run_bind.
  pose proof (dispatch_response client (mkRequest GET (req_path req) (req_headers req) (req_body req)) w) as Hd.
  destruct (dispatch _ _ w) as [w' o]. cbn in Hd |- *. by subst o.
Qed.
